(** * rakawarana-backend: a shallow embedding of the request logic

    The development follows the Python sources file by file:
    - [Py]                 the Python values and string helpers the code uses;
    - [exception_handlers] the application exceptions and the result monad;
    - [settings]           app/utils/settings.py;
    - [auth]               app/utils/auth.py;
    - [rescue_posts]       app/schemas/rescue_posts.py, with the loop of
                           pydantic over the fields of the model;
    - [supabase]           the database client the repository calls;
    - [posts_repository]   app/repositories/posts_repository.py;
    - [spaces_client]      the object store of app/utils/spaces_client.py;
    - [posts_service]      app/services/posts_service.py;
    - [posts]              app/routes/posts.py;
    - [admin]              app/routes/admin.py;
    - [telegram]           app/utils/telegram.py;
    - [spec]               the words of the specification as definitions;
    - [examples]           concrete values to run the definitions on.

    Definitions come first; the theorems about them follow in the second
    half, one section per component. *)

From Stdlib Require Import ZArith String Ascii List Strings.Byte DecimalString Qcanon.
From stdpp Require Import base option list gmap strings numbers sorting.

Local Open Scope string_scope.
Local Open Scope Z_scope.

#[local] Set Warnings "-register-all".

(* ===================================================================== *)
(** ** Python values and string helpers *)
(* ===================================================================== *)

Module Py.

(** The JSON-like values that travel in the dictionaries of the code
    ([dict[str, Any]]): rows returned by the database client, insert
    payloads, filter values. *)
Inductive pyval : Type :=
  | PNone
  | PBool (b : bool)
  | PInt (n : Z)
  | PStr (s : string)
  | PList (l : list pyval)
  | PDict (d : gmap string pyval).

(** [d.get(k)]: the value, or [None] when the key is absent. *)
Definition get (d : gmap string pyval) (k : string) : pyval :=
  default PNone (d !! k).

(** Python truthiness, as [if v], [not v] and [v or w] use it. *)
Definition truthy (v : pyval) : bool :=
  match v with
  | PNone => false
  | PBool b => b
  | PInt n => negb (n =? 0)
  | PStr s => negb (String.eqb s "")
  | PList l => match l with [] => false | _ => true end
  | PDict d => negb (bool_decide (dom d = (∅ : gset string)))
  end.

(** [v or w]. *)
Definition py_or (v w : pyval) : pyval := if truthy v then v else w.

(** [isinstance(v, int)], with the integer it stands for: [bool] is a
    subclass of [int] in Python, [True] is 1 and [False] is 0. *)
Definition isinstance_int (v : pyval) : option Z :=
  match v with
  | PInt n => Some n
  | PBool b => Some (Z.b2z b)
  | _ => None
  end.

Definition isinstance_str (v : pyval) : option string :=
  match v with
  | PStr s => Some s
  | _ => None
  end.

(** Truthiness of an optional string ([str | None]): [None] and [""] are false. *)
Definition truthy_str (o : option string) : bool :=
  match o with
  | Some s => negb (String.eqb s "")
  | None => false
  end.

(** *** Characters.  Strings are ASCII text here; Python's [str] methods on
    characters outside ASCII are outside the model. *)

Definition isdigit (c : ascii) : bool :=
  let n := N_of_ascii c in ((48 <=? n) && (n <=? 57))%N.

Definition isupper (c : ascii) : bool :=
  let n := N_of_ascii c in ((65 <=? n) && (n <=? 90))%N.

Definition islower (c : ascii) : bool :=
  let n := N_of_ascii c in ((97 <=? n) && (n <=? 122))%N.

(** [str.isspace] on ASCII: tab, newline, vertical tab, form feed, carriage
    return, the four separators 28..31 and the space. *)
Definition isspace (c : ascii) : bool :=
  let n := N_of_ascii c in
  (((9 <=? n) && (n <=? 13)) || ((28 <=? n) && (n <=? 32)))%N.

Definition lower_char (c : ascii) : ascii :=
  if isupper c then ascii_of_N (N_of_ascii c + 32) else c.

Definition upper_char (c : ascii) : ascii :=
  if islower c then ascii_of_N (N_of_ascii c - 32) else c.

Fixpoint map_string (f : ascii -> ascii) (s : string) : string :=
  match s with
  | EmptyString => EmptyString
  | String c s' => String (f c) (map_string f s')
  end.

(** [s.lower()]. *)
Definition lower (s : string) : string := map_string lower_char s.

(** ["".join(ch for ch in s if p(ch))]. *)
Fixpoint filter_string (p : ascii -> bool) (s : string) : string :=
  match s with
  | EmptyString => EmptyString
  | String c s' =>
      if p c then String c (filter_string p s') else filter_string p s'
  end.

(** [s.lstrip()], [s.rstrip()] and [s.strip()] with no argument. *)
Fixpoint lstrip (s : string) : string :=
  match s with
  | EmptyString => EmptyString
  | String c s' => if isspace c then lstrip s' else s
  end.

Fixpoint rstrip (s : string) : string :=
  match s with
  | EmptyString => EmptyString
  | String c s' =>
      match rstrip s' with
      | EmptyString => if isspace c then EmptyString else String c EmptyString
      | r => String c r
      end
  end.

Definition strip (s : string) : string := rstrip (lstrip s).

(** [s.startswith(p)]. *)
Definition startswith (s p : string) : bool := String.prefix p s.

(** [s.replace(c, r)] for a one-character pattern [c]. *)
Fixpoint replace_char (c : ascii) (r : string) (s : string) : string :=
  match s with
  | EmptyString => EmptyString
  | String x s' =>
      if Ascii.eqb x c then (r ++ replace_char c r s')%string
      else String x (replace_char c r s')
  end.

(** [s.title()] on ASCII: a letter that follows a non-letter is upper-cased,
    a letter that follows a letter is lower-cased. *)
Fixpoint title_from (after_letter : bool) (s : string) : string :=
  match s with
  | EmptyString => EmptyString
  | String c s' =>
      let letter := isupper c || islower c in
      String (if after_letter then lower_char c else upper_char c)
             (title_from letter s')
  end.

Definition title (s : string) : string := title_from false s.

(** [str(n)] for an integer. *)
Definition str_of_Z (n : Z) : string := NilZero.string_of_int (Z.to_int n).

(** [int(s)] for a string of ASCII digits. *)
Fixpoint int_of_digits_from (acc : Z) (s : string) : Z :=
  match s with
  | EmptyString => acc
  | String c s' =>
      int_of_digits_from (10 * acc + (Z.of_N (N_of_ascii c) - 48)) s'
  end.

Definition int_of_digits (s : string) : Z := int_of_digits_from 0 s.

(** [os.path.splitext(p)] (posixpath): the extension starts at the last dot
    of the last path component, unless that component has only leading
    dots before it. *)
Fixpoint rfind_from (c : ascii) (i : Z) (s : string) : Z :=
  match s with
  | EmptyString => -1
  | String x s' =>
      let r := rfind_from c (i + 1) s' in
      if 0 <=? r then r else if Ascii.eqb x c then i else -1
  end.

(** [s.rfind(c)]: the last index of [c], or -1. *)
Definition rfind (c : ascii) (s : string) : Z := rfind_from c 0 s.

Definition substring_Z (from len : Z) (s : string) : string :=
  String.substring (Z.to_nat from) (Z.to_nat len) s.

(** Is some character of [s] at an index in [from, to) different from [c]? *)
Definition some_other_char (c : ascii) (from to : Z) (s : string) : bool :=
  negb (String.eqb (filter_string (fun x => negb (Ascii.eqb x c))
                                  (substring_Z from (to - from) s)) "").

Definition splitext (p : string) : string * string :=
  let sepIndex := rfind "/"%char p in
  let dotIndex := rfind "."%char p in
  if (sepIndex <? dotIndex) && some_other_char "."%char (sepIndex + 1) dotIndex p
  then (substring_Z 0 dotIndex p,
        substring_Z dotIndex (Z.of_nat (String.length p) - dotIndex) p)
  else (p, "").

End Py.

(* ===================================================================== *)
(** ** app/utils/exception_handlers.py and the error monad *)
(* ===================================================================== *)

Module exception_handlers.
Import Py.

(** Modelled from the spec: app/utils/exception_handlers.py is not among the
    sources; only its two classes are used.  The spec (section 7) names two
    error kinds, each carrying a message and a structured details payload: a
    caller-input error, raised in the code as
    [InvalidDataException(message=..., details=...)], and a general error
    with an HTTP-style status code, raised as
    [AppError(message=..., status_code=..., details=...)].  They are
    application exceptions: nothing makes them a [ValueError] or an
    [AssertionError], the only exceptions a pydantic validator may raise to
    have them collected as field errors.  The Python built-in exceptions the
    modelled code can raise without catching them are listed after them. *)
Inductive Exception : Type :=
  | InvalidDataException (message : string) (details : list (string * pyval))
  | AppError (message : string) (status_code : Z)
             (details : list (string * pyval))
  | TypeError
  | AttributeError
  | ValueError (msg : string)
  | KeyError (key : string).

(** Modelled from the spec: the status a raised exception is served with;
    "400 for caller input problems" (section 4.3), the status an [AppError]
    carries, and 500 for an exception nothing handles. *)
Definition status_of (e : Exception) : Z :=
  match e with
  | InvalidDataException _ _ => 400
  | AppError _ status_code _ => status_code
  | _ => 500
  end.

Definition is_caller_input_error (e : Exception) : bool :=
  match e with
  | InvalidDataException _ _ => true
  | _ => false
  end.

(** The outcome of a call: a returned value or a raised exception. *)
Inductive result (A : Type) : Type :=
  | Return (a : A)
  | Raise (e : Exception).
Arguments Return {A} a.
Arguments Raise {A} e.

Definition is_Return {A} (r : result A) : bool :=
  match r with
  | Return _ => true
  | Raise _ => false
  end.

(** The value a call returned, [d] when it raised. *)
Definition value_or {A} (r : result A) (d : A) : A :=
  match r with
  | Return a => a
  | Raise _ => d
  end.

#[global] Instance result_ret : MRet result := fun A a => Return a.
#[global] Instance result_bind : MBind result := fun A B f m =>
  match m with
  | Return a => f a
  | Raise e => Raise e
  end.
#[global] Instance result_fmap : FMap result := fun A B f m =>
  match m with
  | Return a => Return (f a)
  | Raise e => Raise e
  end.

(** A call that also changes a state [S] (the object store, the database):
    the state is threaded explicitly and a raised exception keeps the state
    reached so far. *)
Definition stateful (S A : Type) : Type := S -> result A * S.

Definition st_ret {S A} (a : A) : stateful S A := fun s => (Return a, s).
Definition st_raise {S A} (e : Exception) : stateful S A :=
  fun s => (Raise e, s).
Definition st_bind {S A B} (m : stateful S A) (f : A -> stateful S B)
  : stateful S B :=
  fun s => match m s with
           | (Return a, s') => f a s'
           | (Raise e, s') => (Raise e, s')
           end.
(** A pure call that may raise, run in a stateful context. *)
Definition st_lift {S A} (r : result A) : stateful S A := fun s => (r, s).

Notation "x ⇐ m ; k" := (st_bind m (fun x => k))
  (at level 20, m at level 100, k at level 200, only parsing).

End exception_handlers.

(* ===================================================================== *)
(** ** app/utils/settings.py *)
(* ===================================================================== *)

Module settings.

(** The [Settings] dataclass. *)
Record Settings : Type := {
  supabase_url : string;
  supabase_key : string;
  digitalocean_access_key : string;
  digitalocean_secret_key : string;
  digitalocean_bucket : string;
  digitalocean_region : string;
  digitalocean_cdn_endpoint : string;
  digitalocean_origin_endpoint : string;
  supabase_bucket : string;
  digitalocean_upload_prefix : string;
  digitalocean_max_file_size_mb : Z;
  admin_token : option string;
  telegram_bot_token : option string;
  telegram_channel_id : option string
}.

(** *** [Settings.from_env] *)

(** [s.lstrip(c)], [s.rstrip(c)] and [s.strip(c)] for a one-character
    set [c]. *)
Fixpoint lstrip_char (c : ascii) (s : string) : string :=
  match s with
  | EmptyString => EmptyString
  | String x s' => if Ascii.eqb x c then lstrip_char c s' else s
  end.

Fixpoint rstrip_char (c : ascii) (s : string) : string :=
  match s with
  | EmptyString => EmptyString
  | String x s' =>
      match rstrip_char c s' with
      | EmptyString =>
          if Ascii.eqb x c then EmptyString else String x EmptyString
      | r => String x r
      end
  end.

Definition strip_char (c : ascii) (s : string) : string :=
  rstrip_char c (lstrip_char c s).

(** [a or b] on the results of [os.getenv]. *)
Definition or_env (a b : option string) : option string :=
  match a with
  | Some s => if String.eqb s "" then b else a
  | None => b
  end.

(** What [from_env] ends with: the settings, a [RuntimeError] with its
    message, or the [ValueError] of [int(...)]. *)
Inductive Startup : Type :=
  | Loaded (s : Settings)
  | RuntimeError (message : string)
  | IntValueError.

(** [if not value: raise RuntimeError(message)], then the rest with the
    value at hand. *)
Definition require (value : option string) (message : string)
    (rest : string -> Startup) : Startup :=
  match value with
  | Some s => if String.eqb s "" then RuntimeError message else rest s
  | None => RuntimeError message
  end.

Section from_env.

(** Python's [int(text)]: the integer, or [None] when it raises
    [ValueError].  The interpreter decides it. *)
Variable int_of_str : string -> option Z.

(** [Settings.from_env], [env] being [os.environ] once the [.env] file is
    loaded.  All variables are read, and the size is converted, before the
    first check. *)
Definition from_env (env : gmap string string) : Startup :=
  let supabase_url := env !! "SUPABASE_URL" in
  let supabase_key :=
    or_env (env !! "SUPABASE_SERVICE_ROLE_KEY") (env !! "SUPABASE_ANON_KEY") in
  let supabase_bucket := default "images" (env !! "SUPABASE_BUCKET") in
  let access_key := env !! "DIGITALOCEAN_ACCESS_KEY" in
  let secret_key := env !! "DIGITALOCEAN_SECRET_KEY" in
  let bucket := env !! "DIGITALOCEAN_BUCKET_NAME" in
  let region :=
    or_env (env !! "DIGITALOCEAN_REGION") (env !! "DIGITALOCEAN_REIGION") in
  let cdn_endpoint := env !! "DIGITALOCEAN_CDN" in
  let origin_endpoint :=
    or_env (env !! "DIGITALOCEAN_ORIGIN")
           (env !! "DIGITALOCEAN_ORIGIN_ENDPOINT") in
  let raw_upload_prefix :=
    strip_char "/"%char (default "" (env !! "DIGITALOCEAN_UPLOAD_PREFIX")) in
  let normalized_prefix := raw_upload_prefix in
  match int_of_str (default "5" (env !! "DIGITALOCEAN_MAX_FILE_SIZE_MB")) with
  | None => IntValueError
  | Some max_file_size_mb =>
  let admin_token := env !! "ADMIN_TOKEN" in
  let telegram_bot_token := env !! "TELEGRAM_BOT_TOKEN" in
  let telegram_channel_id := env !! "TELEGRAM_CHANNEL_ID" in
  require supabase_url "SUPABASE_URL is not set" (fun supabase_url =>
  require supabase_key
    "SUPABASE_SERVICE_ROLE_KEY or SUPABASE_ANON_KEY is not set"
    (fun supabase_key =>
  require access_key "DigitalOcean Spaces credentials are not set"
    (fun access_key =>
  require secret_key "DigitalOcean Spaces credentials are not set"
    (fun secret_key =>
  require bucket "DIGITALOCEAN_BUCKET_NAME is not set" (fun bucket =>
  require region "DIGITALOCEAN_REGION is not set" (fun region =>
  require cdn_endpoint "DIGITALOCEAN_CDN is not set" (fun cdn_endpoint =>
  let origin_endpoint :=
    match origin_endpoint with
    | Some origin => if String.eqb origin "" then None else Some origin
    | None => None
    end in
  let origin_endpoint :=
    match origin_endpoint with
    | Some origin => origin
    | None =>
        ("https://" ++ bucket ++ "." ++ region ++ ".digitaloceanspaces.com")
          %string
    end in
  Loaded {| supabase_url := supabase_url;
            supabase_key := supabase_key;
            supabase_bucket := supabase_bucket;
            digitalocean_access_key := access_key;
            digitalocean_secret_key := secret_key;
            digitalocean_bucket := bucket;
            digitalocean_region := region;
            digitalocean_cdn_endpoint := rstrip_char "/"%char cdn_endpoint;
            digitalocean_origin_endpoint :=
              rstrip_char "/"%char origin_endpoint;
            digitalocean_upload_prefix := normalized_prefix;
            digitalocean_max_file_size_mb := max_file_size_mb;
            admin_token := admin_token;
            telegram_bot_token := telegram_bot_token;
            telegram_channel_id := telegram_channel_id |})))))))
  end.

End from_env.

End settings.

(* ===================================================================== *)
(** ** app/utils/auth.py *)
(* ===================================================================== *)

Module auth.
Import Py exception_handlers settings.

(** [require_admin_token]: the dependency of every route under [/admin].
    [x_api_token] is the [x-api-token] header, [None] when it is absent. *)
Definition require_admin_token (settings : Settings)
    (x_api_token : option string) : result unit :=
  if negb (truthy_str (admin_token settings)) then
    Raise (AppError "Admin token not configured" 500
                    [("missing", PStr "ADMIN_TOKEN")])
  else if negb (truthy_str x_api_token)
          || bool_decide (x_api_token ≠ admin_token settings) then
    Raise (AppError "Unauthorized" 401
                    [("error", PStr "Invalid or missing x-api-token")])
  else Return tt.

End auth.

(* ===================================================================== *)
(** ** app/schemas/rescue_posts.py *)
(* ===================================================================== *)

Module rescue_posts.
Import Py exception_handlers.

(** [len(s)]. *)
Definition len (s : string) : Z := Z.of_nat (String.length s).

(** [field_name.replace('_', ' ').title()]. *)
Definition field_title (field_name : string) : string :=
  title (replace_char "_"%char " " field_name).

Definition _validate_phone (number field_name : string) : result string :=
  let digits := filter_string isdigit number in
  if (len digits <? 7) || (15 <? len digits) then
    Raise (InvalidDataException
             (field_title field_name ++ " must have 7-15 digits")%string
             [("field", PStr field_name)])
  else Return digits.

Definition has_http_scheme (stripped : string) : bool :=
  startswith stripped "http://" || startswith stripped "https://".

(** The loop of [_validate_urls], [cleaned] being the list built so far. *)
Fixpoint _validate_urls_loop (urls cleaned : list string)
  : result (list string) :=
  match urls with
  | [] => Return cleaned
  | url :: urls' =>
      let stripped := strip url in
      if String.eqb stripped "" then _validate_urls_loop urls' cleaned
      else if negb (has_http_scheme stripped) then
        Raise (InvalidDataException
                 "Image URLs must start with http:// or https://"
                 [("field", PStr "image_urls"); ("value", PStr url)])
      else _validate_urls_loop urls' (cleaned ++ [stripped])
  end.

Definition _validate_urls (urls : list string) : result (list string) :=
  cleaned ← _validate_urls_loop urls [];
  match cleaned with
  | [] =>
      Raise (InvalidDataException
               "At least one image URL is required when images are provided"
               [("field", PStr "image_urls")])
  | _ => Return cleaned
  end.

Definition _validate_url (url field_name : string) : result string :=
  let stripped := strip url in
  if String.eqb stripped "" then
    Raise (InvalidDataException
             (field_title field_name ++ " is required")%string
             [("field", PStr field_name)])
  else if negb (has_http_scheme stripped) then
    Raise (InvalidDataException
             (field_title field_name
                ++ " must start with http:// or https://")%string
             [("field", PStr field_name); ("value", PStr url)])
  else Return stripped.

(** The [field_validator]s of [RescuePostCreate]. *)
Definition validate_primary_phone (value : string) : result string :=
  _validate_phone value "phone_number".

Definition validate_alt_phone (value : string) : result string :=
  _validate_phone value "alt_phone_number".

Definition validate_image_urls (value : list string) : result (list string) :=
  _validate_urls value.

Definition validate_priority_level (value : string) : result string :=
  let normalized := lower (strip value) in
  if negb (bool_decide (normalized ∈ ["high"; "medium"; "low"])) then
    Raise (InvalidDataException
             "Priority level must be one of high, medium, or low"
             [("field", PStr "priority_level"); ("value", PStr value)])
  else Return normalized.

Definition validate_location_url (value : string) : result string :=
  _validate_url value "location_url".

(** *** The pydantic model.

    The payload [validate_with_app_error] receives is the dictionary the
    route builds from its typed form parameters, with the [None] values
    dropped: every key holds a value of the field's declared type or is
    absent ([None] below). *)
Record Payload : Type := {
  full_name : option string;
  phone_number : option string;
  alt_phone_number : option string;
  location : option string;
  land_mark : option string;
  district : option string;
  emergency_type : option string;
  priority_level : option string;
  number_of_peoples_to_rescue : option Z;
  is_medical_needed : option bool;
  water_level : option string;
  safe_hours : option Z;
  need_foods : option bool;
  need_water : option bool;
  need_transport : option bool;
  need_medic : option bool;
  need_power : option bool;
  need_clothes : option bool;
  description : option string;
  location_url : option string;
  image_urls : option (list string)
}.

(** One entry of pydantic's [ValidationError.errors()]: the error type with
    its context. *)
Inductive ErrorType : Type :=
  | missing
  | string_too_short (min_length : Z)
  | string_too_long (max_length : Z)
  | greater_than_equal (ge : Z)
  | less_than_equal (le : Z)
  | value_error (error : string).

Record ErrorDetails : Type := {
  loc : list string;
  type : ErrorType
}.

Definition plural (n : Z) : string := if n =? 1 then "" else "s".

(** The [msg] pydantic gives an error. *)
Definition msg (t : ErrorType) : string :=
  match t with
  | missing => "Field required"
  | string_too_short n =>
      "String should have at least " ++ str_of_Z n ++ " character" ++ plural n
  | string_too_long n =>
      "String should have at most " ++ str_of_Z n ++ " character" ++ plural n
  | greater_than_equal n =>
      "Input should be greater than or equal to " ++ str_of_Z n
  | less_than_equal n =>
      "Input should be less than or equal to " ++ str_of_Z n
  | value_error e => "Value error, " ++ e
  end%string.

(** What validating one field yields: the validated value, an error that
    pydantic collects, or an exception that leaves the validation. *)
Inductive Outcome : Type :=
  | Valid (v : pyval)
  | Invalid (e : ErrorType)
  | Raised (x : Exception).

(** An "after" field validator runs on a value that passed the declared
    constraints.  pydantic turns a [ValueError] it raises into a field
    error; any other exception propagates out of [model_validate]. *)
Definition run_validator {A} (wrap : A -> pyval) (r : result A) : Outcome :=
  match r with
  | Return a => Valid (wrap a)
  | Raise (ValueError e) => Invalid (value_error e)
  | Raise x => Raised x
  end.

(** The first of two checks that fails. *)
Definition first_error (a b : option ErrorType) : option ErrorType :=
  match a with
  | Some e => Some e
  | None => b
  end.

(** [Field(..., min_length=, max_length=)] on a string. *)
Definition str_constraints (min_length max_length : option Z) (s : string)
  : option ErrorType :=
  first_error
    match min_length with
    | Some n => if len s <? n then Some (string_too_short n) else None
    | None => None
    end
    match max_length with
    | Some n => if n <? len s then Some (string_too_long n) else None
    | None => None
    end.

(** [Field(None, ge=, le=)] on an integer. *)
Definition int_constraints (ge le : option Z) (n : Z) : option ErrorType :=
  first_error
    match le with
    | Some m => if m <? n then Some (less_than_equal m) else None
    | None => None
    end
    match ge with
    | Some m => if n <? m then Some (greater_than_equal m) else None
    | None => None
    end.

(** A string field: [default_value] is [None] for a required field
    ([...]).  A default is taken as it is, without running the validator. *)
Definition str_field (input : option string) (default_value : option pyval)
    (min_length max_length : option Z)
    (after : option (string -> result string)) : Outcome :=
  match input with
  | None =>
      match default_value with
      | Some d => Valid d
      | None => Invalid missing
      end
  | Some s =>
      match str_constraints min_length max_length s with
      | Some e => Invalid e
      | None =>
          match after with
          | Some f => run_validator PStr (f s)
          | None => Valid (PStr s)
          end
      end
  end.

Definition int_field (input : option Z) (ge le : option Z) : Outcome :=
  match input with
  | None => Valid PNone
  | Some n =>
      match int_constraints ge le n with
      | Some e => Invalid e
      | None => Valid (PInt n)
      end
  end.

Definition bool_field (input : option bool) (default_value : bool)
  : Outcome :=
  match input with
  | None => Valid (PBool default_value)
  | Some b => Valid (PBool b)
  end.

Definition str_list_field (input : option (list string))
    (after : list string -> result (list string)) : Outcome :=
  match input with
  | None => Valid PNone
  | Some l => run_validator (fun l' => PList (PStr <$> l')) (after l)
  end.

Definition required : option pyval := None.
Definition optional : option pyval := Some PNone.

(** The fields of [RescuePostCreate] in the order the class declares them,
    each validated against the payload. *)
Definition model_fields (data : Payload) : list (string * Outcome) :=
  [ ("full_name",
      str_field (full_name data) required (Some 3) (Some 150) None);
    ("phone_number",
      str_field (phone_number data) required (Some 7) (Some 20)
                (Some validate_primary_phone));
    ("alt_phone_number",
      str_field (alt_phone_number data) optional (Some 7) (Some 20)
                (Some validate_alt_phone));
    ("location",
      str_field (location data) required (Some 3) (Some 255) None);
    ("land_mark",
      str_field (land_mark data) optional None (Some 255) None);
    ("district",
      str_field (district data) optional None (Some 100) None);
    ("emergency_type",
      str_field (emergency_type data) required (Some 3) (Some 100) None);
    ("priority_level",
      str_field (priority_level data) required (Some 3) (Some 20)
                (Some validate_priority_level));
    ("number_of_peoples_to_rescue",
      int_field (number_of_peoples_to_rescue data) (Some 1) (Some 10000));
    ("is_medical_needed", bool_field (is_medical_needed data) false);
    ("water_level",
      str_field (water_level data) optional None (Some 50) None);
    ("safe_hours", int_field (safe_hours data) (Some 0) (Some 1000));
    ("need_foods", bool_field (need_foods data) false);
    ("need_water", bool_field (need_water data) false);
    ("need_transport", bool_field (need_transport data) false);
    ("need_medic", bool_field (need_medic data) false);
    ("need_power", bool_field (need_power data) false);
    ("need_clothes", bool_field (need_clothes data) false);
    ("description",
      str_field (description data) optional None (Some 2000) None);
    ("location_url",
      str_field (location_url data) required (Some 5) (Some 2048)
                (Some validate_location_url));
    ("image_urls", str_list_field (image_urls data) validate_image_urls) ].

(** What [model_validate] yields: the validated model (its fields as a
    dictionary), a [ValidationError] with the collected errors, or the
    exception a validator let through. *)
Inductive Validation : Type :=
  | Model (values : gmap string pyval)
  | ValidationError (errors : list ErrorDetails)
  | Propagated (x : Exception).

(** pydantic's loop over the fields: a field error is collected and the
    loop goes on; an exception ends it at once. *)
Fixpoint validate_fields (fields : list (string * Outcome))
    (values : gmap string pyval) (errors : list ErrorDetails) : Validation :=
  match fields with
  | [] =>
      match errors with
      | [] => Model values
      | _ => ValidationError errors
      end
  | (name, outcome) :: fields' =>
      match outcome with
      | Valid v => validate_fields fields' (<[name := v]> values) errors
      | Invalid e =>
          validate_fields fields' values
                          (errors ++ [{| loc := [name]; type := e |}])
      | Raised x => Propagated x
      end
  end.

Definition model_validate (data : Payload) : Validation :=
  validate_fields (model_fields data) ∅ [].

Definition _friendly_message (err : ErrorDetails) : string :=
  match type err with
  | string_too_short n =>
      "Must be at least " ++ str_of_Z n ++ " characters long"
  | string_too_long n =>
      "Must be at most " ++ str_of_Z n ++ " characters long"
  | greater_than_equal n => "Must be greater than or equal to " ++ str_of_Z n
  | less_than_equal n => "Must be less than or equal to " ++ str_of_Z n
  | t => msg t
  end%string.

(** ["."join(parts)]. *)
Fixpoint join_dot (parts : list string) : string :=
  match parts with
  | [] => ""
  | [part] => part
  | part :: parts' => (part ++ "." ++ join_dot parts')%string
  end.

(** The {field, message} pairs of [_format_pydantic_errors]. *)
Definition format_error (err : ErrorDetails) : string * string :=
  let loc_parts :=
    filter (fun part => part ≠ "__root__") (loc err) in
  let field :=
    match loc_parts with
    | [] => "unknown"
    | _ => join_dot loc_parts
    end in
  (field, _friendly_message err).

Definition formatted_dict (fm : string * string) : pyval :=
  PDict (<["field" := PStr (fst fm)]> (<["message" := PStr (snd fm)]> ∅)).

Definition _format_pydantic_errors (errors : list ErrorDetails)
  : list pyval :=
  formatted_dict ∘ format_error <$> errors.

(** [RescuePostCreate.validate_with_app_error]. *)
Definition validate_with_app_error (data : Payload)
  : result (gmap string pyval) :=
  match model_validate data with
  | Model values => Return values
  | ValidationError errors =>
      let formatted_errors := _format_pydantic_errors errors in
      Raise (InvalidDataException "Invalid rescue post data"
                                  [("errors", PList formatted_errors)])
  | Propagated x => Raise x
  end.

End rescue_posts.

(* ===================================================================== *)
(** ** The database client (supabase / postgrest) *)
(* ===================================================================== *)

Module supabase.
Import Py.

(** A row of a table, as the client returns it: a dictionary from column
    names to values. *)
Abbreviation row := (gmap string pyval).

(** A filter of the query builder: [.eq(column, value)],
    [.gte(column, value)], [.lte(column, value)]. *)
Inductive Filter : Type :=
  | Eq (column : string) (value : pyval)
  | Gte (column : string) (value : pyval)
  | Lte (column : string) (value : pyval).

Inductive Verb : Type :=
  | Select (columns : string)
  | Insert (rows : list row)
  | Update (values : row)
  | Delete.

(** A query under construction: [supabase.table(t).select(...)], then
    filters and an ordering chained on it. *)
Record Query : Type := {
  table : string;
  verb : Verb;
  filters : list Filter;
  ordering : option (string * bool)
}.

Definition from_table (t : string) (v : Verb) : Query :=
  {| table := t; verb := v; filters := []; ordering := None |}.

Definition add_filter (f : Filter) (q : Query) : Query :=
  {| table := table q; verb := verb q; filters := filters q ++ [f];
     ordering := ordering q |}.

Definition eq (column : string) (value : pyval) (q : Query) : Query :=
  add_filter (Eq column value) q.
Definition gte (column : string) (value : pyval) (q : Query) : Query :=
  add_filter (Gte column value) q.
Definition lte (column : string) (value : pyval) (q : Query) : Query :=
  add_filter (Lte column value) q.

Definition order (column : string) (desc : bool) (q : Query) : Query :=
  {| table := table q; verb := verb q; filters := filters q;
     ordering := Some (column, desc) |}.

(** The client: the tables it reaches, the requests executed through it so
    far, and the behaviour of the service behind it that the code does not
    decide: whether a request fails with an [APIError] (and its text), how
    the database orders rows on a column, and the columns the database fills
    in for the [n]-th row of a table (id, creation timestamp, defaults). *)
Record Client : Type := {
  tables : gmap string (list row);
  requests : list Query;
  api_error : Query -> gmap string (list row) -> option string;
  order_rows : string -> bool -> list row -> list row;
  server_columns : string -> nat -> row
}.

(** The client after request [q], with the tables it leaves. *)
Definition after_request (c : Client) (q : Query)
    (t : gmap string (list row)) : Client :=
  {| tables := t; requests := requests c ++ [q];
     api_error := api_error c; order_rows := order_rows c;
     server_columns := server_columns c |}.

(** [.execute()] either raises [APIError] or returns a response with its
    [data]. *)
Inductive Executed : Type :=
  | APIError (text : string)
  | Response (data : list row).

(** Comparison of a cell with a filter value of the same type; a null cell
    (or a missing column) satisfies no filter. *)
Definition cell_eq (cell value : pyval) : bool :=
  match cell, value with
  | PStr a, PStr b => String.eqb a b
  | PInt a, PInt b => a =? b
  | PBool a, PBool b => Bool.eqb a b
  | _, _ => false
  end.

Definition cell_gte (cell value : pyval) : bool :=
  match cell, value with
  | PInt a, PInt b => b <=? a
  | _, _ => false
  end.

Definition cell_lte (cell value : pyval) : bool :=
  match cell, value with
  | PInt a, PInt b => a <=? b
  | _, _ => false
  end.

Definition satisfies (r : row) (f : Filter) : bool :=
  match f with
  | Eq column value => cell_eq (get r column) value
  | Gte column value => cell_gte (get r column) value
  | Lte column value => cell_lte (get r column) value
  end.

(** Chained filters are a conjunction. *)
Definition matches (fs : list Filter) (r : row) : bool :=
  forallb (satisfies r) fs.

Definition rows_of (t : gmap string (list row)) (name : string) : list row :=
  default [] (t !! name).

(** The embedded resource of [select("*, images(*)")]: the rows of [images]
    whose [post_id] is the post's [id], under the key ["images"]. *)
Definition embed_images (t : gmap string (list row)) (r : row) : row :=
  <["images" :=
      PList (PDict <$> filter (fun img => cell_eq (get img "post_id")
                                                  (get r "id") = true)
                              (rows_of t "images"))]> r.

Definition project (columns : string) (t : gmap string (list row)) (r : row)
  : row :=
  if String.eqb columns "*, images(*)" then embed_images t r
  else if String.eqb columns "*" then r
  else filter (fun kv => fst kv = columns) r.

(** What a request that does not fail returns and leaves in the tables. *)
Definition perform (c : Client) (q : Query)
  : list row * gmap string (list row) :=
  let t := tables c in
  let rows := rows_of t (table q) in
  match verb q with
  | Select columns =>
      let found := filter (fun r => matches (filters q) r = true) rows in
      let ordered :=
        match ordering q with
        | Some (column, desc) => order_rows c column desc found
        | None => found
        end in
      (project columns t <$> ordered, t)
  | Insert new =>
      let stored :=
        imap (fun i r => r ∪ server_columns c (table q) (length rows + i)%nat)
             new in
      (stored, <[table q := (rows ++ stored)%list]> t)
  | Update values =>
      let updated r := if matches (filters q) r then values ∪ r else r in
      (updated <$> filter (fun r => matches (filters q) r = true) rows,
       <[table q := updated <$> rows]> t)
  | Delete =>
      (filter (fun r => matches (filters q) r = true) rows,
       <[table q := filter (fun r => matches (filters q) r = false) rows]> t)
  end.

Definition execute (q : Query) (c : Client) : Executed * Client :=
  match api_error c q (tables c) with
  | Some text => (APIError text, after_request c q (tables c))
  | None =>
      let '(data, t) := perform c q in
      (Response data, after_request c q t)
  end.

End supabase.

(* ===================================================================== *)
(** ** app/repositories/posts_repository.py *)
(* ===================================================================== *)

Module posts_repository.
Import Py exception_handlers supabase.

Definition insert_rescue_post (payload : row) : stateful Client row :=
  fun supabase =>
  match execute (from_table "rescue_posts" (Insert [payload])) supabase with
  | (APIError exc, supabase) =>
      (Raise (AppError "Failed to save rescue post" 500
                       [("error", PStr exc)]), supabase)
  | (Response data, supabase) =>
      match data with
      | [] =>
          (Raise (AppError "Failed to save rescue post" 500
                           [("error", PStr "No data returned from insert")]),
           supabase)
      | first :: _ => (Return first, supabase)
      end
  end.

Definition insert_images (images_payload : list row)
  : stateful Client (list row) :=
  fun supabase =>
  match images_payload with
  | [] => (Return [], supabase)
  | _ =>
      match execute (from_table "images" (Insert images_payload)) supabase with
      | (APIError exc, supabase) =>
          (Raise (AppError "Failed to save images" 500
                           [("error", PStr exc)]), supabase)
      | (Response data, supabase) =>
          match data with
          | [] =>
              (Raise (AppError "Failed to save images" 500
                        [("error", PStr "No data returned from insert")]),
               supabase)
          | _ => (Return data, supabase)
          end
      end
  end.

Definition fetch_rescue_posts_with_images : stateful Client (list row) :=
  fun supabase =>
  match execute (order "created_at" true
                   (from_table "rescue_posts" (Select "*, images(*)")))
                supabase with
  | (APIError exc, supabase) =>
      (Raise (AppError "Failed to fetch rescue posts" 500
                       [("error", PStr exc)]), supabase)
  | (Response data, supabase) => (Return data, supabase)
  end.

(** One turn of the loop of [fetch_rescue_posts_filtered] over
    [filters.items()]. *)
Definition add_filter_item (query : Query) (item : string * pyval) : Query :=
  let '(field, value) := item in
  match value with
  | PNone => query
  | _ =>
      if String.eqb field "min_people" then
        gte "number_of_peoples_to_rescue" value query
      else if String.eqb field "max_safe_hours" then
        lte "safe_hours" value query
      else eq field value query
  end.

Definition fetch_rescue_posts_filtered (filters : list (string * pyval))
  : stateful Client (list row) :=
  fun supabase =>
  let query := from_table "rescue_posts" (Select "*, images(*)") in
  let query := foldl add_filter_item query filters in
  match execute (order "created_at" true query) supabase with
  | (APIError exc, supabase) =>
      (Raise (AppError "Failed to fetch rescue posts" 500
                       [("error", PStr exc);
                        ("filters", PDict (list_to_map filters))]), supabase)
  | (Response data, supabase) => (Return data, supabase)
  end.

Definition fetch_unverified_posts : stateful Client (list row) :=
  fun supabase =>
  match execute (order "created_at" true
                   (eq "is_verified" (PBool false)
                       (from_table "rescue_posts" (Select "*, images(*)"))))
                supabase with
  | (APIError exc, supabase) =>
      (Raise (AppError "Failed to fetch rescue posts" 500
                       [("error", PStr exc)]), supabase)
  | (Response data, supabase) => (Return data, supabase)
  end.

Definition verify_rescue_post (post_id : string) : stateful Client row :=
  fun supabase =>
  match execute (eq "id" (PStr post_id)
                    (from_table "rescue_posts"
                                (Update {["is_verified" := PBool true]})))
                supabase with
  | (APIError exc, supabase) =>
      (Raise (AppError "Failed to verify rescue post" 500
                       [("error", PStr exc); ("post_id", PStr post_id)]),
       supabase)
  | (Response data, supabase) =>
      match data with
      | [] =>
          (Raise (AppError "Rescue post not found" 404
                           [("post_id", PStr post_id)]), supabase)
      | first :: _ => (Return first, supabase)
      end
  end.

Definition delete_rescue_post (post_id : string) : stateful Client unit :=
  fun supabase =>
  match execute (eq "id" (PStr post_id) (from_table "rescue_posts" Delete))
                supabase with
  | (APIError exc, supabase) =>
      (Raise (AppError "Failed to delete rescue post" 500
                       [("error", PStr exc); ("post_id", PStr post_id)]),
       supabase)
  | (Response data, supabase) =>
      match data with
      | [] =>
          (Raise (AppError "Rescue post not found" 404
                           [("post_id", PStr post_id)]), supabase)
      | _ => (Return tt, supabase)
      end
  end.

Definition fetch_rescue_posts_by_emergency_type (emergency_type : string)
  : stateful Client (list row) :=
  fun supabase =>
  match execute (order "created_at" true
                   (eq "emergency_type" (PStr emergency_type)
                       (from_table "rescue_posts" (Select "*, images(*)"))))
                supabase with
  | (APIError exc, supabase) =>
      (Raise (AppError "Failed to fetch rescue posts" 500
                       [("error", PStr exc);
                        ("emergency_type", PStr emergency_type)]), supabase)
  | (Response data, supabase) => (Return data, supabase)
  end.

Definition fetch_rescue_posts_by_district (district : string)
  : stateful Client (list row) :=
  fun supabase =>
  match execute (order "created_at" true
                   (eq "district" (PStr district)
                       (from_table "rescue_posts" (Select "*, images(*)"))))
                supabase with
  | (APIError exc, supabase) =>
      (Raise (AppError "Failed to fetch rescue posts" 500
                       [("error", PStr exc); ("district", PStr district)]),
       supabase)
  | (Response data, supabase) => (Return data, supabase)
  end.

Definition fetch_rescue_posts_by_water_level (water_level : string)
  : stateful Client (list row) :=
  fun supabase =>
  match execute (order "created_at" true
                   (eq "water_level" (PStr water_level)
                       (from_table "rescue_posts" (Select "*, images(*)"))))
                supabase with
  | (APIError exc, supabase) =>
      (Raise (AppError "Failed to fetch rescue posts" 500
                       [("error", PStr exc);
                        ("water_level", PStr water_level)]), supabase)
  | (Response data, supabase) => (Return data, supabase)
  end.

(** [select("id", count="exact") ... .execute().count or 0]: the number of
    rows the request matches.  The client is modelled without a row limit,
    so the count is the number of rows in the response. *)
Definition count_exact (q : Query) (supabase : Client)
  : (string + Z) * Client :=
  match execute q supabase with
  | (APIError exc, supabase) => (inl exc, supabase)
  | (Response data, supabase) => (inr (Z.of_nat (length data)), supabase)
  end.

(** The inner function [count_for] of [fetch_priority_counts]. *)
Definition count_for (level : string) : Client -> (string + Z) * Client :=
  count_exact (eq "priority_level" (PStr level)
                  (from_table "rescue_posts" (Select "id"))).

Definition stats_failed (exc : string) : Exception :=
  AppError "Failed to fetch post stats" 500 [("error", PStr exc)].

(** [fetch_priority_counts]: four requests in the order the dictionary
    literal evaluates them; an [APIError] of any of them ends the call. *)
Definition fetch_priority_counts : stateful Client (gmap string Z) :=
  fun supabase =>
  match count_exact (from_table "rescue_posts" (Select "id")) supabase with
  | (inl exc, supabase) => (Raise (stats_failed exc), supabase)
  | (inr total, supabase) =>
  match count_for "high" supabase with
  | (inl exc, supabase) => (Raise (stats_failed exc), supabase)
  | (inr high, supabase) =>
  match count_for "medium" supabase with
  | (inl exc, supabase) => (Raise (stats_failed exc), supabase)
  | (inr medium, supabase) =>
  match count_for "low" supabase with
  | (inl exc, supabase) => (Raise (stats_failed exc), supabase)
  | (inr low, supabase) =>
      (Return (<["total_posts" := total]>
                 (<["high_priority_posts" := high]>
                    (<["medium_priority_posts" := medium]>
                       (<["low_priority_posts" := low]> ∅)))),
       supabase)
  end end end end.

End posts_repository.

(* ===================================================================== *)
(** ** app/utils/spaces_client.py: the object store *)
(* ===================================================================== *)

Module spaces_client.

(** The arguments of one [put_object] call. *)
Record PutObject : Type := {
  Bucket : string;
  Key : string;
  Body : list byte;
  ContentType : string;
  ACL : string
}.

(** The boto3 client: the objects written through it so far, and whether
    the store refuses a write ([BotoCoreError] or [ClientError]), which the
    code does not decide. *)
Record Spaces : Type := {
  objects : list PutObject;
  put_error : PutObject -> list PutObject -> bool
}.

(** [spaces_client.put_object(...)]: [false] when it raises. *)
Definition put_object (o : PutObject) (s : Spaces) : bool * Spaces :=
  if put_error s o (objects s) then (false, s)
  else (true, {| objects := objects s ++ [o]; put_error := put_error s |}).

End spaces_client.

(* ===================================================================== *)
(** ** app/services/posts_service.py *)
(* ===================================================================== *)

Module posts_service.
Import Py exception_handlers settings supabase spaces_client.
Import rescue_posts posts_repository.

(** An uploaded file ([fastapi.UploadFile]): its declared name and content
    type, and the bytes [await upload.read()] returns. *)
Record UploadFile : Type := {
  filename : option string;
  content_type : option string;
  content : list byte
}.

(** What a request works on: the object store, the database client, and the
    two library calls whose results the code does not decide:
    [mimetypes.guess_type(name)[0]] and the successive values of
    [uuid4().int]. *)
Record World : Type := {
  spaces : Spaces;
  supabase_client : Client;
  guess_type : string -> option string;
  uuid4 : nat -> N;
  uuids_drawn : nat
}.

Definition with_spaces (w : World) (s : Spaces) : World :=
  {| spaces := s; supabase_client := supabase_client w;
     guess_type := guess_type w; uuid4 := uuid4 w;
     uuids_drawn := uuids_drawn w |}.

Definition with_supabase (w : World) (c : Client) : World :=
  {| spaces := spaces w; supabase_client := c;
     guess_type := guess_type w; uuid4 := uuid4 w;
     uuids_drawn := uuids_drawn w |}.

(** A repository call, run on the world's database client. *)
Definition on_supabase {A} (m : stateful Client A) : stateful World A :=
  fun w => let '(r, c) := m (supabase_client w) in (r, with_supabase w c).

Definition hex_digit (d : N) : ascii :=
  if (d <? 10)%N then ascii_of_N (48 + d) else ascii_of_N (87 + d).

Fixpoint hex_from (width : nat) (n : N) : string :=
  match width with
  | O => ""
  | S w => String (hex_digit ((n / 16 ^ N.of_nat w) mod 16)%N) (hex_from w n)
  end.

(** [UUID.hex]: the 128-bit value as 32 lower-case hexadecimal digits. *)
Definition hex (n : N) : string := hex_from 32 n.

(** [uuid4().hex]: draws the next value. *)
Definition uuid4_hex : stateful World string :=
  fun w =>
  (Return (hex (uuid4 w (uuids_drawn w))),
   {| spaces := spaces w; supabase_client := supabase_client w;
      guess_type := guess_type w; uuid4 := uuid4 w;
      uuids_drawn := S (uuids_drawn w) |}).

(** [len(content)]. *)
Definition len_bytes (content : list byte) : Z := Z.of_nat (length content).

Definition images_field : list (string * pyval) := [("field", PStr "images")].

Definition images_file (name : string) : list (string * pyval) :=
  [("field", PStr "images"); ("filename", PStr name)].

(** The body of the [for upload in files] loop of
    [upload_images_to_spaces]: the CDN URL of the file written. *)
Definition upload_image (settings : Settings) (upload : UploadFile)
  : stateful World string :=
  let max_bytes := digitalocean_max_file_size_mb settings * 1024 * 1024 in
  match filename upload with
  | None =>
      st_raise (InvalidDataException "Image file must have a filename"
                                     images_field)
  | Some name =>
  if String.eqb name "" then
    st_raise (InvalidDataException "Image file must have a filename"
                                   images_field)
  else fun w =>
  let content_type :=
    if truthy_str (content_type upload) then content_type upload
    else guess_type w name in
  match content_type with
  | None =>
      (Raise (InvalidDataException "Only image uploads are allowed"
                                   (images_file name)), w)
  | Some ctype =>
  if String.eqb ctype "" || negb (startswith ctype "image/") then
    (Raise (InvalidDataException "Only image uploads are allowed"
                                 (images_file name)), w)
  else
  let body := content upload in
  match body with
  | [] =>
      (Raise (InvalidDataException "Image file is empty" (images_file name)),
       w)
  | _ =>
  if max_bytes <? len_bytes body then
    (Raise (InvalidDataException
              ("Image file exceeds "
                 ++ str_of_Z (digitalocean_max_file_size_mb settings)
                 ++ "MB")%string
              (images_file name)), w)
  else
  let ext := snd (splitext name) in
  (object_name ⇐ (h ⇐ uuid4_hex; st_ret (h ++ ext)%string);
   let key :=
     if negb (String.eqb (digitalocean_upload_prefix settings) "")
     then (digitalocean_upload_prefix settings ++ "/" ++ object_name)%string
     else object_name in
   fun w =>
   match put_object {| Bucket := digitalocean_bucket settings;
                       Key := key;
                       Body := body;
                       ContentType := ctype;
                       ACL := "public-read" |} (spaces w) with
   | (false, s) =>
       (Raise (AppError "Failed to upload image" 500
                        [("filename", PStr name)]), with_spaces w s)
   | (true, s) =>
       (Return (digitalocean_cdn_endpoint settings
                  ++ "/projectrakawarananew/" ++ key)%string,
        with_spaces w s)
   end) w
  end
  end
  end.

(** The loop itself, [cdn_urls] being the list built so far. *)
Fixpoint upload_loop (settings : Settings) (files : list UploadFile)
    (cdn_urls : list string) : stateful World (list string) :=
  match files with
  | [] => st_ret cdn_urls
  | upload :: files' =>
      url ⇐ upload_image settings upload;
      upload_loop settings files' (cdn_urls ++ [url])
  end.

Definition upload_images_to_spaces (files : list UploadFile)
    (settings : Settings) : stateful World (list string) :=
  match files with
  | [] =>
      st_raise (InvalidDataException "At least one image file is required"
                                     images_field)
  | _ => upload_loop settings files []
  end.

(** [int(v)] where the code applies it: to the digit string a phone
    validator returned.  Strings that are not plain decimal digits do not
    reach it. *)
Definition py_int (v : pyval) : result pyval :=
  match v with
  | PStr s =>
      if negb (String.eqb s "") && String.eqb (filter_string isdigit s) s
      then Return (PInt (int_of_digits s))
      else Raise (ValueError "invalid literal for int() with base 10")
  | PInt n => Return (PInt n)
  | PBool b => Return (PInt (Z.b2z b))
  | _ => Raise TypeError
  end.

(** [d[k]]. *)
Definition getitem (d : row) (k : string) : result pyval :=
  match d !! k with
  | Some v => Return v
  | None => Raise (KeyError k)
  end.

(** The dictionary handed to [insert_rescue_post]: the validated model
    without [image_urls], the phone numbers converted with [int]. *)
Definition post_payload_of (validated : row) : result row :=
  let post_payload := delete "image_urls" validated in
  phone ← py_int (get validated "phone_number");
  let post_payload := <["phone_number" := phone]> post_payload in
  match get validated "alt_phone_number" with
  | PNone => Return post_payload
  | alt =>
      alt_phone ← py_int alt;
      Return (<["alt_phone_number" := alt_phone]> post_payload)
  end.

Definition image_payload (post_record : row) (url : string) : result row :=
  post_id ← getitem post_record "id";
  Return (<["image_url" := PStr url]> (<["post_id" := post_id]> ∅)).

(** [create_rescue_post_with_images].  [settings] is the cached
    [get_settings()].  The Telegram notification that follows the two
    inserts is best effort: it catches every exception, returns nothing and
    changes neither the store nor the database, so it has no part here. *)
Definition create_rescue_post_with_images (settings : Settings)
    (payload : Payload) (files : list UploadFile)
  : stateful World (row * list row) :=
  validated ⇐ st_lift (validate_with_app_error payload);
  image_urls ⇐ upload_images_to_spaces files settings;
  post_payload ⇐ st_lift (post_payload_of validated);
  post_record ⇐ on_supabase (insert_rescue_post post_payload);
  images_payload ⇐ st_lift (mapM (image_payload post_record) image_urls);
  image_records ⇐ on_supabase (insert_images images_payload);
  st_ret (post_record, image_records).

Definition list_rescue_posts_with_images : stateful Client (list row) :=
  fetch_rescue_posts_with_images.

Definition of_str (o : option string) : pyval :=
  match o with Some s => PStr s | None => PNone end.
Definition of_bool (o : option bool) : pyval :=
  match o with Some b => PBool b | None => PNone end.
Definition of_int (o : option Z) : pyval :=
  match o with Some n => PInt n | None => PNone end.

Definition is_None (v : pyval) : bool :=
  match v with PNone => true | _ => false end.

(** The query parameters of [list_rescue_posts_filtered], each [None] when
    the request does not give it. *)
Record FilterParams : Type := {
  district : option string;
  emergency_type : option string;
  water_level : option string;
  is_medical_needed : option bool;
  need_foods : option bool;
  need_water : option bool;
  need_transport : option bool;
  need_medic : option bool;
  need_power : option bool;
  need_clothes : option bool;
  is_verified : option bool;
  min_people : option Z;
  max_safe_hours : option Z
}.

(** The [filters] dictionary, in the order its literal lists the keys. *)
Definition filters_of (p : FilterParams) : list (string * pyval) :=
  [ ("district", of_str (district p));
    ("emergency_type", of_str (emergency_type p));
    ("water_level", of_str (water_level p));
    ("is_medical_needed", of_bool (is_medical_needed p));
    ("need_foods", of_bool (need_foods p));
    ("need_water", of_bool (need_water p));
    ("need_transport", of_bool (need_transport p));
    ("need_medic", of_bool (need_medic p));
    ("need_power", of_bool (need_power p));
    ("need_clothes", of_bool (need_clothes p));
    ("is_verified", of_bool (is_verified p));
    ("min_people", of_int (min_people p));
    ("max_safe_hours", of_int (max_safe_hours p)) ].

Definition list_rescue_posts_filtered (p : FilterParams)
  : stateful Client (list row) :=
  let filters := filters_of p in
  if forallb is_None (snd <$> filters) then
    st_raise (InvalidDataException "At least one filter must be provided"
                [("fields", PList (PStr ∘ fst <$> filters))])
  else fetch_rescue_posts_filtered filters.

Definition list_unverified_posts : stateful Client (list row) :=
  fetch_unverified_posts.

Definition verify_post (post_id : string) : stateful Client row :=
  if String.eqb post_id "" then
    st_raise (InvalidDataException "Post id is required"
                                   [("field", PStr "post_id")])
  else verify_rescue_post post_id.

Definition delete_post (post_id : string) : stateful Client unit :=
  if String.eqb post_id "" then
    st_raise (InvalidDataException "Post id is required"
                                   [("field", PStr "post_id")])
  else delete_rescue_post post_id.

(** *** The criticality scorer *)

Definition water_map : gmap string Z :=
  <["head" := 9]> (<["neck" := 8]> (<["chest" := 7]> (<["shoulder" := 6]>
  (<["waist" := 5]> (<["knee" := 3]> (<["ankle" := 1]> ∅)))))).

Definition needs : list string :=
  ["need_foods"; "need_water"; "need_transport"; "need_power";
   "need_clothes"].

Section scoring.

(** [datetime.fromisoformat(s).timestamp()]: the epoch seconds of an ISO
    timestamp, [None] when the call raises.  The library decides it. *)
Variable iso_timestamp : string -> option Qc.

(** The [try] block that computes the tie breaker: any exception in it
    (a [created_at] that is not a string, a text that does not parse) leaves
    0.0. *)
Definition tie_breaker_of (created_at : pyval) : Qc :=
  match created_at with
  | PStr text =>
      match iso_timestamp (replace_char "Z"%char "+00:00" text) with
      | Some seconds => (- seconds)%Qc
      | None => 0%Qc
      end
  | _ => 0%Qc
  end.

(** [_priority_score].  The score is a Python float built from integer
    terms only; for the counts a database integer column of people holds,
    the float sum is exact, and the score is kept as the integer it
    equals.  The tie breaker is kept as the exact rational number of
    seconds. *)
Definition _priority_score (post : row) : result (Z * Qc) :=
  let score := 0 in
  (* min(people, 50) compares the value with an int *)
  people ←
    match isinstance_int
            (py_or (get post "number_of_peoples_to_rescue") (PInt 0)) with
    | Some n => Return n
    | None => Raise TypeError
    end;
  let score := score + Z.min people 50 * 2 in
  (* .lower() is a method of str *)
  water_level ←
    match isinstance_str (py_or (get post "water_level") (PStr "")) with
    | Some s => Return (lower s)
    | None => Raise AttributeError
    end;
  let score := score + default 0 (water_map !! water_level) in
  let score :=
    if truthy (get post "is_medical_needed") then score + 10 else score in
  let score :=
    if truthy (get post "need_medic") then score + 6 else score in
  let score :=
    foldl (fun score need =>
             if truthy (get post need) then score + 2 else score)
          score needs in
  let safe_hours := get post "safe_hours" in
  let score :=
    match isinstance_int safe_hours with
    | Some safe_hours =>
        if safe_hours <=? 1 then score + 6
        else if safe_hours <=? 4 then score + 4
        else if safe_hours <=? 12 then score + 2
        else score
    | None => score
    end in
  let score :=
    if truthy (get post "is_verified") then score + 1 else score in
  let created_at := py_or (get post "created_at") (PStr "") in
  let tie_breaker := tie_breaker_of created_at in
  Return (score, tie_breaker).

(** [a < b] on the key tuples: the first components that differ decide. *)
Definition key_lt (a b : Z * Qc) : bool :=
  if negb (fst a =? fst b) then fst a <? fst b
  else bool_decide (snd a < snd b)%Qc.

(** [sorted(..., reverse=True)] on (key, item) pairs.  The sort is stable
    also when reversed: items with equal keys keep their order.  An item
    goes before the first one whose key is not greater than its own. *)
Fixpoint insert_reverse {A} (x : (Z * Qc) * A) (l : list ((Z * Qc) * A))
  : list ((Z * Qc) * A) :=
  match l with
  | [] => [x]
  | y :: l' =>
      if key_lt (fst x) (fst y) then y :: insert_reverse x l'
      else x :: y :: l'
  end.

Definition sort_reverse {A} (l : list ((Z * Qc) * A))
  : list ((Z * Qc) * A) :=
  foldr insert_reverse [] l.

(** [sorted(items, key=key, reverse=True)]: the key of every item is
    computed first, and an exception there ends the call. *)
Definition sorted_reverse {A} (key : A -> result (Z * Qc)) (items : list A)
  : result (list A) :=
  keys ← mapM key items;
  Return (snd <$> sort_reverse (zip keys items)).

(** [l[:limit]]: a negative limit counts from the end. *)
Definition slice_to {A} (limit : Z) (l : list A) : list A :=
  if 0 <=? limit then take (Z.to_nat limit) l
  else take (length l - Z.to_nat (- limit)) l.

(** The default of the [limit] parameter. *)
Definition default_limit : Z := 3.

Definition list_top_critical_posts (limit : Z)
  : stateful Client (list row) :=
  posts ⇐ fetch_rescue_posts_with_images;
  sorted_posts ⇐ st_lift (sorted_reverse _priority_score posts);
  st_ret (slice_to limit sorted_posts).

End scoring.

(** *** The single-field listings and the statistics *)

Definition list_rescue_posts_by_emergency (emergency_type : string)
  : stateful Client (list row) :=
  if String.eqb emergency_type "" then
    st_raise (InvalidDataException "Emergency type is required"
                                   [("field", PStr "emergency_type")])
  else fetch_rescue_posts_by_emergency_type emergency_type.

Definition list_rescue_posts_by_district (district : string)
  : stateful Client (list row) :=
  if String.eqb district "" then
    st_raise (InvalidDataException "District is required"
                                   [("field", PStr "district")])
  else fetch_rescue_posts_by_district district.

Definition list_rescue_posts_by_water_level (water_level : string)
  : stateful Client (list row) :=
  if String.eqb water_level "" then
    st_raise (InvalidDataException "Water level is required"
                                   [("field", PStr "water_level")])
  else fetch_rescue_posts_by_water_level water_level.

Definition get_priority_stats : stateful Client (gmap string Z) :=
  fetch_priority_counts.

End posts_service.

(* ===================================================================== *)
(** ** app/routes/posts.py *)
(* ===================================================================== *)

Module posts.
Import Py exception_handlers settings supabase spaces_client.
Import posts_service.

(** The form parameters of [create_rescue_post], at their declared types: a
    parameter declared with [Form(...)] is always there, one declared with
    [Form(None)] may be absent, a flag declared with [Form(False)] is a
    boolean. *)
Record Form : Type := {
  full_name : string;
  phone_number : string;
  alt_phone_number : option string;
  location : string;
  land_mark : option string;
  district : option string;
  emergency_type : string;
  number_of_peoples_to_rescue : option Z;
  number_of_peoples : option Z;
  is_medical_needed : bool;
  water_level : option string;
  safe_hours : option Z;
  need_foods : bool;
  need_water : bool;
  need_transport : bool;
  need_medic : bool;
  need_power : bool;
  need_clothes : bool;
  description : option string;
  priority_level : string;
  location_url : string
}.

(** [create_rescue_post]: the payload dictionary of the route, handed to
    the service, which drops the keys whose value is [None]. *)
Definition create_rescue_post (settings : Settings)
    (images : list UploadFile) (form : Form)
  : stateful World (row * list row) :=
  let people_count :=
    match number_of_peoples_to_rescue form with
    | Some n => Some n
    | None => number_of_peoples form
    end in
  let payload :=
    {| rescue_posts.full_name := Some (full_name form);
       rescue_posts.phone_number := Some (phone_number form);
       rescue_posts.alt_phone_number := alt_phone_number form;
       rescue_posts.location := Some (location form);
       rescue_posts.land_mark := land_mark form;
       rescue_posts.district := district form;
       rescue_posts.emergency_type := Some (emergency_type form);
       rescue_posts.priority_level := Some (priority_level form);
       rescue_posts.number_of_peoples_to_rescue := people_count;
       rescue_posts.is_medical_needed := Some (is_medical_needed form);
       rescue_posts.water_level := water_level form;
       rescue_posts.safe_hours := safe_hours form;
       rescue_posts.need_foods := Some (need_foods form);
       rescue_posts.need_water := Some (need_water form);
       rescue_posts.need_transport := Some (need_transport form);
       rescue_posts.need_medic := Some (need_medic form);
       rescue_posts.need_power := Some (need_power form);
       rescue_posts.need_clothes := Some (need_clothes form);
       rescue_posts.description := description form;
       rescue_posts.location_url := Some (location_url form);
       rescue_posts.image_urls := None |} in
  create_rescue_post_with_images settings payload images.

Definition list_rescue_posts : stateful Client (list row) :=
  list_rescue_posts_with_images.

Section routes.
Variable iso_timestamp : string -> option Qc.

(** [list_critical_posts]: the service with the default of its [limit]. *)
Definition list_critical_posts : stateful Client (list row) :=
  list_top_critical_posts iso_timestamp default_limit.

End routes.

Definition filter_rescue_posts (p : FilterParams)
  : stateful Client (list row) :=
  list_rescue_posts_filtered p.

Definition get_post_stats : stateful Client (gmap string Z) :=
  get_priority_stats.

End posts.

(* ===================================================================== *)
(** ** app/routes/admin.py *)
(* ===================================================================== *)

Module admin.
Import Py exception_handlers settings supabase posts_service.

(** A route of the router, which is declared with
    [dependencies=[Depends(require_admin_token)]]: the dependency runs
    before the path function, and an exception it raises is the answer; the
    path function is not called then.  [x_api_token] is the [x-api-token]
    header of the request. *)
Definition guarded {A} (settings : Settings) (x_api_token : option string)
    (endpoint : stateful Client A) : stateful Client A :=
  fun supabase_client =>
  match auth.require_admin_token settings x_api_token with
  | Raise e => (Raise e, supabase_client)
  | Return _ => endpoint supabase_client
  end.

Definition get_unverified_posts (settings : Settings)
    (x_api_token : option string) : stateful Client (list row) :=
  guarded settings x_api_token list_unverified_posts.

Definition verify_rescue_post (settings : Settings)
    (x_api_token : option string) (post_id : string) : stateful Client row :=
  guarded settings x_api_token (verify_post post_id).

Definition delete_rescue_post (settings : Settings)
    (x_api_token : option string) (post_id : string)
  : stateful Client (list (string * pyval)) :=
  guarded settings x_api_token
    (_ ⇐ delete_post post_id;
     st_ret [("message", PStr "Post deleted"); ("post_id", PStr post_id)]).

End admin.

(* ===================================================================== *)
(** ** app/utils/telegram.py *)
(* ===================================================================== *)

Module telegram.
Import Py settings.

(** The line feed of ["\n"]. *)
Definition newline : string := String (ascii_of_nat 10) EmptyString.

(** [sep.join(parts)]. *)
Fixpoint join (sep : string) (parts : list string) : string :=
  match parts with
  | [] => ""
  | part :: parts' =>
      match parts' with
      | [] => part
      | _ => (part ++ sep ++ join sep parts')%string
      end
  end.

Definition field_icons : gmap string string :=
  <["Full Name" := "👤"]> (<["Phone" := "📞"]> (<["Alt Phone" := "📞"]>
  (<["Location" := "📍"]> (<["Land Mark" := "🏷️"]> (<["District" := "🧭"]>
  (<["Emergency Type" := "⚠️"]> (<["Description" := "📝"]> ∅))))))).

(** The line of one field of the message. *)
Definition field_line (label value : string) : string :=
  let icon := default "•" (field_icons !! label) in
  (icon ++ " <b>" ++ label ++ ":</b> <code>" ++ value ++ "</code>")%string.

(** [_format_html_message]; [data] holds the items of the dictionary in
    their order. *)
Definition _format_html_message (data : list (string * option string))
    (is_verified : option bool) : string :=
  let status :=
    match is_verified with
    | Some true => "✅ Verified"
    | _ => "❌ Not verified"
    end in
  let parts :=
    [ "<b>🚨 New rescue post arrived</b>";
      ("<b>" ++ status ++ "</b>")%string;
      "" ] in
  let parts :=
    foldl (fun parts item =>
             match snd item with
             | Some value =>
                 if negb (String.eqb value "")
                 then (parts ++ [field_line (fst item) value])%list
                 else parts
             | None => parts
             end) parts data in
  join newline parts.

(** One call of [client.post(url, json=...)]. *)
Record Request : Type := {
  url : string;
  json : gmap string pyval
}.

(** What a call ends with: a response with its status code, or an
    exception (no connection, a timeout). *)
Inductive Reply : Type :=
  | Status (status_code : Z)
  | Failed.

(** The HTTP client: the requests attempted through it so far, and how the
    Telegram service answers the next one, which the code does not
    decide. *)
Record Http : Type := {
  attempted : list Request;
  reply : Request -> list Request -> Reply
}.

Definition post (r : Request) (h : Http) : Reply * Http :=
  (reply h r (attempted h),
   {| attempted := attempted h ++ [r]; reply := reply h |}).

(** The items of the media group: the caption goes with the first. *)
Definition media_items (caption : string) (images : list string)
  : list pyval :=
  imap (fun idx image_url =>
          let item : gmap string pyval :=
            <["media" := PStr image_url]> {["type" := PStr "photo"]} in
          PDict (if Nat.eqb idx 0
                 then <["parse_mode" := PStr "HTML"]>
                        (<["caption" := PStr caption]> item)
                 else item))
       images.

(** The first request: by the number of images. *)
Definition first_request (base_url chat_id caption : string)
    (images : list string) : Request :=
  match images with
  | [] =>
      {| url := (base_url ++ "/sendMessage")%string;
         json := <["chat_id" := PStr chat_id]>
                   (<["text" := PStr caption]>
                      (<["parse_mode" := PStr "HTML"]>
                         {["disable_web_page_preview" := PBool true]})) |}
  | [image] =>
      {| url := (base_url ++ "/sendPhoto")%string;
         json := <["chat_id" := PStr chat_id]>
                   (<["photo" := PStr image]>
                      (<["caption" := PStr caption]>
                         {["parse_mode" := PStr "HTML"]})) |}
  | _ =>
      {| url := (base_url ++ "/sendMediaGroup")%string;
         json := <["chat_id" := PStr chat_id]>
                   {["media" := PList (media_items caption images)]} |}
  end.

(** The text message sent when the first request is answered with an error
    status. *)
Definition fallback_request (base_url chat_id caption : string)
    (images : list string) : Request :=
  let urls_text :=
    match images with
    | [] => ""
    | _ => join newline images
    end in
  let fallback_text :=
    if negb (String.eqb urls_text "")
    then (caption ++ newline ++ newline ++ "Images:" ++ newline
            ++ urls_text)%string
    else caption in
  {| url := (base_url ++ "/sendMessage")%string;
     json := <["chat_id" := PStr chat_id]>
               (<["text" := PStr fallback_text]>
                  (<["parse_mode" := PStr "HTML"]>
                     {["disable_web_page_preview" := PBool false]})) |}.

(** [send_telegram_notification].  [settings] is the cached
    [get_settings()]; [image_urls] is [None] when the argument is left out.
    The call returns nothing and raises nothing: an exception of a request
    is caught and logged. *)
Definition send_telegram_notification (settings : Settings)
    (text_fields : list (string * option string))
    (image_urls : option (list string)) (is_verified : option bool)
    (client : Http) : Http :=
  match telegram_bot_token settings, telegram_channel_id settings with
  | Some token, Some chat_id =>
      if String.eqb token "" || String.eqb chat_id "" then client
      else
        let base_url := ("https://api.telegram.org/bot" ++ token)%string in
        let caption := _format_html_message text_fields is_verified in
        let images :=
          filter (fun image_url => image_url <> "") (default [] image_urls) in
        match post (first_request base_url chat_id caption images) client with
        | (Failed, client) => client
        | (Status status_code, client) =>
            if 400 <=? status_code then
              snd (post (fallback_request base_url chat_id caption images)
                        client)
            else client
        end
  | _, _ => client
  end.

End telegram.

(* ===================================================================== *)
(** ** The vocabulary of the specification *)
(* ===================================================================== *)

Module spec.
Import Py exception_handlers settings supabase spaces_client.
Import rescue_posts posts_repository posts_service.

(** A call fails with the given HTTP-style status. *)
Definition fails_with {A} (r : result A) (status : Z) : Prop :=
  exists e, r = Raise e /\ status_of e = status.

(** A call fails with a caller-input error. *)
Definition fails_caller_input {A} (r : result A) : Prop :=
  exists message details, r = Raise (InvalidDataException message details).

(** *** Submission validation *)

(** The digit characters of a phone input, and how many there are. *)
Definition digits (s : string) : string := filter_string isdigit s.
Definition digit_count (s : string) : Z := len (digits s).

Fixpoint lookup_field (name : string) (fields : list (string * Outcome))
  : option Outcome :=
  match fields with
  | [] => None
  | (n, o) :: fields' =>
      if String.eqb n name then Some o else lookup_field name fields'
  end.

Definition is_valid (o : Outcome) : bool :=
  match o with Valid _ => true | _ => false end.

(** The validation accepts the value the payload gives a field. *)
Definition field_accepted (data : Payload) (name : string) : bool :=
  match lookup_field name (model_fields data) with
  | Some o => is_valid o
  | None => false
  end.

(** The fields of a payload that violate a rule (a declared constraint or
    the field's validator), in the order of the class. *)
Definition violations (data : Payload) : list string :=
  fst <$> filter (fun f => is_valid (snd f) = false) (model_fields data).

(** The fields that violate a declared constraint (a required field is
    missing, a length or a range is exceeded). *)
Definition constraint_violations (data : Payload) : list string :=
  omap (fun f => match snd f with Invalid _ => Some (fst f) | _ => None end)
       (model_fields data).

(** The first exception a field validator lets through, if any. *)
Fixpoint escaping (fields : list (string * Outcome)) : option Exception :=
  match fields with
  | [] => None
  | (_, Raised x) :: _ => Some x
  | _ :: fields' => escaping fields'
  end.

(** The errors pydantic collects over a list of fields, and the values it
    stores, when no exception ends the loop. *)
Definition collected_errors (fields : list (string * Outcome))
  : list ErrorDetails :=
  omap (fun f => match snd f with
                 | Invalid e => Some {| loc := [fst f]; type := e |}
                 | _ => None
                 end) fields.

Definition collected_values (fields : list (string * Outcome))
    (values : gmap string pyval) : gmap string pyval :=
  foldl (fun values f => match snd f with
                         | Valid v => <[fst f := v]> values
                         | _ => values
                         end) values fields.

(** An error of a validator of one field: its details name that field, and
    at most the offending value besides. *)
Definition names_one_field (x : Exception) (name : string) : Prop :=
  exists message rest,
    x = InvalidDataException message (("field", PStr name) :: rest)
    /\ (rest = [] \/ exists v, rest = [("value", v)]).

(** The field names a list of formatted errors enumerates. *)
Definition error_fields (errors : list pyval) : list string :=
  omap (fun e => match e with
                 | PDict d =>
                     match d !! "field", d !! "message" with
                     | Some (PStr field), Some (PStr _) => Some field
                     | _, _ => None
                     end
                 | _ => None
                 end) errors.

(** The claim on aggregation as the specification words it: with more than
    one violated field, a single error whose details enumerate them all. *)
Definition claimed_aggregation (data : Payload) : Prop :=
  (1 < length (violations data))%nat ->
  exists message errors,
    validate_with_app_error data
    = Raise (InvalidDataException message [("errors", PList errors)])
    /\ forall name, name ∈ violations data -> name ∈ error_fields errors.

(** The claim on phone numbers as the specification words it: rejected
    exactly when the digits left after stripping are 6 or fewer or 16 or
    more. *)
Definition claimed_phone_rule (data : Payload) : Prop :=
  forall s, phone_number data = Some s ->
    field_accepted data "phone_number" = false
    <-> digit_count s <= 6 \/ 16 <= digit_count s.

(** The claim on persisted phone numbers as the specification words it: the
    stored value is the string of the input's digits. *)
Definition claimed_phone_storage (data : Payload) : Prop :=
  forall s validated post_payload,
    phone_number data = Some s ->
    validate_with_app_error data = Return validated ->
    post_payload_of validated = Return post_payload ->
    post_payload !! "phone_number" = Some (PStr (digits s)).

(** *** Image intake *)

(** The content type the intake goes by: the declared one, or else the one
    guessed from the file name. *)
Definition resolved_type (w : World) (f : UploadFile) : option string :=
  if truthy_str (content_type f) then content_type f
  else match filename f with
       | Some name => guess_type w name
       | None => None
       end.

Definition is_image_type (o : option string) : bool :=
  match o with
  | Some ctype => negb (String.eqb ctype "") && startswith ctype "image/"
  | None => false
  end.

(** A file is valid: it has a file name, an image content type, a body that
    is not empty and not larger than the configured ceiling. *)
Definition file_ok (s : Settings) (w : World) (f : UploadFile) : bool :=
  truthy_str (filename f)
  && is_image_type (resolved_type w f)
  && negb (len_bytes (content f) =? 0)
  && (len_bytes (content f) <=? digitalocean_max_file_size_mb s * 1024 * 1024).

(** The key of an object: the upload prefix and "/", left out when the
    prefix is empty, then the object name. *)
Definition object_key (s : Settings) (object_name : string) : string :=
  if String.eqb (digitalocean_upload_prefix s) "" then object_name
  else (digitalocean_upload_prefix s ++ "/" ++ object_name)%string.

Definition cdn_url (s : Settings) (key : string) : string :=
  (digitalocean_cdn_endpoint s ++ "/projectrakawarananew/" ++ key)%string.

Definition is_hex_char (c : ascii) : bool :=
  isdigit c || (let n := N_of_ascii c in (97 <=? n) && (n <=? 102))%N.

Fixpoint all_chars (p : ascii -> bool) (s : string) : bool :=
  match s with
  | EmptyString => true
  | String c s' => p c && all_chars p s'
  end.

(** The shape of the URL returned for a file. *)
Definition url_shape (s : Settings) (f : UploadFile) (url : string) : Prop :=
  exists name random,
    filename f = Some name
    /\ String.length random = 32%nat
    /\ all_chars is_hex_char random = true
    /\ url = cdn_url s (object_key s (random ++ snd (splitext name))%string).

(** The store accepts every write. *)
Definition store_accepts (w : World) : Prop :=
  forall o l, put_error (spaces w) o l = false.

(** What an upload leaves unchanged in the world: the two library calls,
    the database client, and how the store answers. *)
Definition same_services (w w' : World) : Prop :=
  guess_type w' = guess_type w
  /\ uuid4 w' = uuid4 w
  /\ supabase_client w' = supabase_client w
  /\ put_error (spaces w') = put_error (spaces w).

(** The object written for a file. *)
Definition written_for (s : Settings) (f : UploadFile) (o : PutObject) : Prop :=
  Bucket o = digitalocean_bucket s /\ Body o = content f
  /\ ACL o = "public-read".

(** The claim on partial uploads as the specification words it: a batch with
    an invalid file fails with a caller-input error and nothing of it has
    been written. *)
Definition claimed_no_partial_upload (s : Settings) (files : list UploadFile)
    (w : World) : Prop :=
  Exists (fun f => file_ok s w f = false) files ->
  fails_caller_input (fst (upload_images_to_spaces files s w))
  /\ objects (spaces (snd (upload_images_to_spaces files s w)))
     = objects (spaces w).

(** *** Filtered listing, verification and deletion *)

(** The database answers every request of the client. *)
Definition healthy (c : Client) : Prop :=
  forall q, api_error c q (tables c) = None.

(** Ordering rows rearranges them and nothing more. *)
Definition orders_by_permuting (c : Client) : Prop :=
  forall column desc rows, order_rows c column desc rows ≡ₚ rows.

Definition absent {A} (o : option A) : bool :=
  match o with
  | None => true
  | Some _ => false
  end.

(** Every filter is absent. *)
Definition no_filter (p : FilterParams) : bool :=
  forallb (fun b : bool => b)
    [ absent (district p); absent (emergency_type p);
      absent (water_level p); absent (is_medical_needed p);
      absent (need_foods p); absent (need_water p);
      absent (need_transport p); absent (need_medic p);
      absent (need_power p); absent (need_clothes p);
      absent (is_verified p); absent (min_people p);
      absent (max_safe_hours p) ].

(** The predicates a supplied filter stands for; an absent filter holds of
    every row. *)
Definition str_is (r : row) (column : string) (o : option string) : bool :=
  match o with
  | None => true
  | Some v =>
      match r !! column with
      | Some (PStr x) => String.eqb x v
      | _ => false
      end
  end.

Definition bool_is (r : row) (column : string) (o : option bool) : bool :=
  match o with
  | None => true
  | Some v =>
      match r !! column with
      | Some (PBool x) => Bool.eqb x v
      | _ => false
      end
  end.

Definition at_least (r : row) (column : string) (o : option Z) : bool :=
  match o with
  | None => true
  | Some n =>
      match r !! column with
      | Some (PInt k) => n <=? k
      | _ => false
      end
  end.

Definition at_most (r : row) (column : string) (o : option Z) : bool :=
  match o with
  | None => true
  | Some n =>
      match r !! column with
      | Some (PInt k) => k <=? n
      | _ => false
      end
  end.

(** The conjunction of all supplied predicates. *)
Definition accepts (p : FilterParams) (r : row) : bool :=
  forallb (fun b : bool => b)
    [ str_is r "district" (district p);
      str_is r "emergency_type" (emergency_type p);
      str_is r "water_level" (water_level p);
      bool_is r "is_medical_needed" (is_medical_needed p);
      bool_is r "need_foods" (need_foods p);
      bool_is r "need_water" (need_water p);
      bool_is r "need_transport" (need_transport p);
      bool_is r "need_medic" (need_medic p);
      bool_is r "need_power" (need_power p);
      bool_is r "need_clothes" (need_clothes p);
      bool_is r "is_verified" (is_verified p);
      at_least r "number_of_peoples_to_rescue" (min_people p);
      at_most r "safe_hours" (max_safe_hours p) ].

(** What one entry of the [filters] dictionary requires of a row. *)
Definition item_holds (r : row) (item : string * pyval) : bool :=
  match snd item with
  | PNone => true
  | value =>
      if String.eqb (fst item) "min_people" then
        satisfies r (Gte "number_of_peoples_to_rescue" value)
      else if String.eqb (fst item) "max_safe_hours" then
        satisfies r (Lte "safe_hours" value)
      else satisfies r (Eq (fst item) value)
  end.

(** The row has the given id. *)
Definition has_id (post_id : string) (r : row) : bool :=
  match r !! "id" with
  | Some (PStr x) => String.eqb x post_id
  | _ => false
  end.

(** The row after verification. *)
Definition verified (r : row) : row := <["is_verified" := PBool true]> r.

(** *** Admin gate *)

(** The server-side secret is configured: set, and not the empty text the
    code treats like an unset one. *)
Definition configured (s : Settings) : Prop :=
  exists secret, admin_token s = Some secret /\ secret <> "".

(** *** Criticality score, term by term as the specification lists them *)

(** The columns of a post at the types the database gives them; a null
    column and an absent key read alike. *)
Definition null_or_int (v : pyval) : Prop :=
  match v with PNone | PInt _ => True | _ => False end.
Definition null_or_str (v : pyval) : Prop :=
  match v with PNone | PStr _ => True | _ => False end.
Definition null_or_bool (v : pyval) : Prop :=
  match v with PNone | PBool _ => True | _ => False end.

Definition flag_names : list string :=
  ["is_medical_needed"; "need_medic"; "need_foods"; "need_water";
   "need_transport"; "need_power"; "need_clothes"; "is_verified"].

Definition post_typed (post : row) : Prop :=
  null_or_int (get post "number_of_peoples_to_rescue")
  /\ null_or_str (get post "water_level")
  /\ Forall (fun k => null_or_bool (get post k)) flag_names.

(** The people count, a missing one being 0. *)
Definition people_count (post : row) : Z :=
  match get post "number_of_peoples_to_rescue" with
  | PInt n => n
  | _ => 0
  end.

Definition spec_people_term (post : row) : Z := Z.min (people_count post) 50 * 2.

(** The water-level table, keyed by the lower-cased tag. *)
Definition spec_water_table (tag : string) : Z :=
  if String.eqb tag "head" then 9
  else if String.eqb tag "neck" then 8
  else if String.eqb tag "chest" then 7
  else if String.eqb tag "shoulder" then 6
  else if String.eqb tag "waist" then 5
  else if String.eqb tag "knee" then 3
  else if String.eqb tag "ankle" then 1
  else 0.

Definition spec_water_term (post : row) : Z :=
  match get post "water_level" with
  | PStr tag => spec_water_table (lower tag)
  | _ => 0
  end.

(** A flag of the post is true. *)
Definition flag (post : row) (name : string) : bool :=
  match get post name with
  | PBool true => true
  | _ => false
  end.

Definition weight (b : bool) (w : Z) : Z := if b then w else 0.

(** The tiers of the safe-hours bonus. *)
Definition spec_safe_hours_tier (hours : Z) : Z :=
  if hours <=? 1 then 6
  else if hours <=? 4 then 4
  else if hours <=? 12 then 2
  else 0.

(** The bonus counts only for an integer (Python's [isinstance(_, int)]);
    any other value is ignored. *)
Definition spec_safe_hours_term (post : row) : Z :=
  match isinstance_int (get post "safe_hours") with
  | Some hours => spec_safe_hours_tier hours
  | None => 0
  end.

Definition spec_score (post : row) : Z :=
  spec_people_term post
  + spec_water_term post
  + weight (flag post "is_medical_needed") 10
  + weight (flag post "need_medic") 6
  + (weight (flag post "need_foods") 2
     + weight (flag post "need_water") 2
     + weight (flag post "need_transport") 2
     + weight (flag post "need_power") 2
     + weight (flag post "need_clothes") 2)
  + spec_safe_hours_term post
  + weight (flag post "is_verified") 1.

(** The two posts of the specification's ranking example. *)
Definition P1 : row :=
  <["is_medical_needed" := PBool true]>
    (<["water_level" := PStr "ankle"]>
       (<["number_of_peoples_to_rescue" := PInt 10]> ∅)).

Definition P2 : row :=
  <["is_medical_needed" := PBool false]>
    (<["water_level" := PStr "head"]>
       (<["number_of_peoples_to_rescue" := PInt 2]> ∅)).

(** A timestamp parser that parses nothing, to run the examples. *)
Definition no_timestamp (text : string) : option Qc := None.

(** *** Ranking *)

Section ranking.
Variable iso_timestamp : string -> option Qc.

(** The creation timestamp of a post in epoch seconds, when its text (empty
    if the post has none) can be parsed. *)
Definition created_seconds (post : row) : option Qc :=
  match py_or (get post "created_at") (PStr "") with
  | PStr text => iso_timestamp (replace_char "Z"%char "+00:00" text)
  | _ => None
  end.

(** The tiebreak: the negated epoch seconds, and 0 for a timestamp that
    cannot be parsed. *)
Definition spec_tiebreak (post : row) : Qc :=
  match created_seconds post with
  | Some seconds => (- seconds)%Qc
  | None => 0%Qc
  end.

Definition spec_key (post : row) : Z * Qc :=
  (spec_score post, spec_tiebreak post).

End ranking.

(** The order of the pairs (score, tiebreak): the score decides, the
    tiebreak decides among equal scores. *)
Definition pair_le (a b : Z * Qc) : Prop :=
  fst a < fst b \/ (fst a = fst b /\ (snd a <= snd b)%Qc).

(** Pairs (key, item) sorted descending on their keys. *)
Definition keys_descending {A} (l : list ((Z * Qc) * A)) : Prop :=
  StronglySorted (fun x y => pair_le (fst y) (fst x)) l.

(** A list is sorted descending by a key: every item's key is at least the
    key of every later item. *)
Definition descending {A} (key : A -> Z * Qc) (l : list A) : Prop :=
  StronglySorted (fun x y => pair_le (key y) (key x)) l.

(** *** Single-field listings, statistics and what follows an admin
    operation *)

(** A call is turned down as a caller-input error and leaves the client as
    it was: no request has been made. *)
Definition rejects_without_request {A} (run : result A * Client) (c : Client)
  : Prop :=
  fails_caller_input (fst run) /\ snd run = c.

(** A listing returns the posts whose column holds the value, images
    embedded, in some order. *)
Definition selects (run : result (list row) * Client) (column value : string)
    (c : Client) : Prop :=
  exists posts,
    fst run = Return posts
    /\ posts ≡ₚ embed_images (tables c)
                  <$> filter (fun r => str_is r column (Some value) = true)
                             (rows_of (tables c) "rescue_posts").

(** The filter parameters that give one text filter and nothing else. *)
Definition only_district (value : string) : FilterParams :=
  {| posts_service.district := Some value;
     posts_service.emergency_type := None;
     posts_service.water_level := None;
     posts_service.is_medical_needed := None;
     posts_service.need_foods := None;
     posts_service.need_water := None;
     posts_service.need_transport := None;
     posts_service.need_medic := None;
     posts_service.need_power := None;
     posts_service.need_clothes := None;
     is_verified := None;
     min_people := None;
     max_safe_hours := None |}.

Definition only_emergency_type (value : string) : FilterParams :=
  {| posts_service.district := None;
     posts_service.emergency_type := Some value;
     posts_service.water_level := None;
     posts_service.is_medical_needed := None;
     posts_service.need_foods := None;
     posts_service.need_water := None;
     posts_service.need_transport := None;
     posts_service.need_medic := None;
     posts_service.need_power := None;
     posts_service.need_clothes := None;
     is_verified := None;
     min_people := None;
     max_safe_hours := None |}.

Definition only_water_level (value : string) : FilterParams :=
  {| posts_service.district := None;
     posts_service.emergency_type := None;
     posts_service.water_level := Some value;
     posts_service.is_medical_needed := None;
     posts_service.need_foods := None;
     posts_service.need_water := None;
     posts_service.need_transport := None;
     posts_service.need_medic := None;
     posts_service.need_power := None;
     posts_service.need_clothes := None;
     is_verified := None;
     min_people := None;
     max_safe_hours := None |}.

(** The number of rows that satisfy a predicate. *)
Definition count_where (p : row -> bool) (rows : list row) : Z :=
  Z.of_nat (length (filter (fun r => p r = true) rows)).

Definition priority_is (level : string) (r : row) : bool :=
  str_is r "priority_level" (Some level).

(** The row carries one of the three priority levels. *)
Definition has_priority_level (r : row) : Prop :=
  exists level,
    level ∈ ["high"; "medium"; "low"]
    /\ r !! "priority_level" = Some (PStr level).

(** The database answers every request, whatever the tables hold by then. *)
Definition always_answers (c : Client) : Prop :=
  forall q t, api_error c q t = None.

(** The database refuses every request with the given text. *)
Definition refuses (c : Client) (text : string) : Prop :=
  forall q, api_error c q (tables c) = Some text.

(** A call fails as a server error that carries the text of the database,
    and the tables are as they were. *)
Definition server_error {A} (run : result A * Client) (c : Client)
    (text : string) : Prop :=
  (exists message details,
     fst run = Raise (AppError message 500 details)
     /\ ("error", PStr text) ∈ details)
  /\ tables (snd run) = tables c.

(** The row is not verified. *)
Definition unverified (r : row) : bool :=
  bool_is r "is_verified" (Some false).

(** *** A successful upload, and the creation around it *)

(** The object written for a file, complete: the bucket, the bytes and the
    access level, the content type the intake resolved, and the key made of
    the [i]-th UUID drawn and the extension of the file name. *)
Definition stored_as (s : Settings) (w : World) (i : nat) (f : UploadFile)
    (o : PutObject) : Prop :=
  written_for s f o
  /\ Some (ContentType o) = resolved_type w f
  /\ exists name,
       filename f = Some name
       /\ Key o = object_key s (hex (uuid4 w i) ++ snd (splitext name))%string.

(** The error of a write the object store refused. *)
Definition store_failure (name : string) : Exception :=
  AppError "Failed to upload image" 500 [("filename", PStr name)].

(** The row stored for an image of a post. *)
Definition image_of (post : row) (url : string) (image : row) : Prop :=
  image !! "image_url" = Some (PStr url)
  /\ image !! "post_id" = post !! "id".

(** The largest score the scorer can give. *)
Definition max_score : Z := 142.

(** *** What the scorer needs of a post *)

(** The value can stand where the scorer takes a number: an integer or a
    boolean, or a value that counts as false and is replaced by 0. *)
Definition countable (v : pyval) : bool :=
  negb (truthy v) || match v with PInt _ | PBool _ => true | _ => false end.

(** The value can stand where the scorer takes a text: a string, or a value
    that counts as false and is replaced by the empty string. *)
Definition textual (v : pyval) : bool :=
  negb (truthy v) || match v with PStr _ => true | _ => false end.

Definition scorable (post : row) : bool :=
  countable (get post "number_of_peoples_to_rescue")
  && textual (get post "water_level").

(** The exceptions the scorer can end with: [min] on a value that is not a
    number, [.lower()] on a value that is not a string. *)
Definition scorer_error (e : Exception) : Prop :=
  e = TypeError \/ e = AttributeError.

(** The number the scorer takes for the people of a post. *)
Definition people_of (post : row) : Z :=
  default 0 (isinstance_int
               (py_or (get post "number_of_peoples_to_rescue") (PInt 0))).

(** The length of [l[:limit]] on a list of [n] items. *)
Definition slice_length (limit n : Z) : Z :=
  if 0 <=? limit then Z.min limit n else Z.max 0 (n + limit).

(** The scorer gives the post the key [k]. *)
Definition has_key (key : row -> result (Z * Qc)) (k : Z * Qc) (post : row)
  : bool :=
  match key post with
  | Return k' => bool_decide (k' = k)
  | Raise _ => false
  end.

(** *** The validated model *)

Definition flag_fields : list string :=
  ["is_medical_needed"; "need_foods"; "need_water"; "need_transport";
   "need_medic"; "need_power"; "need_clothes"].

(** An optional integer field of the model: absent, or within its range. *)
Definition int_in_range (input : option Z) (lo hi : Z) (stored : option pyval)
  : Prop :=
  match input with
  | Some n => lo <= n <= hi /\ stored = Some (PInt n)
  | None => stored = Some PNone
  end.

(** A URL is not blank and starts with http:// or https://. *)
Definition is_clean_url (url : string) : Prop :=
  url <> "" /\ has_http_scheme url = true.

(** *** Admin routes *)

(** A call is refused with the given status and leaves the client as it
    was. *)
Definition refused_with {A} (run : result A * Client) (c : Client)
    (status : Z) : Prop :=
  fails_with (fst run) status /\ snd run = c.

(** The body of the answer to a successful delete. *)
Definition deleted_message (post_id : string) : list (string * pyval) :=
  [("message", PStr "Post deleted"); ("post_id", PStr post_id)].

(** *** Settings from the environment *)

(** The variable is set to a text that is not empty. *)
Definition is_set (env : gmap string string) (name : string) : Prop :=
  exists value, env !! name = Some value /\ value <> "".

Fixpoint ends_with (c : ascii) (s : string) : bool :=
  match s with
  | EmptyString => false
  | String x s' =>
      match s' with
      | EmptyString => Ascii.eqb x c
      | _ => ends_with c s'
      end
  end.

Definition begins_with (c : ascii) (s : string) : bool :=
  match s with
  | EmptyString => false
  | String x _ => Ascii.eqb x c
  end.

(** *** Telegram notification *)

(** Both credentials of the notifier are set, to texts that are not
    empty. *)
Definition notifier_configured (s : Settings) (token chat_id : string)
  : Prop :=
  telegram_bot_token s = Some token /\ token <> ""
  /\ telegram_channel_id s = Some chat_id /\ chat_id <> "".

(** The images a notification goes by: the URLs that are not empty. *)
Definition notified_images (image_urls : option (list string))
  : list string :=
  filter (fun image_url => image_url <> "") (default [] image_urls).

(** The method of the Bot API the first request calls, by the number of
    images. *)
Definition method_for (images : nat) : string :=
  match images with
  | O => "/sendMessage"
  | S O => "/sendPhoto"
  | _ => "/sendMediaGroup"
  end.

(** The service answered the request with an error status. *)
Definition answered_with_error (client : telegram.Http)
    (r : telegram.Request) : Prop :=
  exists status_code,
    telegram.reply client r (telegram.attempted client)
    = telegram.Status status_code
    /\ 400 <= status_code.

(** The fields of a message that have a value. *)
Definition with_value (data : list (string * option string))
  : list (string * option string) :=
  filter (fun item => truthy_str (snd item) = true) data.

(** *** The route that creates a post *)

(** The people count of a submission: [number_of_peoples_to_rescue], and
    [number_of_peoples] when the former is not given. *)
Definition submitted_people (form : posts.Form) : option Z :=
  match posts.number_of_peoples_to_rescue form with
  | Some n => Some n
  | None => posts.number_of_peoples form
  end.

(** The columns a stored post holds for a submission, the phone numbers
    apart: the texts as submitted, the priority level in lower case, the
    location URL without surrounding blanks, the flags, and null for what
    was not given. *)
Definition submitted_columns (form : posts.Form) : list (string * pyval) :=
  [ ("full_name", PStr (posts.full_name form));
    ("location", PStr (posts.location form));
    ("land_mark", of_str (posts.land_mark form));
    ("district", of_str (posts.district form));
    ("emergency_type", PStr (posts.emergency_type form));
    ("priority_level", PStr (lower (strip (posts.priority_level form))));
    ("number_of_peoples_to_rescue", of_int (submitted_people form));
    ("is_medical_needed", PBool (posts.is_medical_needed form));
    ("water_level", of_str (posts.water_level form));
    ("safe_hours", of_int (posts.safe_hours form));
    ("need_foods", PBool (posts.need_foods form));
    ("need_water", PBool (posts.need_water form));
    ("need_transport", PBool (posts.need_transport form));
    ("need_medic", PBool (posts.need_medic form));
    ("need_power", PBool (posts.need_power form));
    ("need_clothes", PBool (posts.need_clothes form));
    ("description", of_str (posts.description form));
    ("location_url", PStr (strip (posts.location_url form))) ].

(** *** A created post in the listing *)

(** The images embedded in a listed post. *)
Definition images_of (post : row) : list pyval :=
  match post !! "images" with
  | Some (PList images) => images
  | _ => []
  end.

End spec.

(* ===================================================================== *)
(** ** Concrete values to run the definitions on *)
(* ===================================================================== *)

Module examples.
Import Py exception_handlers settings supabase spaces_client.
Import rescue_posts posts_repository posts_service spec.

Definition settings0 : Settings :=
  {| supabase_url := "https://db.example";
     supabase_key := "key";
     digitalocean_access_key := "access";
     digitalocean_secret_key := "secret";
     digitalocean_bucket := "bucket";
     digitalocean_region := "sgp1";
     digitalocean_cdn_endpoint := "https://cdn.example";
     digitalocean_origin_endpoint := "https://origin.example";
     supabase_bucket := "images";
     digitalocean_upload_prefix := "posts_images";
     digitalocean_max_file_size_mb := 5;
     admin_token := Some "s3cret";
     telegram_bot_token := None;
     telegram_channel_id := None |}.

(** A well-formed submission. *)
Definition payload0 : Payload :=
  {| full_name := Some "Nimal Perera";
     phone_number := Some "077-123 4567";
     alt_phone_number := None;
     location := Some "12 Lake Road, Colombo 07";
     land_mark := None;
     rescue_posts.district := Some "Colombo";
     rescue_posts.emergency_type := Some "flood";
     priority_level := Some "High";
     number_of_peoples_to_rescue := Some 4;
     rescue_posts.is_medical_needed := Some true;
     rescue_posts.water_level := Some "knee";
     safe_hours := Some 3;
     rescue_posts.need_foods := None;
     rescue_posts.need_water := Some true;
     rescue_posts.need_transport := None;
     rescue_posts.need_medic := None;
     rescue_posts.need_power := None;
     rescue_posts.need_clothes := None;
     description := None;
     location_url := Some "https://maps.example/?q=6.9,79.8";
     image_urls := None |}.

Definition with_phone (phone : string) (data : Payload) : Payload :=
  {| full_name := full_name data;
     phone_number := Some phone;
     alt_phone_number := alt_phone_number data;
     location := location data;
     land_mark := land_mark data;
     rescue_posts.district := rescue_posts.district data;
     rescue_posts.emergency_type := rescue_posts.emergency_type data;
     priority_level := priority_level data;
     number_of_peoples_to_rescue := number_of_peoples_to_rescue data;
     rescue_posts.is_medical_needed := rescue_posts.is_medical_needed data;
     rescue_posts.water_level := rescue_posts.water_level data;
     safe_hours := safe_hours data;
     rescue_posts.need_foods := rescue_posts.need_foods data;
     rescue_posts.need_water := rescue_posts.need_water data;
     rescue_posts.need_transport := rescue_posts.need_transport data;
     rescue_posts.need_medic := rescue_posts.need_medic data;
     rescue_posts.need_power := rescue_posts.need_power data;
     rescue_posts.need_clothes := rescue_posts.need_clothes data;
     description := description data;
     location_url := location_url data;
     image_urls := image_urls data |}.

Definition with_priority (level : string) (data : Payload) : Payload :=
  {| full_name := full_name data;
     phone_number := phone_number data;
     alt_phone_number := alt_phone_number data;
     location := location data;
     land_mark := land_mark data;
     rescue_posts.district := rescue_posts.district data;
     rescue_posts.emergency_type := rescue_posts.emergency_type data;
     priority_level := Some level;
     number_of_peoples_to_rescue := number_of_peoples_to_rescue data;
     rescue_posts.is_medical_needed := rescue_posts.is_medical_needed data;
     rescue_posts.water_level := rescue_posts.water_level data;
     safe_hours := safe_hours data;
     rescue_posts.need_foods := rescue_posts.need_foods data;
     rescue_posts.need_water := rescue_posts.need_water data;
     rescue_posts.need_transport := rescue_posts.need_transport data;
     rescue_posts.need_medic := rescue_posts.need_medic data;
     rescue_posts.need_power := rescue_posts.need_power data;
     rescue_posts.need_clothes := rescue_posts.need_clothes data;
     description := description data;
     location_url := location_url data;
     image_urls := image_urls data |}.

(** Twelve digits with separators and an extension note: 23 characters. *)
Definition long_phone_payload : Payload :=
  with_phone "+94 (077) 123-4567 ext." payload0.

(** Two violated fields: a phone number without digits and a priority level
    outside the three allowed. *)
Definition two_violations_payload : Payload :=
  with_priority "urgent" (with_phone "abcdefg" payload0).

(** Two fields that violate declared constraints only. *)
Definition two_short_fields_payload : Payload :=
  with_priority "hi" (with_phone "0771" payload0).

(** A parser that knows two timestamps, one hour apart. *)
Definition iso0 (text : string) : option Qc :=
  if String.eqb text "2025-11-28T10:00:00+00:00" then
    Some (Qc_of_Z 1764324000)
  else if String.eqb text "2025-11-28T11:00:00+00:00" then
    Some (Qc_of_Z 1764327600)
  else None.

Definition stored (id : string) (created_at : string) (post : row) : row :=
  <["id" := PStr id]> (<["created_at" := PStr created_at]> post).

(** Three stored posts: P2 submitted at 11:00, P1, and P2 submitted at
    10:00. *)
Definition late_P2 : row := stored "a" "2025-11-28T11:00:00Z" P2.
Definition stored_P1 : row := stored "b" "2025-11-28T10:30:00Z" P1.
Definition early_P2 : row := stored "c" "2025-11-28T10:00:00Z" P2.

Definition tables0 : gmap string (list row) :=
  <["rescue_posts" := [late_P2; stored_P1; early_P2]]> (<["images" := []]> ∅).

(** A client whose requests all succeed, over a database that keeps its
    rows newest first and numbers the rows it stores. *)
Definition client_of (t : gmap string (list row)) : Client :=
  {| tables := t;
     requests := [];
     api_error := fun _ _ => None;
     order_rows := fun _ _ rows => rows;
     server_columns := fun name n =>
       let id := PStr ("row-" ++ str_of_Z (Z.of_nat n)) in
       if String.eqb name "rescue_posts"
       then <["id" := id]> (<["is_verified" := PBool false]> ∅)
       else <["id" := id]> ∅ |}.

Definition client0 : Client := client_of tables0.

(** A request for the posts of one district with at least five people. *)
Definition colombo_five : FilterParams :=
  {| posts_service.district := Some "Colombo";
     posts_service.emergency_type := None;
     posts_service.water_level := None;
     posts_service.is_medical_needed := None;
     posts_service.need_foods := None;
     posts_service.need_water := None;
     posts_service.need_transport := None;
     posts_service.need_medic := None;
     posts_service.need_power := None;
     posts_service.need_clothes := None;
     is_verified := None;
     min_people := Some 5;
     max_safe_hours := None |}.

(** A request without any filter. *)
Definition no_filters : FilterParams :=
  {| posts_service.district := None;
     posts_service.emergency_type := None;
     posts_service.water_level := None;
     posts_service.is_medical_needed := None;
     posts_service.need_foods := None;
     posts_service.need_water := None;
     posts_service.need_transport := None;
     posts_service.need_medic := None;
     posts_service.need_power := None;
     posts_service.need_clothes := None;
     is_verified := None;
     min_people := None;
     max_safe_hours := None |}.

(** A table with a post of ten people in Colombo, one of two people in
    Colombo and one of ten people in Galle. *)
Definition in_district (name : string) (post : row) : row :=
  <["district" := PStr name]> post.

Definition tables1 : gmap string (list row) :=
  <["rescue_posts" :=
      [ in_district "Colombo" stored_P1;
        in_district "Colombo" early_P2;
        in_district "Galle" (stored "d" "2025-11-28T09:00:00Z" P1) ]]>
    (<["images" := []]> ∅).

Definition client1 : Client := client_of tables1.

(** Uploaded files: a small JPEG, a file declared as a PDF, a file with no
    bytes. *)
Definition photo0 : UploadFile :=
  {| filename := Some "roof.JPG";
     content_type := Some "image/jpeg";
     content := [x01; x02; x03] |}.

Definition photo1 : UploadFile :=
  {| filename := Some "street.view.png";
     content_type := None;
     content := [x04; x05] |}.

Definition pdf0 : UploadFile :=
  {| filename := Some "report.pdf";
     content_type := Some "application/pdf";
     content := [x06] |}.

Definition empty0 : UploadFile :=
  {| filename := Some "blank.png";
     content_type := Some "image/png";
     content := [] |}.

(** An empty object store that accepts every write. *)
Definition spaces0 : Spaces :=
  {| objects := []; put_error := fun _ _ => false |}.

(** A world over it: file names ending in ".png" are guessed to be PNG
    images, and the n-th UUID drawn is the number 255 + n. *)
Definition world0 : World :=
  {| spaces := spaces0;
     supabase_client := client0;
     guess_type := fun name =>
       if String.eqb (snd (splitext name)) ".png" then Some "image/png"
       else None;
     uuid4 := fun n => (255 + N.of_nat n)%N;
     uuids_drawn := 0 |}.

(** The creation of a post from [payload0] with two photos, and what it
    returns. *)
Definition created0 : result (row * list row) * World :=
  create_rescue_post_with_images settings0 payload0 [photo0; photo1] world0.

Definition post0 : row := fst (value_or (fst created0) (∅, [])).
Definition images0 : list row := snd (value_or (fst created0) (∅, [])).

(** The validated model of [payload0] and the payload built from it. *)
Definition validated0 : row := value_or (validate_with_app_error payload0) ∅.
Definition post_payload0 : row := value_or (post_payload_of validated0) ∅.

(** Three stored posts with their priority levels. *)
Definition with_level (level : string) (post : row) : row :=
  <["priority_level" := PStr level]> post.

Definition tables2 : gmap string (list row) :=
  <["rescue_posts" :=
      [ with_level "high" late_P2;
        with_level "low" stored_P1;
        with_level "high" early_P2 ]]>
    (<["images" := []]> ∅).

Definition client2 : Client := client_of tables2.

(** A client whose database refuses every request. *)
Definition client_down : Client :=
  {| tables := tables1;
     requests := [];
     api_error := fun _ _ => Some "connection refused";
     order_rows := fun _ _ rows => rows;
     server_columns := fun _ _ => ∅ |}.

(** Two posts waiting for verification and one verified. *)
Definition unverified_post (id : string) : row :=
  <["id" := PStr id]> (<["is_verified" := PBool false]> P1).

Definition tables3 : gmap string (list row) :=
  <["rescue_posts" :=
      [ unverified_post "row-0";
        verified (unverified_post "row-1");
        unverified_post "row-2" ]]>
    (<["images" := []]> ∅).

Definition client3 : Client := client_of tables3.


(** A table in which one post holds its people count as a text. *)
Definition tables4 : gmap string (list row) :=
  <["rescue_posts" :=
      [ stored_P1;
        <["number_of_peoples_to_rescue" := PStr "many"]> late_P2 ]]>
    (<["images" := []]> ∅).

Definition client4 : Client := client_of tables4.

(** An environment with every required variable, a CDN endpoint written
    with a trailing slash and an upload prefix written between slashes. *)
Definition env0 : gmap string string :=
  <["SUPABASE_URL" := "https://db.example"]>
  (<["SUPABASE_ANON_KEY" := "anon"]>
  (<["DIGITALOCEAN_ACCESS_KEY" := "access"]>
  (<["DIGITALOCEAN_SECRET_KEY" := "secret"]>
  (<["DIGITALOCEAN_BUCKET_NAME" := "bucket"]>
  (<["DIGITALOCEAN_REIGION" := "sgp1"]>
  (<["DIGITALOCEAN_CDN" := "https://cdn.example/"]>
  (<["DIGITALOCEAN_UPLOAD_PREFIX" := "/posts_images/"]> ∅))))))).

(** [int] on the texts the examples use. *)
Definition int0 (text : string) : option Z :=
  if String.eqb (filter_string isdigit text) text && negb (String.eqb text "")
  then Some (int_of_digits text)
  else None.

(** Settings with the credentials of the notifier. *)
Definition settings_telegram : Settings :=
  {| supabase_url := supabase_url settings0;
     supabase_key := supabase_key settings0;
     digitalocean_access_key := digitalocean_access_key settings0;
     digitalocean_secret_key := digitalocean_secret_key settings0;
     digitalocean_bucket := digitalocean_bucket settings0;
     digitalocean_region := digitalocean_region settings0;
     digitalocean_cdn_endpoint := digitalocean_cdn_endpoint settings0;
     digitalocean_origin_endpoint := digitalocean_origin_endpoint settings0;
     supabase_bucket := supabase_bucket settings0;
     digitalocean_upload_prefix := digitalocean_upload_prefix settings0;
     digitalocean_max_file_size_mb := digitalocean_max_file_size_mb settings0;
     admin_token := admin_token settings0;
     telegram_bot_token := Some "123:abc";
     telegram_channel_id := Some "@rescue" |}.

(** A Telegram service that answers media groups with status 400 and
    everything else with 200. *)
Definition http0 : telegram.Http :=
  {| telegram.attempted := [];
     telegram.reply := fun r _ =>
       if String.eqb (telegram.url r)
                     "https://api.telegram.org/bot123:abc/sendMediaGroup"
       then telegram.Status 400
       else telegram.Status 200 |}.

Definition fields0 : list (string * option string) :=
  [("Full Name", Some "Nimal Perera"); ("Alt Phone", None);
   ("Land Mark", Some ""); ("District", Some "Colombo")].

(** The submission of [payload0] as the route receives it, the people count
    given under its second name. *)
Definition form0 : posts.Form :=
  {| posts.full_name := "Nimal Perera";
     posts.phone_number := "077-123 4567";
     posts.alt_phone_number := None;
     posts.location := "12 Lake Road, Colombo 07";
     posts.land_mark := None;
     posts.district := Some "Colombo";
     posts.emergency_type := "flood";
     posts.number_of_peoples_to_rescue := None;
     posts.number_of_peoples := Some 4;
     posts.is_medical_needed := true;
     posts.water_level := Some "knee";
     posts.safe_hours := Some 3;
     posts.need_foods := false;
     posts.need_water := true;
     posts.need_transport := false;
     posts.need_medic := false;
     posts.need_power := false;
     posts.need_clothes := false;
     posts.description := None;
     posts.priority_level := " High ";
     posts.location_url := "https://maps.example/?q=6.9,79.8" |}.

Definition route_created0 : result (row * list row) * World :=
  posts.create_rescue_post settings0 [photo0] form0 world0.

End examples.

(* ===================================================================== *)
(** * Theorems *)
(* ===================================================================== *)

Import Py exception_handlers settings supabase spaces_client.
Import rescue_posts posts_repository posts_service spec examples.

(** ** Admin authorization gate *)

Section auth_gate.
Import auth.

Lemma truthy_str_configured (s : Settings) :
  truthy_str (admin_token s) = true <-> configured s.
Proof.
  unfold configured. destruct (admin_token s) as [secret|]; simpl.
  - rewrite negb_true_iff, String.eqb_neq. split.
    + intros Hne. exists secret. split; [reflexivity | exact Hne].
    + intros (secret' & Heq & Hne). congruence.
  - split; [discriminate | intros (secret & Heq & _); discriminate].
Qed.

(** C7: with the secret unconfigured the gate fails with status 500 whatever
    the token; with it configured, a missing or different token fails with
    status 401; access is granted exactly when the secret is configured and
    the supplied token equals it. *)
Theorem require_admin_token_gate (s : Settings) (x_api_token : option string) :
  (~ configured s -> fails_with (require_admin_token s x_api_token) 500)
  /\ (configured s -> x_api_token <> admin_token s ->
      fails_with (require_admin_token s x_api_token) 401)
  /\ (require_admin_token s x_api_token = Return tt
      <-> configured s /\ x_api_token = admin_token s).
Proof.
  pose proof (truthy_str_configured s) as Hconf.
  unfold require_admin_token, fails_with.
  destruct (truthy_str (admin_token s)) eqn:Hsecret; simpl.
  - assert (configured s) as Hc by (apply Hconf; reflexivity).
    destruct (decide (x_api_token = admin_token s)) as [Heq | Hdiff].
    + (* the token is the secret *)
      rewrite Heq, Hsecret. simpl.
      rewrite bool_decide_eq_false_2 by (intros Hn; apply Hn; reflexivity).
      split; [tauto | split; [tauto | split; [tauto | reflexivity]]].
    + rewrite (bool_decide_eq_true_2 _ Hdiff), orb_true_r.
      split; [tauto | split; [| split; [discriminate | tauto]]].
      intros _ _. eexists. split; reflexivity.
  - assert (~ configured s) as Hn.
    { intros Hc. apply Hconf in Hc. discriminate. }
    split; [| split; [tauto | split; [discriminate | tauto]]].
    intros _. eexists. split; reflexivity.
Qed.

End auth_gate.

Lemma require_admin_token_gate_witness :
  configured settings0
  /\ auth.require_admin_token settings0 (Some "s3cret") = Return tt
  /\ fails_with (auth.require_admin_token settings0 (Some "guess")) 401.
Proof.
  assert (configured settings0) as Hc.
  { exists "s3cret". split; [reflexivity | discriminate]. }
  destruct (require_admin_token_gate settings0 (Some "s3cret"))
    as (_ & _ & Hgrant).
  destruct (require_admin_token_gate settings0 (Some "guess"))
    as (_ & Hdeny & _).
  split; [exact Hc |].
  split; [apply Hgrant; split; [exact Hc | reflexivity] |].
  apply Hdeny; [exact Hc | discriminate].
Defined.

(** ** Criticality scorer *)

Section scorer_facts.
Variable iso_timestamp : string -> option Qc.

Lemma water_map_table (tag : string) :
  default 0 (water_map !! tag) = spec_water_table tag.
Proof.
  unfold water_map, spec_water_table.
  repeat (rewrite lookup_insert; case_decide;
          [subst tag; reflexivity | ];
          match goal with
          | H : _ <> tag |- _ =>
              apply String.eqb_neq in H; rewrite String.eqb_sym in H;
              rewrite H; clear H
          end).
  rewrite lookup_empty. reflexivity.
Qed.

Lemma add_weight (b : bool) (score w : Z) :
  (if b then score + w else score) = score + weight b w.
Proof. destruct b; simpl; lia. Qed.

Lemma truthy_flag (post : row) (name : string) :
  null_or_bool (get post name) -> truthy (get post name) = flag post name.
Proof.
  unfold flag. destruct (get post name) as [| [] | | | |]; simpl; tauto.
Qed.

Lemma people_or_zero (post : row) :
  null_or_int (get post "number_of_peoples_to_rescue") ->
  isinstance_int (py_or (get post "number_of_peoples_to_rescue") (PInt 0))
  = Some (people_count post).
Proof.
  unfold people_count, py_or.
  destruct (get post "number_of_peoples_to_rescue") as [| | n | | |];
    simpl; try tauto.
  intros _. destruct (n =? 0) eqn:Hn; simpl; [| reflexivity].
  apply Z.eqb_eq in Hn. subst n. reflexivity.
Qed.

Lemma water_or_empty (post : row) :
  null_or_str (get post "water_level") ->
  isinstance_str (py_or (get post "water_level") (PStr ""))
  = Some match get post "water_level" with PStr s => s | _ => "" end.
Proof.
  unfold py_or.
  destruct (get post "water_level") as [| | | s | |]; simpl; try tauto.
  intros _. destruct (String.eqb s "") eqn:Hs; simpl; [| reflexivity].
  apply String.eqb_eq in Hs. subst s. reflexivity.
Qed.

(** On a post with the columns' types the scorer returns, and its score is
    the sum of the specification's terms. *)
Lemma priority_score_typed (post : row) :
  post_typed post ->
  _priority_score iso_timestamp post
  = Return (spec_score post,
            tie_breaker_of iso_timestamp
              (py_or (get post "created_at") (PStr ""))).
Proof.
  intros (Hpeople & Hwater & Hflags).
  repeat (apply Forall_cons in Hflags as [? Hflags]).
  unfold _priority_score, needs.
  rewrite people_or_zero, water_or_empty by assumption.
  simpl.
  rewrite water_map_table.
  rewrite !truthy_flag by assumption.
  rewrite !add_weight.
  do 2 f_equal.
  unfold spec_score, spec_people_term, spec_water_term, spec_safe_hours_term,
    spec_safe_hours_tier.
  assert (spec_water_table (lower "") = 0) as Hempty by reflexivity.
  destruct (get post "water_level"); simpl in Hwater; try tauto;
    rewrite ?Hempty;
    destruct (isinstance_int (get post "safe_hours")) as [hours|];
    repeat case_match; lia.
Qed.

Lemma P1_typed : post_typed P1.
Proof. repeat split; repeat constructor. Qed.

Lemma P2_typed : post_typed P2.
Proof. repeat split; repeat constructor. Qed.

(** C1: the score of a post is the sum of the people term
    (min(count, 50) times 2, a missing count being 0), the water-level term
    of the lower-cased tag (head 9, neck 8, chest 7, shoulder 6, waist 5,
    knee 3, ankle 1, anything else 0), 10 for is_medical_needed, 6 for
    need_medic, 2 for each of the five other need flags, the safe-hours bonus
    (6, 4, 2 or 0, counted only for an integer) and 1 for is_verified; the
    example posts P1 and P2 score 31 and 13. *)
Theorem priority_score_is_sum_of_terms (post : row) :
  post_typed post ->
  fst <$> _priority_score iso_timestamp post = Return (spec_score post)
  /\ fst <$> _priority_score iso_timestamp P1 = Return 31
  /\ fst <$> _priority_score iso_timestamp P2 = Return 13.
Proof.
  intros Htyped.
  rewrite (priority_score_typed post Htyped).
  rewrite (priority_score_typed P1 P1_typed).
  rewrite (priority_score_typed P2 P2_typed).
  repeat split.
Qed.

End scorer_facts.

Lemma priority_score_is_sum_of_terms_witness :
  post_typed P1
  /\ fst <$> _priority_score no_timestamp P1 = Return (spec_score P1)
  /\ spec_score P1 = 31.
Proof.
  split; [exact P1_typed |].
  split; [| reflexivity].
  exact (proj1 (priority_score_is_sum_of_terms no_timestamp P1 P1_typed)).
Defined.

(** ** Top-critical ranking *)

Section ranking_facts.

Lemma key_lt_false (a b : Z * Qc) : key_lt a b = false <-> pair_le b a.
Proof.
  unfold key_lt, pair_le. destruct a as [a1 a2], b as [b1 b2]. simpl.
  destruct (a1 =? b1) eqn:Heq; simpl.
  - apply Z.eqb_eq in Heq. subst b1.
    rewrite bool_decide_eq_false. split.
    + intros Hnlt. right. split; [reflexivity | apply Qcnot_lt_le, Hnlt].
    + intros [Hlt | [_ Hle]]; [lia | apply Qcle_not_lt, Hle].
  - apply Z.eqb_neq in Heq. rewrite Z.ltb_ge. split.
    + intros Hle. left. lia.
    + intros [Hlt | [Heq' _]]; [lia | congruence].
Qed.

Lemma key_lt_true (a b : Z * Qc) : key_lt a b = true -> pair_le a b.
Proof.
  unfold key_lt, pair_le. destruct a as [a1 a2], b as [b1 b2]. simpl.
  destruct (a1 =? b1) eqn:Heq; simpl.
  - apply Z.eqb_eq in Heq. subst b1. rewrite bool_decide_eq_true.
    intros Hlt. right. split; [reflexivity | apply Qclt_le_weak, Hlt].
  - rewrite Z.ltb_lt. intros Hlt. left. exact Hlt.
Qed.

Lemma pair_le_trans (a b c : Z * Qc) : pair_le a b -> pair_le b c -> pair_le a c.
Proof.
  unfold pair_le. intros [Hab | [Hab Hab']] [Hbc | [Hbc Hbc']].
  - left. lia.
  - left. lia.
  - left. lia.
  - right. split; [congruence | eapply Qcle_trans; eassumption].
Qed.

Context {A : Type}.

Lemma insert_reverse_perm (x : (Z * Qc) * A) l : insert_reverse x l ≡ₚ x :: l.
Proof.
  induction l as [| y l IH]; simpl; [reflexivity |].
  destruct (key_lt (fst x) (fst y)); [| reflexivity].
  rewrite IH. apply Permutation_swap.
Qed.

Lemma insert_reverse_sorted (x : (Z * Qc) * A) l :
  keys_descending l -> keys_descending (insert_reverse x l).
Proof.
  unfold keys_descending.
  induction l as [| y l IH]; simpl; intros Hsorted.
  - repeat constructor.
  - apply StronglySorted_inv in Hsorted as [Hsorted Hall].
    destruct (key_lt (fst x) (fst y)) eqn:Hlt.
    + constructor; [apply IH, Hsorted |].
      rewrite insert_reverse_perm. constructor; [| exact Hall].
      apply key_lt_true, Hlt.
    + apply key_lt_false in Hlt.
      constructor; [constructor; assumption |].
      constructor; [exact Hlt |].
      eapply Forall_impl; [exact Hall |].
      intros z Hz. simpl in Hz. eapply pair_le_trans; eassumption.
Qed.

Lemma sort_reverse_perm (l : list ((Z * Qc) * A)) : sort_reverse l ≡ₚ l.
Proof.
  induction l as [| x l IH]; simpl; [reflexivity |].
  rewrite insert_reverse_perm, IH. reflexivity.
Qed.

Lemma sort_reverse_sorted (l : list ((Z * Qc) * A)) :
  keys_descending (sort_reverse l).
Proof.
  induction l as [| x l IH]; simpl.
  - constructor.
  - apply insert_reverse_sorted, IH.
Qed.

Lemma descending_items (key : A -> Z * Qc) (l : list ((Z * Qc) * A)) :
  keys_descending l ->
  Forall (fun x => fst x = key (snd x)) l ->
  descending key (snd <$> l).
Proof.
  unfold keys_descending, descending.
  induction 1 as [| x l Hsorted IH Hall]; intros Hkeys; simpl.
  - constructor.
  - apply Forall_cons in Hkeys as [Hx Hkeys].
    constructor; [apply IH, Hkeys |].
    apply Forall_fmap. rewrite Forall_forall in *.
    intros y Hy. simpl. rewrite <- Hx, <- (Hkeys y Hy). apply Hall, Hy.
Qed.

Lemma zip_with_keys (key : A -> Z * Qc) (l : list A) :
  zip (key <$> l) l = (fun x => (key x, x)) <$> l.
Proof. induction l as [| x l IH]; simpl; [reflexivity | f_equal; exact IH]. Qed.

Lemma mapM_all_return {B} (f : A -> result B) (g : A -> B) (l : list A) :
  Forall (fun x => f x = Return (g x)) l -> mapM f l = Return (g <$> l).
Proof.
  induction 1 as [| x l Hx _ IH]; [reflexivity |].
  change (mapM f (x :: l)) with (y ← f x; k ← mapM f l; mret (y :: k)).
  rewrite Hx, IH. reflexivity.
Qed.

(** Sorting with a key that returns on every item: a descending rearrangement
    of the items. *)
Lemma sorted_reverse_spec (f : A -> result (Z * Qc)) (key : A -> Z * Qc)
    (l : list A) :
  Forall (fun x => f x = Return (key x)) l ->
  exists ranked,
    sorted_reverse f l = Return ranked
    /\ ranked ≡ₚ l
    /\ descending key ranked.
Proof.
  intros Hkeys. unfold sorted_reverse.
  rewrite (mapM_all_return f key l Hkeys).
  unfold mbind, result_bind.
  rewrite zip_with_keys.
  eexists. split; [reflexivity |]. split.
  - rewrite sort_reverse_perm, <- list_fmap_compose.
    rewrite <- (list_fmap_id l) at 2. reflexivity.
  - apply descending_items; [apply sort_reverse_sorted |].
    rewrite sort_reverse_perm. apply Forall_fmap, Forall_true. reflexivity.
Qed.

Lemma descending_lookup (key : A -> Z * Qc) (l : list A) (i j : nat) (x y : A) :
  descending key l -> l !! i = Some x -> l !! j = Some y -> (i < j)%nat ->
  pair_le (key y) (key x).
Proof.
  unfold descending. intros Hsorted. revert i j.
  induction Hsorted as [| z l Hsorted IH Hall]; intros i j Hi Hj Hlt.
  - rewrite lookup_nil in Hi. discriminate.
  - destruct j as [| j]; [lia |]. simpl in Hj.
    destruct i as [| i]; simpl in Hi.
    + injection Hi as ->. rewrite Forall_forall in Hall.
      apply Hall. eapply list_elem_of_lookup_2, Hj.
    + apply (IH i j); [assumption | assumption | lia].
Qed.

End ranking_facts.

Section top_critical.
Variable iso_timestamp : string -> option Qc.

Lemma tie_breaker_is_spec (post : row) :
  tie_breaker_of iso_timestamp (py_or (get post "created_at") (PStr ""))
  = spec_tiebreak iso_timestamp post.
Proof.
  unfold tie_breaker_of, spec_tiebreak, created_seconds.
  destruct (py_or (get post "created_at") (PStr "")); reflexivity.
Qed.

Lemma priority_score_key (post : row) :
  post_typed post ->
  _priority_score iso_timestamp post = Return (spec_key iso_timestamp post).
Proof.
  intros Htyped. rewrite (priority_score_typed _ _ Htyped).
  rewrite tie_breaker_is_spec. reflexivity.
Qed.

Lemma slice_to_nonneg {A} (limit : Z) (l : list A) :
  0 <= limit -> slice_to limit l = take (Z.to_nat limit) l.
Proof.
  intros Hlimit. unfold slice_to.
  destruct (0 <=? limit) eqn:Hle; [reflexivity | lia].
Qed.

(** C2: the top-critical operation returns the first N items of the posts
    sorted descending by the pair (score, tiebreak), the tiebreak being the
    negated epoch seconds of the creation timestamp and 0 for a timestamp
    that cannot be parsed; so among equal scores a post with an earlier
    parseable timestamp stands before one with a later timestamp. *)
Theorem top_critical_is_head_of_ranking (limit : Z) (supabase supabase' : Client)
    (posts : list row) :
  fetch_rescue_posts_with_images supabase = (Return posts, supabase') ->
  Forall post_typed posts ->
  0 <= limit ->
  exists ranked,
    ranked ≡ₚ posts
    /\ descending (spec_key iso_timestamp) ranked
    /\ list_top_critical_posts iso_timestamp limit supabase
       = (Return (take (Z.to_nat limit) ranked), supabase')
    /\ (forall i j a b ta tb,
          ranked !! i = Some a -> ranked !! j = Some b ->
          spec_score a = spec_score b ->
          created_seconds iso_timestamp a = Some ta ->
          created_seconds iso_timestamp b = Some tb ->
          (ta < tb)%Qc -> (i < j)%nat).
Proof.
  intros Hfetch Htyped Hlimit.
  destruct (sorted_reverse_spec (_priority_score iso_timestamp)
                                (spec_key iso_timestamp) posts)
    as (ranked & Hsorted & Hperm & Hdesc).
  { eapply Forall_impl; [exact Htyped |]. apply priority_score_key. }
  exists ranked. split; [exact Hperm |]. split; [exact Hdesc |]. split.
  - unfold list_top_critical_posts, st_bind, st_lift, st_ret.
    rewrite Hfetch, Hsorted, slice_to_nonneg by exact Hlimit. reflexivity.
  - intros i j a b ta tb Ha Hb Hscore Hta Htb Hearlier.
    assert (pair_le (spec_key iso_timestamp a) (spec_key iso_timestamp b)
            -> False) as Hnot.
    { unfold pair_le, spec_key, spec_tiebreak. rewrite Hta, Htb. simpl.
      intros [Hlt | [_ Hle]]; [lia |].
      apply Qcopp_le_compat in Hle. rewrite !Qcopp_involutive in Hle.
      eapply Qclt_not_le; eassumption. }
    destruct (Nat.lt_trichotomy i j) as [Hlt | [Heq | Hgt]]; [exact Hlt | |].
    + subst j. rewrite Ha in Hb. injection Hb as ->.
      rewrite Hta in Htb. injection Htb as ->.
      exfalso. eapply Qclt_not_le; [exact Hearlier | apply Qcle_refl].
    + exfalso. apply Hnot.
      exact (descending_lookup _ _ _ _ _ _ Hdesc Hb Ha Hgt).
Qed.

End top_critical.

Lemma top_critical_is_head_of_ranking_witness :
  exists ranked,
    ranked ≡ₚ embed_images tables0 <$> [late_P2; stored_P1; early_P2]
    /\ descending (spec_key iso0) ranked
    /\ fst (list_top_critical_posts iso0 default_limit client0)
       = Return (take 3 ranked).
Proof.
  destruct (top_critical_is_head_of_ranking iso0 default_limit client0
              (snd (fetch_rescue_posts_with_images client0))
              (embed_images tables0 <$> [late_P2; stored_P1; early_P2]))
    as (ranked & Hperm & Hdesc & Htop & _).
  - reflexivity.
  - repeat constructor.
  - unfold default_limit. lia.
  - exists ranked. split; [exact Hperm |]. split; [exact Hdesc |].
    rewrite Htop. reflexivity.
Defined.

(** ** Submission validator: phone numbers *)

Section phone_facts.

Lemma filter_string_length (p : ascii -> bool) (s : string) :
  (String.length (filter_string p s) <= String.length s)%nat.
Proof.
  induction s as [| c s IH]; simpl; [lia |].
  destruct (p c); simpl; lia.
Qed.

Lemma digit_count_le_len (s : string) : digit_count s <= len s.
Proof.
  unfold digit_count, digits, len.
  pose proof (filter_string_length isdigit s). lia.
Qed.

(** [_validate_phone] strips first and then checks the count of digits. *)
Lemma validate_phone_spec (number field_name : string) :
  match _validate_phone number field_name with
  | Return d => d = digits number /\ 7 <= digit_count number <= 15
  | Raise e =>
      is_caller_input_error e = true
      /\ (digit_count number <= 6 \/ 16 <= digit_count number)
  end.
Proof.
  unfold _validate_phone, digit_count, digits.
  destruct (len (filter_string isdigit number) <? 7) eqn:Hlow;
    destruct (15 <? len (filter_string isdigit number)) eqn:Hhigh;
    simpl; (split; [reflexivity | lia]).
Qed.

Lemma phone_field (data : Payload) :
  lookup_field "phone_number" (model_fields data)
  = Some (str_field (phone_number data) required (Some 7) (Some 20)
                    (Some validate_primary_phone)).
Proof. reflexivity. Qed.

(** C4, amended: [_validate_phone] strips the non-digit characters before
    its length check and rejects exactly when 6 or fewer or 16 or more digits
    are left; the phone_number field checks its declared length bounds on the
    raw input first, so the input is rejected exactly when the digit count is
    6 or fewer, or 16 or more, or the raw input is longer than 20
    characters. *)
Theorem phone_rejected_by_digits_or_raw_length (data : Payload) (s : string) :
  phone_number data = Some s ->
  (forall field_name,
     match _validate_phone s field_name with
     | Return d => d = digits s /\ 7 <= digit_count s <= 15
     | Raise e =>
         is_caller_input_error e = true
         /\ (digit_count s <= 6 \/ 16 <= digit_count s)
     end)
  /\ (field_accepted data "phone_number" = false
      <-> digit_count s <= 6 \/ 16 <= digit_count s \/ 20 < len s).
Proof.
  intros Hphone. split; [intros field_name; apply validate_phone_spec |].
  unfold field_accepted. rewrite phone_field, Hphone.
  pose proof (digit_count_le_len s) as Hle.
  pose proof (validate_phone_spec s "phone_number") as Hvalidate.
  unfold str_field, str_constraints, validate_primary_phone.
  destruct (len s <? 7) eqn:Hshort; simpl.
  { split; [intros _; lia | reflexivity]. }
  destruct (20 <? len s) eqn:Hlong; simpl.
  { split; [intros _; lia | reflexivity]. }
  destruct (_validate_phone s "phone_number") as [d | e]; simpl.
  - split; [discriminate | lia].
  - destruct Hvalidate as [Hinput Hcount].
    destruct e; simpl in *; try discriminate.
    split; [intros _; lia | reflexivity].
Qed.

End phone_facts.

Lemma phone_rejected_by_digits_or_raw_length_witness :
  phone_number long_phone_payload = Some "+94 (077) 123-4567 ext."
  /\ digit_count "+94 (077) 123-4567 ext." = 12
  /\ field_accepted long_phone_payload "phone_number" = false.
Proof.
  split; [reflexivity |]. split; [reflexivity |].
  apply (phone_rejected_by_digits_or_raw_length long_phone_payload
           "+94 (077) 123-4567 ext." eq_refl).
  right. right. vm_compute. reflexivity.
Defined.

(** With twelve digits in a raw input of 23 characters the field is
    rejected, which the rule on digit counts alone excludes. *)
Lemma phone_rule_counterexample : ~ claimed_phone_rule long_phone_payload.
Proof.
  intros Hclaim.
  destruct (Hclaim "+94 (077) 123-4567 ext." eq_refl) as [Hrejected _].
  assert (digit_count "+94 (077) 123-4567 ext." = 12) as Hcount
    by reflexivity.
  destruct (Hrejected eq_refl) as [Hlow | Hhigh]; lia.
Qed.

(** ** Submission validator: which violations are reported *)

Section aggregation_facts.

(** The loop of pydantic in closed form. *)
Lemma validate_fields_spec (fields : list (string * Outcome))
    (values : gmap string pyval) (errors : list ErrorDetails) :
  validate_fields fields values errors
  = match escaping fields with
    | Some x => Propagated x
    | None =>
        match (errors ++ collected_errors fields)%list with
        | [] => Model (collected_values fields values)
        | all => ValidationError all
        end
    end.
Proof.
  revert values errors.
  induction fields as [| [name outcome] fields IH]; intros values errors.
  - simpl. rewrite app_nil_r. destruct errors; reflexivity.
  - destruct outcome as [v | e | x]; simpl.
    + apply IH.
    + rewrite IH, <- app_assoc. reflexivity.
    + reflexivity.
Qed.

Lemma violations_without_escape (fields : list (string * Outcome)) :
  escaping fields = None ->
  fst <$> filter (fun f => is_valid (snd f) = false) fields
  = omap (fun f => match snd f with Invalid _ => Some (fst f) | _ => None end)
         fields.
Proof.
  induction fields as [| [name outcome] fields IH]; [reflexivity |].
  destruct outcome as [v | e | x]; intros Hnone; simpl in Hnone.
  - rewrite filter_cons_False by (simpl; discriminate). apply IH, Hnone.
  - rewrite filter_cons_True by reflexivity.
    rewrite fmap_cons. simpl. f_equal. apply IH, Hnone.
  - discriminate.
Qed.

Lemma formatted_field (name : string) (e : ErrorType) :
  name <> "__root__" ->
  error_fields [formatted_dict (format_error {| loc := [name]; type := e |})]
  = [name].
Proof.
  intros Hname. unfold format_error, formatted_dict, error_fields. simpl.
  rewrite filter_cons_True by exact Hname. rewrite filter_nil. simpl.
  rewrite lookup_insert_eq, lookup_insert_ne, lookup_insert_eq by discriminate.
  reflexivity.
Qed.

Lemma error_fields_cons (e : pyval) (errors : list pyval) :
  error_fields (e :: errors) = (error_fields [e] ++ error_fields errors)%list.
Proof. unfold error_fields. simpl. destruct e; try reflexivity.
  destruct (d !! "field") as [[]|]; try reflexivity.
  destruct (d !! "message") as [[]|]; reflexivity.
Qed.

Lemma reported_fields (fields : list (string * Outcome)) :
  Forall (fun f => fst f <> "__root__") fields ->
  error_fields (_format_pydantic_errors (collected_errors fields))
  = omap (fun f => match snd f with Invalid _ => Some (fst f) | _ => None end)
         fields.
Proof.
  induction 1 as [| [name outcome] fields Hname _ IH]; [reflexivity |].
  destruct outcome as [v | e | x]; try exact IH.
  change (collected_errors ((name, Invalid e) :: fields))
    with ({| loc := [name]; type := e |} :: collected_errors fields).
  unfold _format_pydantic_errors in *. rewrite fmap_cons.
  rewrite error_fields_cons, IH. unfold compose.
  rewrite (formatted_field name e Hname). reflexivity.
Qed.

Lemma model_field_names (data : Payload) :
  Forall (fun f => fst f <> "__root__") (model_fields data).
Proof. unfold model_fields. repeat constructor; discriminate. Qed.

Lemma escaping_elem (fields : list (string * Outcome)) (x : Exception) :
  escaping fields = Some x -> exists name, (name, Raised x) ∈ fields.
Proof.
  induction fields as [| [name outcome] fields IH]; [discriminate |].
  destruct outcome as [v | e | y]; simpl; intros Hx.
  - destruct (IH Hx) as [n Hn]. exists n. right. exact Hn.
  - destruct (IH Hx) as [n Hn]. exists n. right. exact Hn.
  - injection Hx as ->. exists name. left.
Qed.

Lemma validate_urls_loop_raises (urls cleaned : list string) (x : Exception) :
  _validate_urls_loop urls cleaned = Raise x -> names_one_field x "image_urls".
Proof.
  revert cleaned. induction urls as [| url urls IH]; intros cleaned; simpl.
  - discriminate.
  - destruct (String.eqb (strip url) ""); [apply IH |].
    destruct (has_http_scheme (strip url)); simpl; [apply IH |].
    intros [= <-]. eexists _, _. split; [reflexivity |]. right. eauto.
Qed.

Lemma run_validator_raised {A} (wrap : A -> pyval) (r : result A)
    (x : Exception) :
  run_validator wrap r = Raised x -> r = Raise x.
Proof.
  unfold run_validator. destruct r as [a | e]; [discriminate |].
  destruct e; intros [= <-]; reflexivity.
Qed.

Lemma validate_phone_raises (number field_name : string) (x : Exception) :
  _validate_phone number field_name = Raise x -> names_one_field x field_name.
Proof.
  unfold _validate_phone. case_match; intros [= <-].
  eexists _, _. split; [reflexivity | left; reflexivity].
Qed.

Lemma validate_priority_raises (value : string) (x : Exception) :
  validate_priority_level value = Raise x ->
  names_one_field x "priority_level".
Proof.
  unfold validate_priority_level. case_match; intros [= <-].
  eexists _, _. split; [reflexivity | right; eauto].
Qed.

Lemma validate_url_raises (url field_name : string) (x : Exception) :
  _validate_url url field_name = Raise x -> names_one_field x field_name.
Proof.
  unfold _validate_url. repeat case_match; intros [= <-].
  - eexists _, _. split; [reflexivity | left; reflexivity].
  - eexists _, _. split; [reflexivity | right; eauto].
Qed.

Lemma validate_urls_raises (urls : list string) (x : Exception) :
  _validate_urls urls = Raise x -> names_one_field x "image_urls".
Proof.
  unfold _validate_urls.
  destruct (_validate_urls_loop urls []) as [cleaned | e] eqn:Hloop; simpl.
  - destruct cleaned; intros [= <-].
    eexists _, _. split; [reflexivity | left; reflexivity].
  - intros [= <-]. eapply validate_urls_loop_raises, Hloop.
Qed.

Lemma str_field_raised (input : option string) (default_value : option pyval)
    (min_length max_length : option Z)
    (after : option (string -> result string)) (x : Exception) :
  str_field input default_value min_length max_length after = Raised x ->
  exists f s, after = Some f /\ f s = Raise x.
Proof.
  unfold str_field.
  destruct input as [s |]; [| destruct default_value; discriminate].
  destruct (str_constraints min_length max_length s); [discriminate |].
  destruct after as [f |]; [| discriminate].
  intros Hraised. exists f, s. split; [reflexivity |].
  eapply run_validator_raised, Hraised.
Qed.

Lemma int_field_not_raised (input ge le : option Z) (x : Exception) :
  int_field input ge le <> Raised x.
Proof.
  unfold int_field. destruct input as [n |]; [| discriminate].
  destruct (int_constraints ge le n); discriminate.
Qed.

Lemma bool_field_not_raised (input : option bool) (d : bool) (x : Exception) :
  bool_field input d <> Raised x.
Proof. unfold bool_field. destruct input; discriminate. Qed.

Lemma str_list_field_raised (input : option (list string))
    (after : list string -> result (list string)) (x : Exception) :
  str_list_field input after = Raised x -> exists l, after l = Raise x.
Proof.
  unfold str_list_field. destruct input as [l |]; [| discriminate].
  intros Hraised. exists l. eapply run_validator_raised, Hraised.
Qed.

Ltac field_raised H :=
  first
    [ apply str_field_raised in H as (? & ? & [= <-] & H)
    | apply str_field_raised in H as (? & ? & [=] & _)
    | apply int_field_not_raised in H; contradiction
    | apply bool_field_not_raised in H; contradiction
    | apply str_list_field_raised in H as (? & H) ].

(** Whatever a field validator lets through names the field it checked. *)
Lemma raised_names_field (data : Payload) (name : string) (x : Exception) :
  (name, Raised x) ∈ model_fields data -> names_one_field x name.
Proof.
  unfold model_fields. intros Hin.
  repeat (apply elem_of_cons in Hin as [Hin | Hin]);
    try (apply elem_of_nil in Hin; contradiction);
    injection Hin as -> Hraised; symmetry in Hraised;
    field_raised Hraised.
  - eapply validate_phone_raises, Hraised.
  - eapply validate_phone_raises, Hraised.
  - eapply validate_priority_raises, Hraised.
  - eapply validate_url_raises, Hraised.
  - eapply validate_urls_raises, Hraised.
Qed.

Lemma collected_errors_length (fields : list (string * Outcome)) :
  length (collected_errors fields)
  = length (omap (fun f => match snd f with
                           | Invalid _ => Some (fst f)
                           | _ => None
                           end) fields).
Proof.
  induction fields as [| [name outcome] fields IH]; [reflexivity |].
  destruct outcome; simpl; [exact IH | f_equal; exact IH | exact IH].
Qed.

Lemma raised_is_violation (fields : list (string * Outcome)) (name : string)
    (x : Exception) :
  (name, Raised x) ∈ fields ->
  name ∈ fst <$> filter (fun f => is_valid (snd f) = false) fields.
Proof.
  intros Hin.
  apply (list_elem_of_fmap_2 fst _ (name, Raised x)).
  apply list_elem_of_filter. split; [reflexivity | exact Hin].
Qed.

(** C3, amended: when no field validator raises, the validator fails with one
    structured error whose details enumerate every violated field, each with
    a field name and a message; when a field that passes its declared
    constraints is rejected by its validator, the validator fails with the
    error of the first such field, and its details name that field only. *)
Theorem validation_reports (data : Payload) :
  (escaping (model_fields data) = None ->
   violations data <> [] ->
   exists errors,
     validate_with_app_error data
     = Raise (InvalidDataException "Invalid rescue post data"
                                   [("errors", PList errors)])
     /\ error_fields errors = violations data
     /\ length errors = length (violations data))
  /\ (forall x,
        escaping (model_fields data) = Some x ->
        validate_with_app_error data = Raise x
        /\ exists name, name ∈ violations data /\ names_one_field x name).
Proof.
  unfold validate_with_app_error, model_validate, violations.
  rewrite validate_fields_spec.
  pose proof (model_field_names data) as Hnames.
  pose proof (raised_names_field data) as Hraised.
  revert Hnames Hraised. generalize (model_fields data) as fields.
  intros fields Hnames Hraised. split.
  - intros Hnone Hsome. rewrite Hnone.
    rewrite (violations_without_escape _ Hnone) in *.
    rewrite app_nil_l.
    pose proof (collected_errors_length fields) as Hlength.
    exists (_format_pydantic_errors (collected_errors fields)).
    split; [| split].
    + destruct (collected_errors fields) as [| e errors]; [| reflexivity].
      exfalso. apply Hsome. apply nil_length_inv. symmetry. exact Hlength.
    + apply reported_fields, Hnames.
    + unfold _format_pydantic_errors. rewrite length_fmap. exact Hlength.
  - intros x Hx. rewrite Hx. split; [reflexivity |].
    destruct (escaping_elem _ _ Hx) as [name Hin].
    exists name. split.
    + eapply raised_is_violation, Hin.
    + eapply Hraised, Hin.
Qed.

End aggregation_facts.

Lemma validation_reports_witness :
  (exists errors,
     validate_with_app_error two_short_fields_payload
     = Raise (InvalidDataException "Invalid rescue post data"
                                   [("errors", PList errors)])
     /\ error_fields errors = ["phone_number"; "priority_level"])
  /\ validate_with_app_error two_violations_payload
     = Raise (InvalidDataException "Phone Number must have 7-15 digits"
                                   [("field", PStr "phone_number")]).
Proof.
  split.
  - destruct (proj1 (validation_reports two_short_fields_payload))
      as (errors & Hfails & Hfields & _).
    + reflexivity.
    + discriminate.
    + exists errors. split; [exact Hfails | exact Hfields].
  - apply (proj2 (validation_reports two_violations_payload)). reflexivity.
Defined.

(** A phone number without digits and a priority level outside the allowed
    three: two violated fields, and an error that names the first only. *)
Lemma aggregation_counterexample : ~ claimed_aggregation two_violations_payload.
Proof.
  intros Hclaim.
  destruct Hclaim as (message & errors & Hfails & _).
  - vm_compute. lia.
  - vm_compute in Hfails. discriminate.
Qed.

(** ** Persisted phone numbers *)

Section phone_storage_facts.

Lemma collected_values_other (fields : list (string * Outcome))
    (values : gmap string pyval) (name : string) :
  name ∉ fst <$> fields ->
  collected_values fields values !! name = values !! name.
Proof.
  revert values. induction fields as [| [n o] fields IH]; intros values Hnot.
  - reflexivity.
  - rewrite fmap_cons, not_elem_of_cons in Hnot. destruct Hnot as [Hne Hnot].
    simpl in Hne. unfold collected_values in *. simpl.
    rewrite IH by exact Hnot.
    destruct o; simpl; [apply lookup_insert_ne; congruence | | ]; reflexivity.
Qed.

(** When the loop ends without an error, every field was valid and its value
    is stored under its name. *)
Lemma collected_values_lookup (fields : list (string * Outcome))
    (values : gmap string pyval) (name : string) (o : Outcome) :
  escaping fields = None ->
  collected_errors fields = [] ->
  NoDup (fst <$> fields) ->
  (name, o) ∈ fields ->
  exists v, o = Valid v /\ collected_values fields values !! name = Some v.
Proof.
  revert values. induction fields as [| [n o'] fields IH];
    intros values Hescape Herrors Hnodup Hin.
  - apply elem_of_nil in Hin. contradiction.
  - rewrite fmap_cons in Hnodup. apply NoDup_cons in Hnodup as [Hfresh Hnodup].
    destruct o' as [v | e | x]; simpl in Hescape, Herrors; try discriminate.
    apply elem_of_cons in Hin as [[= -> ->] | Hin].
    + exists v. split; [reflexivity |].
      unfold collected_values. simpl.
      change (foldl _ ?a ?l) with (collected_values l a).
      rewrite collected_values_other by exact Hfresh.
      apply lookup_insert_eq.
    + apply (IH _ Hescape Herrors Hnodup Hin).
Qed.

Lemma model_fields_nodup (data : Payload) : NoDup (fst <$> model_fields data).
Proof. apply (bool_decide_unpack _). vm_compute. reflexivity. Qed.

(** A validated model holds the value of each valid field. *)
Lemma validated_field (data : Payload) (validated : row) (name : string)
    (o : Outcome) :
  validate_with_app_error data = Return validated ->
  (name, o) ∈ model_fields data ->
  exists v, o = Valid v /\ validated !! name = Some v.
Proof.
  unfold validate_with_app_error, model_validate.
  rewrite validate_fields_spec.
  pose proof (model_fields_nodup data) as Hnodup.
  revert Hnodup. generalize (model_fields data) as fields.
  intros fields Hnodup Hvalidated Hin.
  destruct (escaping fields) eqn:Hescape; [discriminate |].
  rewrite app_nil_l in Hvalidated.
  destruct (collected_errors fields) eqn:Herrors; [| discriminate].
  injection Hvalidated as <-.
  apply collected_values_lookup; assumption.
Qed.

Lemma filter_string_idemp (p : ascii -> bool) (s : string) :
  filter_string p (filter_string p s) = filter_string p s.
Proof.
  induction s as [| c s IH]; simpl; [reflexivity |].
  destruct (p c) eqn:Hc; simpl; [rewrite Hc, IH |]; auto.
Qed.

Lemma py_int_digits (s : string) :
  7 <= digit_count s ->
  py_int (PStr (digits s)) = Return (PInt (int_of_digits (digits s))).
Proof.
  unfold digit_count, digits, len, py_int. intros Hcount.
  rewrite filter_string_idemp, String.eqb_refl.
  destruct (filter_string isdigit s); simpl in *; [lia | reflexivity].
Qed.

(** The value a valid phone field stores. *)
Lemma phone_field_valid (input : option string) (default_value : option pyval)
    (field_name : string) (v : pyval) :
  str_field input default_value (Some 7) (Some 20)
            (Some (fun value => _validate_phone value field_name)) = Valid v ->
  match input with
  | Some s => v = PStr (digits s) /\ 7 <= digit_count s <= 15
  | None => default_value = Some v
  end.
Proof.
  unfold str_field. destruct input as [s |].
  - destruct (str_constraints (Some 7) (Some 20) s); [discriminate |].
    pose proof (validate_phone_spec s field_name) as Hspec.
    unfold run_validator.
    destruct (_validate_phone s field_name) as [d | e].
    + intros [= <-]. destruct Hspec as [-> Hcount]. tauto.
    + destruct e; discriminate.
  - destruct default_value; [intros [= ->]; reflexivity | discriminate].
Qed.

End phone_storage_facts.

Section create_facts.

Lemma pair_of_projections {A B} (p : A * B) (a : A) (b : B) :
  fst p = a -> snd p = b -> p = (a, b).
Proof. destruct p. simpl. congruence. Qed.

Lemma st_bind_returns {S A B} (m : stateful S A) (f : A -> stateful S B)
    (s s' : S) (b : B) :
  st_bind m f s = (Return b, s') ->
  exists a s1, m s = (Return a, s1) /\ f a s1 = (Return b, s').
Proof.
  unfold st_bind. destruct (m s) as [[a | e] s1]; [| discriminate].
  intros Hf. exists a, s1. split; [reflexivity | exact Hf].
Qed.

Lemma st_lift_returns {S A} (r : result A) (s s' : S) (a : A) :
  st_lift r s = (Return a, s') -> r = Return a /\ s' = s.
Proof. unfold st_lift. intros [= -> ->]. split; reflexivity. Qed.

Lemma on_supabase_returns {A} (m : stateful Client A) (w w' : World) (a : A) :
  on_supabase m w = (Return a, w') ->
  exists c, m (supabase_client w) = (Return a, c) /\ w' = with_supabase w c.
Proof.
  unfold on_supabase. destruct (m (supabase_client w)) as [r c].
  intros [= -> <-]. exists c. split; reflexivity.
Qed.

Lemma rows_of_insert (t : gmap string (list row)) (name : string)
    (rows : list row) :
  rows_of (<[name := rows]> t) name = rows.
Proof. unfold rows_of. rewrite lookup_insert_eq. reflexivity. Qed.

Lemma rows_of_insert_ne (t : gmap string (list row)) (name other : string)
    (rows : list row) :
  name <> other -> rows_of (<[name := rows]> t) other = rows_of t other.
Proof. intros Hne. unfold rows_of. rewrite lookup_insert_ne by exact Hne. reflexivity. Qed.

(** A successful insert of a post stores the payload, completed with the
    columns the database fills in, as a new last row, and returns it. *)
Lemma insert_rescue_post_returns (payload post : row) (c c' : Client) :
  insert_rescue_post payload c = (Return post, c') ->
  post = payload ∪ server_columns c "rescue_posts"
                     (length (rows_of (tables c) "rescue_posts") + 0)
  /\ rows_of (tables c') "rescue_posts"
     = (rows_of (tables c) "rescue_posts" ++ [post])%list.
Proof.
  unfold insert_rescue_post, execute.
  destruct (api_error c _ (tables c)); [discriminate |].
  simpl. intros [= <- <-]. split; [reflexivity |].
  simpl. apply rows_of_insert.
Qed.

Lemma insert_images_keeps_posts (images_payload : list row)
    (c c' : Client) (r : result (list row)) :
  insert_images images_payload c = (r, c') ->
  rows_of (tables c') "rescue_posts" = rows_of (tables c) "rescue_posts".
Proof.
  unfold insert_images, execute.
  destruct images_payload as [| image rest]; [intros [= _ <-]; reflexivity |].
  destruct (api_error c _ (tables c)).
  - intros [= _ <-]. reflexivity.
  - simpl.
    set (stored := imap _ _).
    destruct stored; intros [= _ <-]; simpl;
      apply rows_of_insert_ne; discriminate.
Qed.

(** The payload built from a validated model: the phone numbers become the
    integers their digit strings denote. *)
Lemma post_payload_phones (validated post_payload : row) (s : string)
    (alt : option string) :
  validated !! "phone_number" = Some (PStr (digits s)) ->
  7 <= digit_count s ->
  match alt with
  | Some a =>
      validated !! "alt_phone_number" = Some (PStr (digits a))
      /\ 7 <= digit_count a
  | None => validated !! "alt_phone_number" = Some PNone
  end ->
  post_payload_of validated = Return post_payload ->
  post_payload !! "phone_number" = Some (PInt (int_of_digits (digits s)))
  /\ post_payload !! "alt_phone_number"
     = Some match alt with
            | Some a => PInt (int_of_digits (digits a))
            | None => PNone
            end.
Proof.
  intros Hphone Hcount Halt. unfold post_payload_of.
  assert (get validated "phone_number" = PStr (digits s)) as ->
    by (unfold get; rewrite Hphone; reflexivity).
  rewrite (py_int_digits s Hcount).
  destruct alt as [a |].
  - destruct Halt as [Halt Hcount'].
    assert (get validated "alt_phone_number" = PStr (digits a)) as ->
      by (unfold get; rewrite Halt; reflexivity).
    rewrite (py_int_digits a Hcount'). intros [= <-].
    rewrite lookup_insert_ne, lookup_insert_eq by discriminate.
    rewrite lookup_insert_eq. split; reflexivity.
  - assert (get validated "alt_phone_number" = PNone) as ->
      by (unfold get; rewrite Halt; reflexivity).
    intros [= <-].
    rewrite lookup_insert_eq, lookup_insert_ne by discriminate.
    rewrite lookup_delete_ne by discriminate. split; [reflexivity | exact Halt].
Qed.

End create_facts.

(** ** Image intake *)

Section upload_facts.
Variable s : Settings.

Lemma same_services_refl (w : World) : same_services w w.
Proof. repeat split. Qed.

Lemma same_services_trans (w1 w2 w3 : World) :
  same_services w1 w2 -> same_services w2 w3 -> same_services w1 w3.
Proof.
  unfold same_services. intros (? & ? & ? & ?) (? & ? & ? & ?).
  repeat split; congruence.
Qed.

Lemma file_ok_same_services (w w' : World) (f : UploadFile) :
  same_services w w' -> file_ok s w' f = file_ok s w f.
Proof.
  intros (Hguess & _). unfold file_ok, resolved_type. rewrite Hguess.
  reflexivity.
Qed.

Lemma hex_from_length (width : nat) (n : N) :
  String.length (hex_from width n) = width.
Proof. induction width as [| w IH]; simpl; [| rewrite IH]; reflexivity. Qed.

Lemma hex_digit_is_hex (d : N) : (d < 16)%N -> is_hex_char (hex_digit d) = true.
Proof.
  intros Hd.
  assert (d = 0 \/ d = 1 \/ d = 2 \/ d = 3 \/ d = 4 \/ d = 5 \/ d = 6 \/ d = 7
          \/ d = 8 \/ d = 9 \/ d = 10 \/ d = 11 \/ d = 12 \/ d = 13 \/ d = 14
          \/ d = 15)%N as Hcases by lia.
  repeat destruct Hcases as [-> | Hcases]; try subst d; reflexivity.
Qed.

Lemma hex_from_is_hex (width : nat) (n : N) :
  all_chars is_hex_char (hex_from width n) = true.
Proof.
  induction width as [| w IH]; simpl; [reflexivity |].
  rewrite IH, andb_true_r. apply hex_digit_is_hex.
  apply N.mod_upper_bound. discriminate.
Qed.

(** A file that is not valid is refused with a caller-input error before
    anything is drawn or written. *)
Lemma upload_image_invalid (w : World) (f : UploadFile) :
  file_ok s w f = false ->
  exists message details,
    upload_image s f w = (Raise (InvalidDataException message details), w).
Proof.
  unfold file_ok, resolved_type, upload_image, is_image_type, truthy_str.
  destruct (filename f) as [name |]; simpl; [| eauto].
  destruct (String.eqb name ""); simpl; [eauto |].
  unfold st_raise.
  match goal with
  | |- context [match ?ct with Some _ => _ | None => _ end] =>
      destruct ct as [ctype |] eqn:Htype
  end; simpl; [| eauto].
  destruct (String.eqb ctype ""); simpl; [eauto |].
  destruct (startswith ctype "image/"); simpl; [| eauto].
  unfold len_bytes.
  destruct (content f) as [| b body]; simpl; [eauto |].
  intros Hsize.
  match goal with
  | |- context [if ?c then _ else _] => destruct c eqn:Hlarge
  end; [eauto |].
  exfalso. unfold len_bytes in Hlarge. simpl length in *. lia.
Qed.

(** The outcome of the loop body on one file, read off its result. *)
Lemma upload_image_returns (w w' : World) (f : UploadFile) (url : string) :
  upload_image s f w = (Return url, w') ->
  file_ok s w f = true
  /\ url_shape s f url
  /\ (exists o, written_for s f o
                /\ objects (spaces w') = (objects (spaces w) ++ [o])%list)
  /\ same_services w w'.
Proof.
  unfold file_ok, resolved_type, upload_image, is_image_type, truthy_str.
  destruct (filename f) as [name |] eqn:Hname; simpl; [| discriminate].
  destruct (String.eqb name ""); simpl; [discriminate |].
  match goal with
  | |- context [match ?ct with Some _ => _ | None => _ end] =>
      destruct ct as [ctype |] eqn:Htype
  end; simpl; [| discriminate].
  destruct (String.eqb ctype ""); simpl; [discriminate |].
  destruct (startswith ctype "image/"); simpl; [| discriminate].
  destruct (content f) as [| b body] eqn:Hbody; simpl; [discriminate |].
  match goal with
  | |- context [if ?c then _ else _] => destruct c eqn:Hlarge
  end; [discriminate |].
  unfold st_bind, uuid4_hex, st_ret, put_object. simpl.
  match goal with
  | |- context [if ?c then _ else _] => destruct c eqn:Hput
  end; [discriminate |].
  intros [= <- <-]. simpl.
  split; [| split; [| split]].
  - unfold len_bytes in *. simpl length in *. lia.
  - exists name, (hex (uuid4 w (uuids_drawn w))).
    split; [exact Hname |].
    split; [apply hex_from_length |].
    split; [apply hex_from_is_hex |].
    unfold cdn_url, object_key.
    destruct (String.eqb (digitalocean_upload_prefix s) ""); reflexivity.
  - eexists. split; [| reflexivity].
    unfold written_for. simpl. rewrite Hbody. repeat split.
  - repeat split.
Qed.

(** Whatever the loop body does on a file, the services stay the same. *)
Lemma upload_image_services (w : World) (f : UploadFile) :
  same_services w (snd (upload_image s f w)).
Proof.
  unfold upload_image.
  destruct (filename f) as [name |]; [| apply same_services_refl].
  destruct (String.eqb name ""); [apply same_services_refl |].
  repeat case_match; try apply same_services_refl.
  all: unfold st_bind, uuid4_hex, st_ret, put_object in *; simpl in *.
  all: repeat case_match; simplify_eq; simpl; repeat split.
Qed.

(** A valid file goes through when the store accepts the write. *)
Lemma upload_image_valid (w : World) (f : UploadFile) :
  file_ok s w f = true ->
  store_accepts w ->
  exists url w', upload_image s f w = (Return url, w').
Proof.
  unfold file_ok, resolved_type, upload_image, is_image_type, truthy_str,
    store_accepts.
  intros Hok Haccepts.
  destruct (filename f) as [name |]; simpl in *; [| discriminate].
  destruct (String.eqb name ""); simpl in *; [discriminate |].
  match goal with
  | |- context [match ?ct with Some _ => _ | None => _ end] =>
      destruct ct as [ctype |] eqn:Htype
  end; simpl in *; [| discriminate].
  destruct (String.eqb ctype ""); simpl in *; [discriminate |].
  destruct (startswith ctype "image/"); simpl in *; [| discriminate].
  destruct (content f) as [| b body] eqn:Hbody; simpl in *; [discriminate |].
  match goal with
  | |- context [if ?c then _ else _] => destruct c eqn:Hlarge
  end; [unfold len_bytes in *; simpl length in *; lia |].
  unfold st_bind, uuid4_hex, st_ret, put_object. simpl.
  rewrite Haccepts. eauto.
Qed.

Lemma upload_loop_services (files : list UploadFile) (cdn_urls : list string)
    (w : World) :
  same_services w (snd (upload_loop s files cdn_urls w)).
Proof.
  revert cdn_urls w. induction files as [| f files IH]; intros cdn_urls w.
  - apply same_services_refl.
  - simpl. unfold st_bind.
    pose proof (upload_image_services w f) as Hstep.
    destruct (upload_image s f w) as [[url | e] w1]; simpl in *.
    + eapply same_services_trans; [exact Hstep | apply IH].
    + exact Hstep.
Qed.

Lemma upload_services (files : list UploadFile) (w : World) :
  same_services w (snd (upload_images_to_spaces files s w)).
Proof.
  unfold upload_images_to_spaces. destruct files.
  - apply same_services_refl.
  - apply upload_loop_services.
Qed.

Lemma upload_loop_returns (files : list UploadFile) (cdn_urls urls : list string)
    (w w' : World) :
  upload_loop s files cdn_urls w = (Return urls, w') ->
  exists new, urls = (cdn_urls ++ new)%list /\ Forall2 (url_shape s) files new.
Proof.
  revert cdn_urls w. induction files as [| f files IH]; intros cdn_urls w.
  - simpl. intros [= <- <-]. exists []. rewrite app_nil_r.
    split; [reflexivity | constructor].
  - simpl. intros Hloop.
    apply st_bind_returns in Hloop as (url & w1 & Hstep & Hloop).
    apply upload_image_returns in Hstep as (_ & Hshape & _).
    apply IH in Hloop as (new & -> & Hrest).
    exists (url :: new). rewrite <- app_assoc.
    split; [reflexivity | constructor; assumption].
Qed.

(** C10: every CDN URL a successful upload returns is the configured CDN
    endpoint, then "/projectrakawarananew/", then the object key: the upload
    prefix and "/" (left out when the prefix is empty), then 32 hexadecimal
    characters followed by the extension of the original file name. *)
Theorem cdn_urls_have_the_shape (files : list UploadFile) (w w' : World)
    (urls : list string) :
  upload_images_to_spaces files s w = (Return urls, w') ->
  Forall2 (url_shape s) files urls.
Proof.
  unfold upload_images_to_spaces. destruct files as [| f files].
  - discriminate.
  - intros Hloop. apply upload_loop_returns in Hloop as (new & -> & Hshape).
    exact Hshape.
Qed.

Lemma store_accepts_same_services (w w' : World) :
  same_services w w' -> store_accepts w -> store_accepts w'.
Proof.
  intros (_ & _ & _ & Hput) Haccepts o l. rewrite Hput. apply Haccepts.
Qed.

Lemma upload_loop_stops (pre post : list UploadFile) (bad : UploadFile)
    (cdn_urls : list string) (w : World) :
  Forall (fun f => file_ok s w f = true) pre ->
  file_ok s w bad = false ->
  store_accepts w ->
  exists message details w' written,
    upload_loop s (pre ++ bad :: post) cdn_urls w
    = (Raise (InvalidDataException message details), w')
    /\ objects (spaces w') = (objects (spaces w) ++ written)%list
    /\ Forall2 (written_for s) pre written.
Proof.
  revert cdn_urls w. induction pre as [| f pre IH];
    intros cdn_urls w Hpre Hbad Haccepts.
  - destruct (upload_image_invalid w bad Hbad) as (message & details & Hstep).
    exists message, details, w, []. simpl. unfold st_bind. rewrite Hstep.
    rewrite app_nil_r. repeat split. constructor.
  - apply Forall_cons in Hpre as [Hf Hpre].
    destruct (upload_image_valid w f Hf Haccepts) as (url & w1 & Hstep).
    destruct (upload_image_returns _ _ _ _ Hstep)
      as (_ & _ & (o & Hwritten & Hobjects) & Hsame).
    destruct (IH (cdn_urls ++ [url])%list w1)
      as (message & details & w' & written & Hloop & Hobjects' & Hall).
    + eapply Forall_impl; [exact Hpre |]. intros g Hg. simpl.
      rewrite (file_ok_same_services w w1 g Hsame). exact Hg.
    + rewrite (file_ok_same_services w w1 bad Hsame). exact Hbad.
    + eapply store_accepts_same_services; eassumption.
    + exists message, details, w', (o :: written).
      simpl. unfold st_bind. rewrite Hstep. split; [exact Hloop |].
      split; [| constructor; assumption].
      rewrite Hobjects', Hobjects, <- app_assoc. reflexivity.
Qed.

(** C6, amended: a batch with an invalid file fails at its first invalid file
    with a caller-input error and returns no CDN URL, provided the store
    accepts the writes before it; the files before the first invalid one have
    then been written to the object store, one object each, and nothing else
    of the batch has. *)
Theorem upload_fails_at_first_invalid_file (pre post : list UploadFile)
    (bad : UploadFile) (w : World) :
  Forall (fun f => file_ok s w f = true) pre ->
  file_ok s w bad = false ->
  store_accepts w ->
  exists w' written,
    fails_caller_input (fst (upload_images_to_spaces (pre ++ bad :: post) s w))
    /\ snd (upload_images_to_spaces (pre ++ bad :: post) s w) = w'
    /\ objects (spaces w') = (objects (spaces w) ++ written)%list
    /\ Forall2 (written_for s) pre written.
Proof.
  intros Hpre Hbad Haccepts.
  destruct (upload_loop_stops pre post bad [] w Hpre Hbad Haccepts)
    as (message & details & w' & written & Hloop & Hobjects & Hall).
  exists w', written.
  assert (upload_images_to_spaces (pre ++ bad :: post) s w
          = (Raise (InvalidDataException message details), w')) as ->.
  { unfold upload_images_to_spaces.
    destruct (pre ++ bad :: post)%list eqn:Hfiles; [| exact Hloop].
    apply app_eq_nil in Hfiles as [_ Hfiles]. discriminate. }
  split; [exists message, details; reflexivity |].
  split; [reflexivity |]. split; assumption.
Qed.

End upload_facts.

Lemma cdn_urls_have_the_shape_witness :
  Forall2 (url_shape settings0) [photo0; photo1]
    ["https://cdn.example/projectrakawarananew/posts_images/000000000000000000000000000000ff.JPG";
     "https://cdn.example/projectrakawarananew/posts_images/00000000000000000000000000000100.png"].
Proof.
  apply (cdn_urls_have_the_shape settings0 [photo0; photo1] world0
           (snd (upload_images_to_spaces [photo0; photo1] settings0 world0))).
  vm_compute. reflexivity.
Defined.

Lemma upload_fails_at_first_invalid_file_witness :
  exists w' written,
    fails_caller_input
      (fst (upload_images_to_spaces [photo0; empty0; photo1] settings0 world0))
    /\ snd (upload_images_to_spaces [photo0; empty0; photo1] settings0 world0)
       = w'
    /\ objects (spaces w') = (objects (spaces world0) ++ written)%list
    /\ Forall2 (written_for settings0) [photo0] written.
Proof.
  apply (upload_fails_at_first_invalid_file settings0 [photo0] [photo1] empty0
           world0).
  - repeat constructor.
  - reflexivity.
  - intros o l. reflexivity.
Defined.

(** A valid file, then an empty one: the call fails, and the first file is
    in the store. *)
Lemma partial_upload_counterexample :
  ~ claimed_no_partial_upload settings0 [photo0; empty0; photo1] world0.
Proof.
  intros Hclaim. destruct Hclaim as [_ Hobjects].
  - apply Exists_cons_tl, Exists_cons_hd. reflexivity.
  - vm_compute in Hobjects. discriminate.
Qed.

(** ** Persisted phone numbers: the whole creation *)

Section phone_storage.

Lemma phone_number_member (data : Payload) :
  ("phone_number",
   str_field (phone_number data) required (Some 7) (Some 20)
             (Some validate_primary_phone)) ∈ model_fields data.
Proof. unfold model_fields. apply (list_elem_of_lookup_2 _ 1). reflexivity. Qed.

Lemma alt_phone_number_member (data : Payload) :
  ("alt_phone_number",
   str_field (alt_phone_number data) optional (Some 7) (Some 20)
             (Some validate_alt_phone)) ∈ model_fields data.
Proof. unfold model_fields. apply (list_elem_of_lookup_2 _ 2). reflexivity. Qed.

(** What a validated model holds for the two phone fields. *)
Lemma validated_phones (data : Payload) (validated : row) :
  validate_with_app_error data = Return validated ->
  exists s,
    phone_number data = Some s
    /\ 7 <= digit_count s <= 15
    /\ validated !! "phone_number" = Some (PStr (digits s))
    /\ match alt_phone_number data with
       | Some a =>
           7 <= digit_count a <= 15
           /\ validated !! "alt_phone_number" = Some (PStr (digits a))
       | None => validated !! "alt_phone_number" = Some PNone
       end.
Proof.
  intros Hvalidated.
  destruct (validated_field _ _ _ _ Hvalidated (phone_number_member data))
    as (v & Hv & Hlookup).
  destruct (validated_field _ _ _ _ Hvalidated (alt_phone_number_member data))
    as (v' & Hv' & Hlookup').
  apply phone_field_valid in Hv. apply phone_field_valid in Hv'.
  destruct (phone_number data) as [s |]; [| discriminate].
  destruct Hv as [-> Hcount]. exists s.
  split; [reflexivity |]. split; [exact Hcount |]. split; [exact Hlookup |].
  destruct (alt_phone_number data) as [a |].
  - destruct Hv' as [-> Hcount']. split; assumption.
  - injection Hv' as <-. exact Hlookup'.
Qed.

(** C5, amended: for every successfully created post, the persisted
    phone_number is the integer that the digit characters of the validated
    input (7 to 15 digits) denote, and alt_phone_number likewise when it is
    given and null otherwise; the values are integers, not digit strings. *)
Theorem persisted_phones_are_integers (s : Settings) (data : Payload)
    (files : list UploadFile) (w w' : World) (post : row)
    (images : list row) :
  fst (create_rescue_post_with_images s data files w)
  = Return (post, images) ->
  snd (create_rescue_post_with_images s data files w) = w' ->
  exists phone,
    phone_number data = Some phone
    /\ 7 <= digit_count phone <= 15
    /\ post !! "phone_number" = Some (PInt (int_of_digits (digits phone)))
    /\ match alt_phone_number data with
       | Some alt =>
           7 <= digit_count alt <= 15
           /\ post !! "alt_phone_number"
              = Some (PInt (int_of_digits (digits alt)))
       | None => post !! "alt_phone_number" = Some PNone
       end
    /\ rows_of (tables (supabase_client w')) "rescue_posts"
       = (rows_of (tables (supabase_client w)) "rescue_posts" ++ [post])%list.
Proof.
  intros Hresult Hworld.
  pose proof (pair_of_projections _ _ _ Hresult Hworld) as Hcreate.
  clear Hresult Hworld. revert Hcreate.
  unfold create_rescue_post_with_images. intros Hcreate.
  apply st_bind_returns in Hcreate as (validated & w1 & Hvalidated & Hcreate).
  apply st_lift_returns in Hvalidated as [Hvalidated ->].
  apply st_bind_returns in Hcreate as (image_urls & w2 & Hupload & Hcreate).
  apply st_bind_returns in Hcreate as (post_payload & w3 & Hpayload & Hcreate).
  apply st_lift_returns in Hpayload as [Hpayload ->].
  apply st_bind_returns in Hcreate as (post_record & w4 & Hinsert & Hcreate).
  apply on_supabase_returns in Hinsert as (c4 & Hinsert & ->).
  apply st_bind_returns in Hcreate as (images_payload & w5 & Himages & Hcreate).
  apply st_lift_returns in Himages as [Himages ->].
  apply st_bind_returns in Hcreate as (image_records & w6 & Hrecords & Hcreate).
  apply on_supabase_returns in Hrecords as (c6 & Hrecords & ->).
  unfold st_ret in Hcreate. injection Hcreate as <- <- <-.
  pose proof (upload_services s files w) as (_ & _ & Hclient & _).
  rewrite Hupload in Hclient. simpl in Hclient.
  apply insert_rescue_post_returns in Hinsert as [Hpost Hrows].
  apply insert_images_keeps_posts in Hrecords. simpl in Hrecords, Hpost, Hrows.
  rewrite Hclient in Hpost, Hrows.
  destruct (validated_phones data validated Hvalidated)
    as (phone & Hphone & Hcount & Hstored & Halt).
  assert (match alt_phone_number data with
          | Some a =>
              validated !! "alt_phone_number" = Some (PStr (digits a))
              /\ 7 <= digit_count a
          | None => validated !! "alt_phone_number" = Some PNone
          end) as Halt'.
  { destruct (alt_phone_number data);
      [destruct Halt as [[? ?] ?]; split; assumption | exact Halt]. }
  destruct (post_payload_phones validated post_payload phone
              (alt_phone_number data) Hstored (proj1 Hcount) Halt' Hpayload)
    as [Hp Ha].
  exists phone. split; [exact Hphone |]. split; [exact Hcount |].
  rewrite Hpost.
  split; [apply lookup_union_Some_l, Hp |]. split.
  - destruct (alt_phone_number data) as [alt |].
    + split; [tauto | apply lookup_union_Some_l, Ha].
    + apply lookup_union_Some_l, Ha.
  - simpl. rewrite Hrecords, Hrows, Hpost. reflexivity.
Qed.

End phone_storage.

Lemma returned_value {A} (r : result A) (d : A) :
  is_Return r = true -> r = Return (value_or r d).
Proof. destruct r; [reflexivity | discriminate]. Qed.

Lemma persisted_phones_are_integers_witness :
  fst created0 = Return (post0, images0)
  /\ phone_number payload0 = Some "077-123 4567"
  /\ post0 !! "phone_number" = Some (PInt 771234567).
Proof.
  assert (fst created0 = Return (post0, images0)) as Hrun.
  { unfold post0, images0.
    rewrite (returned_value (fst created0) (∅, [])) at 1
      by (vm_compute; reflexivity).
    destruct (value_or (fst created0) (∅, [])). reflexivity. }
  split; [exact Hrun |].
  destruct (persisted_phones_are_integers _ _ _ _ _ _ _ Hrun eq_refl)
    as (phone & Hphone & _ & Hstored & _).
  injection Hphone as <-.
  split; [reflexivity | exact Hstored].
Defined.

(** The validated digits "0771234567" are handed to the database as the
    integer 771234567. *)
Lemma phone_storage_counterexample : ~ claimed_phone_storage payload0.
Proof.
  intros Hclaim.
  assert (validate_with_app_error payload0 = Return validated0) as Hvalidated
    by (apply returned_value; vm_compute; reflexivity).
  assert (post_payload_of validated0 = Return post_payload0) as Hpayload
    by (apply returned_value; vm_compute; reflexivity).
  specialize (Hclaim "077-123 4567" validated0 post_payload0 eq_refl
                     Hvalidated Hpayload).
  vm_compute in Hclaim. discriminate.
Qed.

(** ** Filtered listing *)

Section filter_facts.

Lemma matches_app (fs gs : list Filter) (r : row) :
  matches (fs ++ gs) r = matches fs r && matches gs r.
Proof. unfold matches. apply forallb_app. Qed.

Lemma add_filter_item_spec (q : Query) (item : string * pyval) (r : row) :
  table (add_filter_item q item) = table q
  /\ verb (add_filter_item q item) = verb q
  /\ ordering (add_filter_item q item) = ordering q
  /\ matches (filters (add_filter_item q item)) r
     = matches (filters q) r && item_holds r item.
Proof.
  destruct item as [field value]. unfold add_filter_item, item_holds. simpl.
  destruct value;
    repeat match goal with
           | |- context [if ?b then _ else _] => destruct b
           end;
    unfold gte, lte, eq, add_filter; simpl;
    rewrite ?matches_app; simpl; rewrite ?andb_true_r; repeat split.
Qed.

Lemma foldl_add_filter_item (items : list (string * pyval)) (q : Query)
    (r : row) :
  table (foldl add_filter_item q items) = table q
  /\ verb (foldl add_filter_item q items) = verb q
  /\ ordering (foldl add_filter_item q items) = ordering q
  /\ matches (filters (foldl add_filter_item q items)) r
     = matches (filters q) r && forallb (item_holds r) items.
Proof.
  revert q. induction items as [| item items IH]; intros q; simpl.
  - rewrite andb_true_r. repeat split.
  - destruct (IH (add_filter_item q item)) as (Ht & Hv & Ho & Hm).
    destruct (add_filter_item_spec q item r) as (Ht' & Hv' & Ho' & Hm').
    rewrite Ht, Hv, Ho, Hm, Ht', Hv', Ho', Hm', andb_assoc. repeat split.
Qed.

Lemma item_holds_str (r : row) (name : string) (o : option string) :
  String.eqb name "min_people" = false ->
  String.eqb name "max_safe_hours" = false ->
  item_holds r (name, of_str o) = str_is r name o.
Proof.
  intros Hmin Hmax. unfold item_holds, str_is. simpl.
  destruct o as [v |]; simpl; [| reflexivity].
  rewrite Hmin, Hmax. unfold get.
  destruct (r !! name) as [[] |]; reflexivity.
Qed.

Lemma item_holds_bool (r : row) (name : string) (o : option bool) :
  String.eqb name "min_people" = false ->
  String.eqb name "max_safe_hours" = false ->
  item_holds r (name, of_bool o) = bool_is r name o.
Proof.
  intros Hmin Hmax. unfold item_holds, bool_is. simpl.
  destruct o as [v |]; simpl; [| reflexivity].
  rewrite Hmin, Hmax. unfold get.
  destruct (r !! name) as [[] |]; reflexivity.
Qed.

Lemma item_holds_min (r : row) (o : option Z) :
  item_holds r ("min_people", of_int o)
  = at_least r "number_of_peoples_to_rescue" o.
Proof.
  unfold item_holds, at_least. destruct o as [n |]; simpl; [| reflexivity].
  unfold get.
  destruct (r !! "number_of_peoples_to_rescue") as [[] |]; reflexivity.
Qed.

Lemma item_holds_max (r : row) (o : option Z) :
  item_holds r ("max_safe_hours", of_int o) = at_most r "safe_hours" o.
Proof.
  unfold item_holds, at_most. destruct o as [n |]; simpl; [| reflexivity].
  unfold get. destruct (r !! "safe_hours") as [[] |]; reflexivity.
Qed.

(** The entries of the dictionary together are the conjunction of the
    supplied predicates. *)
Lemma filters_are_conjunction (p : FilterParams) (r : row) :
  forallb (item_holds r) (filters_of p) = accepts p r.
Proof.
  unfold filters_of, accepts. cbn [forallb].
  rewrite !item_holds_str, !item_holds_bool, item_holds_min, item_holds_max
    by reflexivity.
  reflexivity.
Qed.

Lemma is_None_of_str (o : option string) : is_None (of_str o) = absent o.
Proof. destruct o; reflexivity. Qed.
Lemma is_None_of_bool (o : option bool) : is_None (of_bool o) = absent o.
Proof. destruct o; reflexivity. Qed.
Lemma is_None_of_int (o : option Z) : is_None (of_int o) = absent o.
Proof. destruct o; reflexivity. Qed.

Lemma all_filters_absent (p : FilterParams) :
  forallb is_None (snd <$> filters_of p) = no_filter p.
Proof.
  unfold filters_of, no_filter. cbn [fmap list_fmap snd forallb].
  rewrite !is_None_of_str, !is_None_of_bool, !is_None_of_int. reflexivity.
Qed.

(** C8: a request in which every filter is absent is rejected with a
    caller-input error without a request to the database; with at least one
    filter present, and the database answering, the operation returns
    exactly the posts that satisfy the conjunction of all supplied
    predicates: equality on district, emergency_type, water_level, each need
    flag and is_verified, number_of_peoples_to_rescue at least min_people,
    safe_hours at most max_safe_hours. *)
Theorem filtered_listing_is_conjunction (p : FilterParams) (c : Client) :
  (no_filter p = true ->
   fails_caller_input (fst (list_rescue_posts_filtered p c))
   /\ snd (list_rescue_posts_filtered p c) = c)
  /\ (no_filter p = false ->
      healthy c ->
      orders_by_permuting c ->
      exists posts,
        fst (list_rescue_posts_filtered p c) = Return posts
        /\ posts ≡ₚ embed_images (tables c)
                      <$> filter (fun r => accepts p r = true)
                                 (rows_of (tables c) "rescue_posts")).
Proof.
  unfold list_rescue_posts_filtered. rewrite all_filters_absent. split.
  - intros ->. split; [| reflexivity].
    eexists _, _. reflexivity.
  - intros -> Hhealthy Horder.
    unfold fetch_rescue_posts_filtered, execute.
    rewrite Hhealthy. unfold perform.
    set (q0 := from_table "rescue_posts" (Select "*, images(*)")).
    destruct (foldl_add_filter_item (filters_of p) q0 ∅) as (Ht & Hv & _ & _).
    cbn [order table verb filters ordering]. rewrite Ht, Hv.
    cbn [q0 from_table table verb fst]. unfold project.
    rewrite String.eqb_refl.
    eexists. split; [reflexivity |].
    rewrite (Horder _ _ _).
    apply fmap_Permutation.
    erewrite (list_filter_iff _ (fun r => accepts p r = true));
      [reflexivity |].
    intros r.
    destruct (foldl_add_filter_item (filters_of p) q0 r) as (_ & _ & _ & Hm).
    rewrite Hm, filters_are_conjunction. reflexivity.
Qed.

End filter_facts.

Lemma filtered_listing_is_conjunction_witness :
  fails_caller_input (fst (list_rescue_posts_filtered no_filters client1))
  /\ exists posts,
       fst (list_rescue_posts_filtered colombo_five client1) = Return posts
       /\ posts ≡ₚ [embed_images tables1 (in_district "Colombo" stored_P1)].
Proof.
  split.
  - apply (filtered_listing_is_conjunction no_filters client1). reflexivity.
  - destruct (proj2 (filtered_listing_is_conjunction colombo_five client1))
      as (posts & Hposts & Hperm).
    + reflexivity.
    + intros q. reflexivity.
    + intros column desc rows. reflexivity.
    + exists posts. split; [exact Hposts | exact Hperm].
Defined.

(** ** Verification and deletion *)

Section admin_facts.

Lemma matches_id (post_id : string) (r : row) :
  matches [Eq "id" (PStr post_id)] r = has_id post_id r.
Proof.
  unfold matches, has_id. simpl. rewrite andb_true_r. unfold get.
  destruct (r !! "id") as [[] |]; reflexivity.
Qed.

Lemma filter_has_id (post_id : string) (rows : list row) :
  filter (fun r => matches [Eq "id" (PStr post_id)] r = true) rows
  = filter (fun r => has_id post_id r = true) rows.
Proof.
  apply list_filter_iff. intros r. rewrite matches_id. reflexivity.
Qed.

Lemma verified_is_update (r : row) :
  ({["is_verified" := PBool true]} : row) ∪ r = verified r.
Proof. unfold verified. symmetry. apply insert_union_singleton_l. Qed.

(** The two repository operations, by whether a row has the id. *)
Lemma repository_verify_delete (post_id : string) (c : Client) :
  healthy c ->
  let rows := rows_of (tables c) "rescue_posts" in
  let hits := filter (fun r => has_id post_id r = true) rows in
  (hits = [] ->
   fails_with (fst (verify_rescue_post post_id c)) 404
   /\ fails_with (fst (delete_rescue_post post_id c)) 404)
  /\ (forall r others,
        hits = r :: others ->
        fst (verify_rescue_post post_id c) = Return (verified r)
        /\ rows_of (tables (snd (verify_rescue_post post_id c))) "rescue_posts"
           = (fun x => if has_id post_id x then verified x else x) <$> rows).
Proof.
  intros Hhealthy rows hits.
  unfold verify_rescue_post, delete_rescue_post, execute.
  rewrite !Hhealthy. unfold perform, eq, add_filter, from_table.
  cbn [table verb filters ordering app].
  fold rows. rewrite filter_has_id. fold hits.
  split.
  - intros ->. simpl. split; eexists; (split; [reflexivity | reflexivity]).
  - intros r others Hhits.
    assert (has_id post_id r = true) as Hr.
    { assert (r ∈ hits) as Hin by (rewrite Hhits; left).
      apply list_elem_of_filter in Hin as [Hin _]. exact Hin. }
    rewrite Hhits, fmap_cons. cbn [fst snd tables after_request].
    rewrite matches_id, Hr, verified_is_update, rows_of_insert.
    split; [reflexivity |].
    apply list_fmap_ext. intros i x _.
    rewrite matches_id, verified_is_update. reflexivity.
Qed.

(** C9: for a post id that no row has, verify and delete both fail with the
    not-found error of status 404; when a row has it, verify sets
    is_verified to true on it and returns the updated row.  The admin
    operations of the service pass every non-empty id on to these. *)
Theorem verify_and_delete_find_the_row (post_id : string) (c : Client) :
  healthy c ->
  let rows := rows_of (tables c) "rescue_posts" in
  let hits := filter (fun r => has_id post_id r = true) rows in
  (hits = [] ->
   fails_with (fst (verify_rescue_post post_id c)) 404
   /\ fails_with (fst (delete_rescue_post post_id c)) 404)
  /\ (forall r others,
        hits = r :: others ->
        fst (verify_rescue_post post_id c) = Return (verified r)
        /\ rows_of (tables (snd (verify_rescue_post post_id c))) "rescue_posts"
           = (fun x => if has_id post_id x then verified x else x) <$> rows)
  /\ (post_id <> "" ->
      verify_post post_id c = verify_rescue_post post_id c
      /\ delete_post post_id c = delete_rescue_post post_id c).
Proof.
  intros Hhealthy rows hits.
  destruct (repository_verify_delete post_id c Hhealthy) as [Hnone Hsome].
  split; [exact Hnone |]. split; [exact Hsome |].
  intros Hid. unfold verify_post, delete_post.
  apply String.eqb_neq in Hid. rewrite Hid. split; reflexivity.
Qed.

End admin_facts.

Lemma verify_and_delete_find_the_row_witness :
  healthy client1
  /\ fails_with (fst (verify_rescue_post "zz" client1)) 404
  /\ fails_with (fst (delete_rescue_post "zz" client1)) 404
  /\ fst (verify_rescue_post "c" client1)
     = Return (verified (in_district "Colombo" early_P2)).
Proof.
  assert (healthy client1) as Hhealthy by (intros q; reflexivity).
  split; [exact Hhealthy |].
  destruct (verify_and_delete_find_the_row "zz" client1 Hhealthy)
    as (Hmissing & _ & _).
  destruct (verify_and_delete_find_the_row "c" client1 Hhealthy)
    as (_ & Hfound & _).
  destruct (Hmissing eq_refl) as [Hverify Hdelete].
  split; [exact Hverify |]. split; [exact Hdelete |].
  apply (Hfound (in_district "Colombo" early_P2) []). reflexivity.
Defined.

(** ** Single-field listings *)

Section listing_facts.

Lemma execute_healthy (q : Query) (c : Client) :
  healthy c ->
  execute q c
  = (Response (fst (perform c q)), after_request c q (snd (perform c q))).
Proof.
  intros Hhealthy. unfold execute. rewrite Hhealthy.
  destruct (perform c q). reflexivity.
Qed.

Lemma execute_refused (q : Query) (c : Client) (text : string) :
  refuses c text -> execute q c = (APIError text, after_request c q (tables c)).
Proof. intros Hrefuses. unfold execute. rewrite Hrefuses. reflexivity. Qed.

Lemma matches_column (column value : string) (r : row) :
  matches [Eq column (PStr value)] r = str_is r column (Some value).
Proof.
  unfold matches, str_is. simpl. rewrite andb_true_r. unfold get.
  destruct (r !! column) as [[] |]; reflexivity.
Qed.

(** What the request of a listing on one column returns. *)
Lemma perform_select_column (column value : string) (c : Client) :
  perform c (order "created_at" true
               (eq column (PStr value)
                   (from_table "rescue_posts" (Select "*, images(*)"))))
  = (embed_images (tables c)
       <$> order_rows c "created_at" true
             (filter (fun r => str_is r column (Some value) = true)
                     (rows_of (tables c) "rescue_posts")),
     tables c).
Proof.
  unfold perform.
  cbn [order eq add_filter from_table table verb filters ordering app fst].
  unfold project. rewrite String.eqb_refl.
  erewrite (list_filter_iff _ (fun r => str_is r column (Some value) = true));
    [reflexivity |].
  intros r. rewrite matches_column. reflexivity.
Qed.

(** X1: each of the three single-field listings turns an empty value down as a
    caller-input error without a request to the database; with a value, and
    the database answering, it returns exactly the posts whose column holds
    that value, each with its images. *)
Theorem single_field_listings (value : string) (c : Client) :
  (value = "" ->
   rejects_without_request (list_rescue_posts_by_emergency value c) c
   /\ rejects_without_request (list_rescue_posts_by_district value c) c
   /\ rejects_without_request (list_rescue_posts_by_water_level value c) c)
  /\ (value <> "" ->
      healthy c ->
      orders_by_permuting c ->
      selects (list_rescue_posts_by_emergency value c) "emergency_type" value c
      /\ selects (list_rescue_posts_by_district value c) "district" value c
      /\ selects (list_rescue_posts_by_water_level value c)
                 "water_level" value c).
Proof.
  unfold list_rescue_posts_by_emergency, list_rescue_posts_by_district,
    list_rescue_posts_by_water_level.
  split.
  - intros ->. simpl.
    repeat split; eexists _, _; reflexivity.
  - intros Hvalue Hhealthy Horder. apply String.eqb_neq in Hvalue.
    rewrite Hvalue.
    unfold fetch_rescue_posts_by_emergency_type,
      fetch_rescue_posts_by_district, fetch_rescue_posts_by_water_level,
      selects.
    rewrite !execute_healthy, !perform_select_column by exact Hhealthy.
    cbn [fst snd].
    repeat split; (eexists; split; [reflexivity |]);
      rewrite (Horder _ _ _); reflexivity.
Qed.

(** X2: a single-field listing is the filtered listing given that one filter:
    the same request, the same result. *)
Theorem single_field_listing_is_filtered_listing (value : string)
    (c : Client) :
  value <> "" ->
  healthy c ->
  list_rescue_posts_by_emergency value c
  = list_rescue_posts_filtered (only_emergency_type value) c
  /\ list_rescue_posts_by_district value c
     = list_rescue_posts_filtered (only_district value) c
  /\ list_rescue_posts_by_water_level value c
     = list_rescue_posts_filtered (only_water_level value) c.
Proof.
  intros Hvalue Hhealthy. apply String.eqb_neq in Hvalue.
  unfold list_rescue_posts_by_emergency, list_rescue_posts_by_district,
    list_rescue_posts_by_water_level, list_rescue_posts_filtered.
  rewrite Hvalue.
  unfold fetch_rescue_posts_by_emergency_type,
    fetch_rescue_posts_by_district, fetch_rescue_posts_by_water_level,
    fetch_rescue_posts_filtered.
  cbn [only_emergency_type only_district only_water_level filters_of
       posts_service.district posts_service.emergency_type
       posts_service.water_level posts_service.is_medical_needed
       posts_service.need_foods posts_service.need_water
       posts_service.need_transport posts_service.need_medic
       posts_service.need_power posts_service.need_clothes
       is_verified min_people max_safe_hours of_str of_bool of_int
       fmap list_fmap snd forallb is_None andb foldl add_filter_item].
  cbn [String.eqb Ascii.eqb Bool.eqb].
  rewrite !execute_healthy by exact Hhealthy.
  repeat split.
Qed.

End listing_facts.

Lemma single_field_listings_witness :
  rejects_without_request (list_rescue_posts_by_district "" client1) client1
  /\ selects (list_rescue_posts_by_district "Galle" client1)
             "district" "Galle" client1.
Proof.
  split.
  - apply (single_field_listings "" client1). reflexivity.
  - apply (single_field_listings "Galle" client1).
    + discriminate.
    + intros q. reflexivity.
    + intros column desc rows. reflexivity.
Defined.

Lemma single_field_listing_is_filtered_listing_witness :
  list_rescue_posts_by_district "Galle" client1
  = list_rescue_posts_filtered (only_district "Galle") client1.
Proof.
  apply (single_field_listing_is_filtered_listing "Galle" client1).
  - discriminate.
  - intros q. reflexivity.
Defined.

(** ** Statistics *)

Section stats_facts.

Lemma healthy_after_select (c : Client) (q : Query) :
  healthy c -> healthy (after_request c q (tables c)).
Proof. intros Hhealthy q'. apply Hhealthy. Qed.

(** A count request that the database answers: the number of rows that
    match its filters. *)
Lemma count_exact_healthy (fs : list Filter) (columns : string) (c : Client) :
  healthy c ->
  let q := {| table := "rescue_posts"; verb := Select columns;
              filters := fs; ordering := None |} in
  count_exact q c
  = (inr (Z.of_nat
            (length (filter (fun r => matches fs r = true)
                            (rows_of (tables c) "rescue_posts")))),
     after_request c q (tables c)).
Proof.
  intros Hhealthy q. unfold count_exact.
  rewrite execute_healthy by exact Hhealthy.
  unfold perform. cbn [q table verb filters ordering fst snd].
  rewrite length_fmap. reflexivity.
Qed.

Lemma count_for_healthy (level : string) (c : Client) :
  healthy c ->
  exists q,
    count_for level c
    = (inr (count_where (priority_is level)
                        (rows_of (tables c) "rescue_posts")),
       after_request c q (tables c)).
Proof.
  intros Hhealthy. unfold count_for, eq, add_filter, from_table.
  cbn [table verb filters ordering app].
  rewrite (count_exact_healthy _ _ c Hhealthy).
  eexists. f_equal. f_equal. unfold count_where. f_equal. f_equal.
  apply list_filter_iff. intros r. rewrite matches_column. reflexivity.
Qed.

Lemma count_where_cons (p : row -> bool) (r : row) (rows : list row) :
  count_where p (r :: rows) = (if p r then 1 else 0) + count_where p rows.
Proof.
  unfold count_where. rewrite filter_cons.
  destruct (decide (p r = true)) as [Hp | Hp]; destruct (p r);
    try congruence; simpl length; lia.
Qed.

(** Rows that all carry one of the three levels are counted once each. *)
Lemma priority_levels_partition (rows : list row) :
  Forall has_priority_level rows ->
  Z.of_nat (length rows)
  = count_where (priority_is "high") rows
    + count_where (priority_is "medium") rows
    + count_where (priority_is "low") rows.
Proof.
  induction 1 as [| r rows (level & Hlevel & Hr) _ IH]; [reflexivity |].
  rewrite !count_where_cons, length_cons, Nat2Z.inj_succ, IH.
  unfold priority_is, str_is. rewrite Hr.
  repeat (apply elem_of_cons in Hlevel as [-> | Hlevel];
          [simpl; lia |]).
  apply elem_of_nil in Hlevel. contradiction.
Qed.

(** X3: the statistics, when the database answers: the total is the number of
    stored posts and each of the three counts is the number of posts with
    that priority level; the call makes four requests and changes no table.
    When every post carries one of the three levels, as the posts the
    validator lets through do, the total is the sum of the three counts. *)
Theorem priority_stats_count_the_posts (c : Client) :
  healthy c ->
  let rows := rows_of (tables c) "rescue_posts" in
  exists stats,
    fst (get_priority_stats c) = Return stats
    /\ stats !! "total_posts" = Some (Z.of_nat (length rows))
    /\ stats !! "high_priority_posts"
       = Some (count_where (priority_is "high") rows)
    /\ stats !! "medium_priority_posts"
       = Some (count_where (priority_is "medium") rows)
    /\ stats !! "low_priority_posts"
       = Some (count_where (priority_is "low") rows)
    /\ tables (snd (get_priority_stats c)) = tables c
    /\ length (requests (snd (get_priority_stats c)))
       = (length (requests c) + 4)%nat
    /\ (Forall has_priority_level rows ->
        stats !! "total_posts"
        = Some (count_where (priority_is "high") rows
                + count_where (priority_is "medium") rows
                + count_where (priority_is "low") rows)).
Proof.
  intros Hhealthy rows.
  unfold get_priority_stats, fetch_priority_counts, from_table.
  rewrite (count_exact_healthy [] "id" c Hhealthy).
  set (c1 := after_request c _ (tables c)).
  assert (healthy c1) as H1 by apply healthy_after_select, Hhealthy.
  destruct (count_for_healthy "high" c1 H1) as (q2 & ->).
  set (c2 := after_request c1 q2 (tables c1)).
  assert (healthy c2) as H2 by apply healthy_after_select, H1.
  destruct (count_for_healthy "medium" c2 H2) as (q3 & ->).
  set (c3 := after_request c2 q3 (tables c2)).
  assert (healthy c3) as H3 by apply healthy_after_select, H2.
  destruct (count_for_healthy "low" c3 H3) as (q4 & ->).
  eexists. split; [reflexivity |].
  cbn [fst snd tables after_request c1 c2 c3 requests].
  fold rows.
  assert (filter (fun r => matches [] r = true) rows = rows) as ->.
  { induction rows as [| r l IH]; [reflexivity |].
    rewrite filter_cons_True by reflexivity. rewrite IH. reflexivity. }
  split; [reflexivity |]. split; [reflexivity |]. split; [reflexivity |].
  split; [reflexivity |]. split; [reflexivity |]. split.
  - rewrite !length_app. simpl. lia.
  - intros Hlevels. rewrite lookup_insert_eq.
    f_equal. apply priority_levels_partition, Hlevels.
Qed.

End stats_facts.

Lemma priority_stats_count_the_posts_witness :
  exists stats,
    fst (get_priority_stats client2) = Return stats
    /\ stats !! "total_posts" = Some 3
    /\ stats !! "high_priority_posts" = Some 2
    /\ stats !! "medium_priority_posts" = Some 0
    /\ stats !! "low_priority_posts" = Some 1.
Proof.
  destruct (priority_stats_count_the_posts client2)
    as (stats & Hstats & Htotal & Hhigh & Hmedium & Hlow & _).
  - intros q. reflexivity.
  - exists stats. split; [exact Hstats |].
    split; [exact Htotal |]. split; [exact Hhigh |].
    split; [exact Hmedium | exact Hlow].
Defined.

(** ** After an admin operation *)

Section after_admin.

Lemma always_answers_healthy (c : Client) : always_answers c -> healthy c.
Proof. intros Hanswers q. apply Hanswers. Qed.

Lemma always_answers_after (c : Client) (q : Query)
    (t : gmap string (list row)) :
  always_answers c -> always_answers (after_request c q t).
Proof. intros Hanswers q' t'. apply Hanswers. Qed.

(** What the delete request does when the database answers. *)
Lemma delete_rescue_post_healthy (post_id : string) (c : Client) :
  healthy c ->
  let rows := rows_of (tables c) "rescue_posts" in
  let q := eq "id" (PStr post_id) (from_table "rescue_posts" Delete) in
  delete_rescue_post post_id c
  = (match filter (fun r => has_id post_id r = true) rows with
     | [] => Raise (AppError "Rescue post not found" 404
                             [("post_id", PStr post_id)])
     | _ => Return tt
     end,
     after_request c q
       (<["rescue_posts" := filter (fun r => has_id post_id r = false) rows]>
          (tables c))).
Proof.
  intros Hhealthy rows q. unfold delete_rescue_post.
  rewrite execute_healthy by exact Hhealthy. fold q.
  unfold perform. cbn [q eq add_filter from_table table verb filters app fst snd].
  fold rows. rewrite filter_has_id.
  erewrite (list_filter_iff (fun r => matches _ r = false)
                            (fun r => has_id post_id r = false));
    [| intros r; rewrite matches_id; reflexivity].
  destruct (filter (fun r => has_id post_id r = true) rows); reflexivity.
Qed.

Lemma delete_post_returned (post_id : string) (c : Client) :
  fst (delete_post post_id c) = Return tt ->
  delete_post post_id c = delete_rescue_post post_id c.
Proof.
  unfold delete_post. destruct (String.eqb post_id ""); [discriminate |].
  reflexivity.
Qed.

Lemma verify_post_returned (post_id : string) (c : Client) (r : row) :
  fst (verify_post post_id c) = Return r ->
  verify_post post_id c = verify_rescue_post post_id c.
Proof.
  unfold verify_post. destruct (String.eqb post_id ""); [discriminate |].
  reflexivity.
Qed.

Lemma no_hit_left (post_id : string) (rows : list row) :
  filter (fun r => has_id post_id r = true)
         (filter (fun r => has_id post_id r = false) rows) = [].
Proof.
  induction rows as [| r rows IH]; [reflexivity |].
  rewrite (filter_cons (fun r => has_id post_id r = false)).
  destruct (decide (has_id post_id r = false)) as [Hr | Hr]; [| exact IH].
  rewrite filter_cons_False by congruence. exact IH.
Qed.

(** X4: deleting a post that exists: the service returns, the rows with that id
    and no others leave the table, and the call has made one request, the
    delete on [rescue_posts]; it sends none for the images of the post. *)
Theorem delete_removes_the_post (post_id : string) (c : Client) :
  post_id <> "" ->
  healthy c ->
  let rows := rows_of (tables c) "rescue_posts" in
  Exists (fun r => has_id post_id r = true) rows ->
  fst (delete_post post_id c) = Return tt
  /\ rows_of (tables (snd (delete_post post_id c))) "rescue_posts"
     = filter (fun r => has_id post_id r = false) rows
  /\ requests (snd (delete_post post_id c))
     = (requests c
          ++ [eq "id" (PStr post_id) (from_table "rescue_posts" Delete)])%list.
Proof.
  intros Hid Hhealthy rows Hexists. unfold delete_post.
  apply String.eqb_neq in Hid. rewrite Hid.
  rewrite delete_rescue_post_healthy by exact Hhealthy. fold rows.
  cbn [fst snd tables requests after_request].
  rewrite rows_of_insert. split; [| split; reflexivity].
  destruct (filter (fun r => has_id post_id r = true) rows) eqn:Hhits;
    [| reflexivity].
  exfalso. apply Exists_exists in Hexists as (r & Hin & Hr).
  assert (r ∈ filter (fun r => has_id post_id r = true) rows) as Hhit
    by (apply list_elem_of_filter; split; [exact Hr | exact Hin]).
  rewrite Hhits in Hhit. apply elem_of_nil in Hhit. exact Hhit.
Qed.

(** X5: after a successful delete the post is gone: no row has the id, and a
    second delete or a verification of the same id fails with the
    not-found error of status 404. *)
Theorem deleted_post_is_gone (post_id : string) (c : Client) :
  always_answers c ->
  fst (delete_post post_id c) = Return tt ->
  let c' := snd (delete_post post_id c) in
  Forall (fun r => has_id post_id r = false)
         (rows_of (tables c') "rescue_posts")
  /\ fails_with (fst (delete_post post_id c')) 404
  /\ fails_with (fst (verify_post post_id c')) 404.
Proof.
  intros Hanswers Hdeleted c'.
  assert (post_id <> "") as Hid.
  { intros ->. discriminate Hdeleted. }
  pose proof (delete_post_returned _ _ Hdeleted) as Hrun.
  rewrite delete_rescue_post_healthy in Hrun
    by apply always_answers_healthy, Hanswers.
  assert (healthy c') as Hhealthy'.
  { unfold c'. rewrite Hrun. simpl.
    apply always_answers_healthy, always_answers_after, Hanswers. }
  assert (rows_of (tables c') "rescue_posts"
          = filter (fun r => has_id post_id r = false)
                   (rows_of (tables c) "rescue_posts")) as Hrows.
  { unfold c'. rewrite Hrun. simpl. apply rows_of_insert. }
  split.
  - rewrite Hrows. apply Forall_forall. intros r Hin.
    apply list_elem_of_filter in Hin as [Hr _]. exact Hr.
  - destruct (repository_verify_delete post_id c' Hhealthy') as [Hnone _].
    destruct Hnone as [Hverify Hdelete].
    { rewrite Hrows. apply no_hit_left. }
    unfold delete_post, verify_post.
    apply String.eqb_neq in Hid. rewrite Hid. split; assumption.
Qed.

Lemma embed_images_id (t : gmap string (list row)) (post_id : string)
    (r : row) :
  has_id post_id (embed_images t r) = has_id post_id r.
Proof.
  unfold has_id, embed_images. rewrite lookup_insert_ne by discriminate.
  reflexivity.
Qed.

Lemma embed_images_same (t t' : gmap string (list row)) (r : row) :
  rows_of t' "images" = rows_of t "images" ->
  embed_images t' r = embed_images t r.
Proof. intros Himages. unfold embed_images. rewrite Himages. reflexivity. Qed.

Lemma unverified_after_verify (post_id : string) (rows : list row) :
  filter (fun r => unverified r = true)
         ((fun x => if has_id post_id x then verified x else x) <$> rows)
  = filter (fun r => unverified r && negb (has_id post_id r) = true) rows.
Proof.
  induction rows as [| r rows IH]; [reflexivity |].
  rewrite fmap_cons, !filter_cons, IH.
  destruct (has_id post_id r) eqn:Hr.
  - assert (unverified (verified r) = false) as Hv.
    { unfold unverified, bool_is, verified. rewrite lookup_insert_eq.
      reflexivity. }
    rewrite Hv, andb_false_r.
    destruct (decide (false = true)); [discriminate | reflexivity].
  - rewrite andb_true_r. reflexivity.
Qed.

(** X6: after a successful verification the post has left the listing of
    unverified posts, and every other unverified post is still in it. *)
Theorem verified_post_leaves_the_unverified_listing (post_id : string)
    (c : Client) (r : row) :
  always_answers c ->
  orders_by_permuting c ->
  fst (verify_post post_id c) = Return r ->
  let c' := snd (verify_post post_id c) in
  exists posts,
    fst (list_unverified_posts c') = Return posts
    /\ posts ≡ₚ embed_images (tables c)
                  <$> filter (fun x => unverified x
                                       && negb (has_id post_id x) = true)
                             (rows_of (tables c) "rescue_posts")
    /\ Forall (fun post => has_id post_id post = false) posts.
Proof.
  intros Hanswers Horder Hverified c'.
  pose proof (verify_post_returned _ _ _ Hverified) as Hrun.
  pose proof (always_answers_healthy c Hanswers) as Hhealthy.
  destruct (repository_verify_delete post_id c Hhealthy) as [Hnone Hsome].
  rewrite Hrun in Hverified.
  destruct (filter (fun x => has_id post_id x = true)
                   (rows_of (tables c) "rescue_posts"))
    as [| hit others] eqn:Hhits.
  { destruct (Hnone eq_refl) as [(e & He & _) _]. congruence. }
  destruct (Hsome hit others eq_refl) as [_ Hrows].
  fold c' in Hrows. rewrite <- Hrun in Hrows. fold c' in Hrows.
  assert (healthy c' /\ order_rows c' = order_rows c
          /\ rows_of (tables c') "images" = rows_of (tables c) "images")
    as (Hhealthy' & Horder' & Himages).
  { unfold c'. rewrite Hrun. unfold verify_rescue_post.
    rewrite execute_healthy by exact Hhealthy.
    destruct (fst (perform c _)); simpl;
      (split; [apply always_answers_healthy, always_answers_after, Hanswers |]);
      (split; [reflexivity |]); apply rows_of_insert_ne; discriminate. }
  unfold list_unverified_posts, fetch_unverified_posts.
  rewrite execute_healthy by exact Hhealthy'.
  unfold perform.
  cbn [order eq add_filter from_table table verb filters ordering app fst].
  unfold project. rewrite String.eqb_refl.
  eexists. split; [reflexivity |].
  assert (forall l : list row, embed_images (tables c') <$> l
                    = embed_images (tables c) <$> l) as Hembed.
  { intros l. apply list_fmap_ext. intros i x _.
    apply embed_images_same, Himages. }
  rewrite Hembed, Horder', Hrows.
  erewrite (list_filter_iff (fun x => matches _ x = true)
                            (fun x => unverified x = true)).
  2:{ intros x. unfold matches, unverified, bool_is. simpl.
      rewrite andb_true_r. unfold get.
      destruct (x !! "is_verified") as [[] |]; reflexivity. }
  rewrite unverified_after_verify.
  split.
  - rewrite (Horder _ _ _). reflexivity.
  - rewrite (Horder _ _ _). apply Forall_fmap, Forall_forall.
    intros x Hin. simpl. rewrite embed_images_id.
    apply list_elem_of_filter in Hin as [Hx _].
    apply andb_true_iff in Hx as [_ Hx]. apply negb_true_iff, Hx.
Qed.

(** X7: when the database refuses the requests, every repository operation
    fails as a server error of status 500 whose details carry the text of
    the database error, and no table has changed. *)
Theorem database_failure_is_a_server_error (c : Client) (text : string)
    (payload : row) (images : list row) (filters : list (string * pyval))
    (value post_id : string) :
  refuses c text ->
  server_error (insert_rescue_post payload c) c text
  /\ (images <> [] -> server_error (insert_images images c) c text)
  /\ server_error (fetch_rescue_posts_with_images c) c text
  /\ server_error (fetch_rescue_posts_by_emergency_type value c) c text
  /\ server_error (fetch_rescue_posts_by_district value c) c text
  /\ server_error (fetch_rescue_posts_by_water_level value c) c text
  /\ server_error (fetch_rescue_posts_filtered filters c) c text
  /\ server_error (fetch_priority_counts c) c text
  /\ server_error (fetch_unverified_posts c) c text
  /\ server_error (verify_rescue_post post_id c) c text
  /\ server_error (delete_rescue_post post_id c) c text.
Proof.
  intros Hrefuses.
  unfold insert_rescue_post, insert_images, fetch_rescue_posts_with_images,
    fetch_rescue_posts_by_emergency_type, fetch_rescue_posts_by_district,
    fetch_rescue_posts_by_water_level, fetch_rescue_posts_filtered,
    fetch_priority_counts, count_exact, fetch_unverified_posts,
    verify_rescue_post, delete_rescue_post, stats_failed, server_error.
  rewrite !(execute_refused _ c text Hrefuses).
  repeat match goal with
         | |- _ /\ _ => split
         | |- _ -> _ => intros Himages; destruct images; [congruence |]
         | |- exists _ _, _ => eexists _, _; split; [reflexivity | left]
         | |- _ = _ => reflexivity
         end.
Qed.

End after_admin.

Lemma delete_removes_the_post_witness :
  fst (delete_post "c" client1) = Return tt
  /\ rows_of (tables (snd (delete_post "c" client1))) "rescue_posts"
     = [ in_district "Colombo" stored_P1;
         in_district "Galle" (stored "d" "2025-11-28T09:00:00Z" P1) ].
Proof.
  destruct (delete_removes_the_post "c" client1) as (Hrun & Hrows & _).
  - discriminate.
  - intros q. reflexivity.
  - apply Exists_cons_tl, Exists_cons_hd. reflexivity.
  - split; [exact Hrun |]. rewrite Hrows. reflexivity.
Defined.

Lemma deleted_post_is_gone_witness :
  fails_with (fst (delete_post "c" (snd (delete_post "c" client1)))) 404
  /\ fails_with (fst (verify_post "c" (snd (delete_post "c" client1)))) 404.
Proof.
  destruct (deleted_post_is_gone "c" client1) as (_ & Hdelete & Hverify).
  - intros q t. reflexivity.
  - reflexivity.
  - split; assumption.
Defined.

Lemma verified_post_leaves_the_unverified_listing_witness :
  exists posts,
    fst (list_unverified_posts (snd (verify_post "row-0" client3)))
    = Return posts
    /\ Forall (fun post => has_id "row-0" post = false) posts.
Proof.
  destruct (verified_post_leaves_the_unverified_listing "row-0" client3
              (verified (unverified_post "row-0")))
    as (posts & Hposts & _ & Hgone).
  - intros q t. reflexivity.
  - intros column desc rows. reflexivity.
  - reflexivity.
  - exists posts. split; assumption.
Defined.

Lemma database_failure_is_a_server_error_witness :
  server_error (fetch_rescue_posts_with_images client_down) client_down
               "connection refused"
  /\ server_error (delete_rescue_post "c" client_down) client_down
                  "connection refused".
Proof.
  destruct (database_failure_is_a_server_error client_down
              "connection refused" ∅ [] [] "" "c")
    as (_ & _ & Hfetch & _ & _ & _ & _ & _ & _ & _ & Hdelete).
  - intros q. reflexivity.
  - split; assumption.
Defined.

(** ** Image intake: what a successful upload leaves, and how it fails *)

Section upload_outcomes.
Variable s : Settings.

Lemma stored_as_same_services (w w' : World) (i : nat) (f : UploadFile)
    (o : PutObject) :
  same_services w w' -> stored_as s w' i f o -> stored_as s w i f o.
Proof.
  intros (Hguess & Huuid & _) (Hwritten & Htype & Hkey).
  unfold stored_as, resolved_type in *. rewrite <- Hguess, <- Huuid.
  split; [exact Hwritten |]. split; assumption.
Qed.

(** The loop body on a valid file whose write the store accepts. *)
Lemma upload_image_writes (w : World) (f : UploadFile) :
  file_ok s w f = true ->
  store_accepts w ->
  exists o w',
    upload_image s f w = (Return (cdn_url s (Key o)), w')
    /\ stored_as s w (uuids_drawn w) f o
    /\ objects (spaces w') = (objects (spaces w) ++ [o])%list
    /\ uuids_drawn w' = S (uuids_drawn w)
    /\ same_services w w'.
Proof.
  unfold file_ok, stored_as, resolved_type, upload_image, is_image_type,
    truthy_str, store_accepts.
  intros Hok Haccepts.
  destruct (filename f) as [name |] eqn:Hname; simpl in *; [| discriminate].
  destruct (String.eqb name ""); simpl in *; [discriminate |].
  match goal with
  | |- context [match ?ct with Some _ => _ | None => _ end] =>
      destruct ct as [ctype |] eqn:Htype
  end; simpl in *; [| discriminate].
  destruct (String.eqb ctype ""); simpl in *; [discriminate |].
  destruct (startswith ctype "image/"); simpl in *; [| discriminate].
  destruct (content f) as [| b body] eqn:Hbody; simpl in *; [discriminate |].
  match goal with
  | |- context [if ?c then _ else _] => destruct c eqn:Hlarge
  end; [unfold len_bytes in *; simpl length in *; lia |].
  unfold st_bind, uuid4_hex, st_ret, put_object. simpl.
  rewrite Haccepts.
  eexists {| Bucket := _; Key := _; Body := _; ContentType := _; ACL := _ |}, _.
  split; [reflexivity |]. simpl.
  split; [| repeat split].
  unfold written_for, object_key. simpl. rewrite Hbody.
  split; [repeat split |]. split; [reflexivity |].
  exists name. split; [reflexivity |].
  destruct (String.eqb (digitalocean_upload_prefix s) ""); reflexivity.
Qed.

Lemma upload_loop_writes (files : list UploadFile) (cdn_urls : list string)
    (w : World) :
  Forall (fun f => file_ok s w f = true) files ->
  store_accepts w ->
  exists new w',
    upload_loop s files cdn_urls w
    = (Return (cdn_urls ++ (cdn_url s ∘ Key <$> new))%list, w')
    /\ objects (spaces w') = (objects (spaces w) ++ new)%list
    /\ length new = length files
    /\ (forall i f, files !! i = Some f ->
          exists o, new !! i = Some o
                    /\ stored_as s w (uuids_drawn w + i) f o)
    /\ uuids_drawn w' = (uuids_drawn w + length files)%nat.
Proof.
  revert cdn_urls w. induction files as [| f files IH];
    intros cdn_urls w Hfiles Haccepts.
  - exists [], w. simpl. rewrite !app_nil_r, Nat.add_0_r.
    repeat split. intros i f Hi. rewrite lookup_nil in Hi. discriminate.
  - apply Forall_cons in Hfiles as [Hf Hfiles].
    destruct (upload_image_writes w f Hf Haccepts)
      as (o & w1 & Hstep & Hstored & Hobjects & Hdrawn & Hsame).
    destruct (IH (cdn_urls ++ [cdn_url s (Key o)])%list w1)
      as (new & w' & Hloop & Hobjects' & Hlength & Hall & Hdrawn').
    + eapply Forall_impl; [exact Hfiles |]. intros g Hg. simpl.
      rewrite (file_ok_same_services s w w1 g Hsame). exact Hg.
    + eapply store_accepts_same_services; eassumption.
    + exists (o :: new), w'. simpl. unfold st_bind. rewrite Hstep, Hloop.
      rewrite <- app_assoc. split; [reflexivity |].
      split; [rewrite Hobjects', Hobjects, <- app_assoc; reflexivity |].
      split; [rewrite Hlength; reflexivity |].
      split; [| lia].
      intros [| i] g Hi; simpl in Hi.
      * injection Hi as <-. exists o. rewrite Nat.add_0_r.
        split; [reflexivity | exact Hstored].
      * destruct (Hall i g Hi) as (o' & Ho' & Hstored').
        exists o'. split; [exact Ho' |].
        apply (stored_as_same_services w w1 _ _ _ Hsame).
        rewrite Hdrawn in Hstored'.
        replace (uuids_drawn w + S i)%nat with (S (uuids_drawn w) + i)%nat
          by lia.
        exact Hstored'.
Qed.

(** X8: a batch of valid files goes through when the store accepts the writes:
    one object per file is added to the store, in the order of the files,
    under a key made of the next UUID drawn and the file's extension, with
    the file's bytes and resolved content type; the URLs returned are the
    CDN URLs of these keys, in the same order. *)
Theorem upload_writes_one_object_per_file (files : list UploadFile)
    (w : World) :
  files <> [] ->
  Forall (fun f => file_ok s w f = true) files ->
  store_accepts w ->
  exists new w',
    upload_images_to_spaces files s w
    = (Return (cdn_url s ∘ Key <$> new), w')
    /\ objects (spaces w') = (objects (spaces w) ++ new)%list
    /\ length new = length files
    /\ (forall i f, files !! i = Some f ->
          exists o, new !! i = Some o
                    /\ stored_as s w (uuids_drawn w + i) f o)
    /\ uuids_drawn w' = (uuids_drawn w + length files)%nat.
Proof.
  intros Hfiles Hok Haccepts. unfold upload_images_to_spaces.
  destruct files as [| f files]; [congruence |].
  exact (upload_loop_writes (f :: files) [] w Hok Haccepts).
Qed.

(** How the loop body fails: on a file that is not valid, with a
    caller-input error; on a valid file, with the store failure that names
    the file, and only when the store refuses a write. *)
Lemma upload_image_raises (w w' : World) (f : UploadFile) (e : Exception) :
  upload_image s f w = (Raise e, w') ->
  (is_caller_input_error e = true /\ file_ok s w f = false)
  \/ (file_ok s w f = true
      /\ (exists name, filename f = Some name /\ e = store_failure name)
      /\ ~ store_accepts w).
Proof.
  unfold file_ok, resolved_type, upload_image, is_image_type, truthy_str,
    store_accepts, st_raise.
  destruct (filename f) as [name |] eqn:Hname; simpl;
    [| intros [= <- <-]; left; split; reflexivity].
  destruct (String.eqb name ""); simpl;
    [intros [= <- <-]; left; split; reflexivity |].
  match goal with
  | |- context [match ?ct with Some _ => _ | None => _ end] =>
      destruct ct as [ctype |] eqn:Htype
  end; simpl; [| intros [= <- <-]; left; split; reflexivity].
  destruct (String.eqb ctype ""); simpl;
    [intros [= <- <-]; left; split; reflexivity |].
  destruct (startswith ctype "image/"); simpl;
    [| intros [= <- <-]; left; split; reflexivity].
  destruct (content f) as [| b body] eqn:Hbody; simpl;
    [intros [= <- <-]; left; split; reflexivity |].
  match goal with
  | |- context [if ?c then _ else _] => destruct c eqn:Hlarge
  end.
  - intros [= <- <-]. left. split; [reflexivity |].
    unfold len_bytes in *. simpl length in *. lia.
  - unfold st_bind, uuid4_hex, st_ret, put_object. simpl.
    match goal with
    | |- context [if ?c then _ else _] => destruct c eqn:Hput
    end; [| discriminate].
    intros [= <- <-]. right.
    split; [unfold len_bytes in *; simpl length in *; lia |].
    split; [exists name; split; reflexivity |].
    intros Haccepts. rewrite Haccepts in Hput. discriminate.
Qed.

Lemma upload_loop_raises (files : list UploadFile) (cdn_urls : list string)
    (w : World) (e : Exception) :
  fst (upload_loop s files cdn_urls w) = Raise e ->
  (is_caller_input_error e = true
   /\ Exists (fun f => file_ok s w f = false) files)
  \/ ((exists f name, f ∈ files /\ filename f = Some name
                      /\ e = store_failure name)
      /\ ~ store_accepts w).
Proof.
  revert cdn_urls w. induction files as [| f files IH]; intros cdn_urls w.
  - discriminate.
  - simpl. unfold st_bind.
    destruct (upload_image s f w) as [[url | e'] w1] eqn:Hstep.
    + apply upload_image_returns in Hstep as (_ & _ & _ & Hsame).
      intros Hloop. apply IH in Hloop as [[Hkind Hbad] | [Hstore Hrefused]].
      * left. split; [exact Hkind |]. apply Exists_cons_tl.
        eapply Exists_impl; [exact Hbad |]. intros g Hg. simpl in Hg.
        rewrite <- (file_ok_same_services s w w1 g Hsame). exact Hg.
      * right. split.
        -- destruct Hstore as (g & name & Hin & Hname & He).
           exists g, name. split; [right; exact Hin | split; assumption].
        -- intros Haccepts. apply Hrefused.
           eapply store_accepts_same_services; eassumption.
    + simpl. intros [= ->].
      apply upload_image_raises in Hstep
        as [[Hkind Hbad] | (_ & (name & Hname & He) & Hrefused)].
      * left. split; [exact Hkind | apply Exists_cons_hd, Hbad].
      * right. split; [| exact Hrefused].
        exists f, name. split; [left | split; assumption].
Qed.

(** X9: an upload fails in one of two ways only: with a caller-input error, when
    the batch is empty or holds a file that is not valid; or with the server
    error "Failed to upload image" of status 500 that names one of the
    files, when the object store refuses a write. *)
Theorem upload_fails_in_two_ways (files : list UploadFile) (w : World)
    (e : Exception) :
  fst (upload_images_to_spaces files s w) = Raise e ->
  (is_caller_input_error e = true
   /\ (files = [] \/ Exists (fun f => file_ok s w f = false) files))
  \/ ((exists f name, f ∈ files /\ filename f = Some name
                      /\ e = store_failure name)
      /\ ~ store_accepts w).
Proof.
  unfold upload_images_to_spaces. destruct files as [| f files].
  - intros [= <-]. left. split; [reflexivity | left; reflexivity].
  - intros Hloop. apply upload_loop_raises in Hloop as [[Hkind Hbad] | Hstore].
    + left. split; [exact Hkind | right; exact Hbad].
    + right. exact Hstore.
Qed.

End upload_outcomes.

Lemma upload_writes_one_object_per_file_witness :
  exists new w',
    upload_images_to_spaces [photo0; photo1] settings0 world0
    = (Return (cdn_url settings0 ∘ Key <$> new), w')
    /\ length new = 2%nat
    /\ uuids_drawn w' = 2%nat.
Proof.
  destruct (upload_writes_one_object_per_file settings0 [photo0; photo1]
              world0) as (new & w' & Hrun & _ & Hlength & _ & Hdrawn).
  - discriminate.
  - repeat constructor.
  - intros o l. reflexivity.
  - exists new, w'. split; [exact Hrun |]. split; assumption.
Defined.

Lemma upload_fails_in_two_ways_witness :
  (is_caller_input_error
     (InvalidDataException "Only image uploads are allowed"
        [("field", PStr "images"); ("filename", PStr "report.pdf")]) = true
   /\ ([photo0; pdf0] = []
       \/ Exists (fun f => file_ok settings0 world0 f = false) [photo0; pdf0]))
  \/ ((exists f name,
         f ∈ [photo0; pdf0] /\ filename f = Some name
         /\ InvalidDataException "Only image uploads are allowed"
              [("field", PStr "images"); ("filename", PStr "report.pdf")]
            = store_failure name)
      /\ ~ store_accepts world0).
Proof.
  apply (upload_fails_in_two_ways settings0 [photo0; pdf0] world0).
  vm_compute. reflexivity.
Defined.

(** ** The creation of a post: what its failures leave behind, and what a
    success stores *)

Section creation_outcomes.
Variable s : Settings.


(** X10: a submission that does not pass the validation leaves the world as it
    was: nothing is uploaded and the database sees no request.  A
    submission whose upload fails has made no request to the database
    either. *)
Theorem rejected_submission_reaches_no_database (data : Payload)
    (files : list UploadFile) (w : World) (e : Exception) :
  (validate_with_app_error data = Raise e ->
   create_rescue_post_with_images s data files w = (Raise e, w))
  /\ (is_Return (validate_with_app_error data) = true ->
      fst (upload_images_to_spaces files s w) = Raise e ->
      fst (create_rescue_post_with_images s data files w) = Raise e
      /\ supabase_client (snd (create_rescue_post_with_images s data files w))
         = supabase_client w).
Proof.
  unfold create_rescue_post_with_images, st_bind, st_lift. split.
  - intros ->. reflexivity.
  - destruct (validate_with_app_error data) as [validated | e'];
      [| discriminate].
    intros _ Hupload.
    pose proof (upload_services s files w) as (_ & _ & Hclient & _).
    destruct (upload_images_to_spaces files s w) as [[urls | e'] w1];
      simpl in *; [discriminate |].
    injection Hupload as ->. split; [reflexivity | exact Hclient].
Qed.


Lemma mapM_returns {A B} (f : A -> result B) (l : list A) (k : list B) :
  mapM f l = Return k -> Forall2 (fun x y => f x = Return y) l k.
Proof.
  revert k. induction l as [| x l IH]; intros k.
  - intros [= <-]. constructor.
  - change (mapM f (x :: l)) with (y ← f x; k ← mapM f l; mret (y :: k)).
    destruct (f x) as [y | e] eqn:Hx; [| discriminate]. simpl.
    destruct (mapM f l) as [k' | e]; [| discriminate]. simpl.
    intros [= <-]. constructor; [exact Hx | apply IH; reflexivity].
Qed.

Lemma Forall2_imap {A B C} (R : A -> B -> Prop) (R' : A -> C -> Prop)
    (g : nat -> B -> C) (l : list A) (k : list B) :
  (forall i x y, R x y -> R' x (g i y)) ->
  Forall2 R l k -> Forall2 R' l (imap g k).
Proof.
  intros Hstep Hall. revert g Hstep.
  induction Hall as [| x y l k Hxy _ IH]; intros g Hstep; simpl.
  - constructor.
  - constructor; [apply Hstep, Hxy |].
    apply IH. intros i x' y' Hxy'. apply Hstep, Hxy'.
Qed.

(** A successful insert of images stores each payload row, completed with
    the columns the database fills in, after the rows the table had. *)
Lemma insert_images_returns (images_payload records : list row)
    (c c' : Client) :
  insert_images images_payload c = (Return records, c') ->
  rows_of (tables c') "images" = (rows_of (tables c) "images" ++ records)%list
  /\ Forall2 (fun payload record => payload ⊆ record) images_payload records.
Proof.
  unfold insert_images, execute.
  destruct images_payload as [| image rest].
  { intros [= <- <-]. rewrite app_nil_r. split; [reflexivity | constructor]. }
  destruct (api_error c _ (tables c)); [discriminate |].
  unfold perform. cbn [from_table table verb].
  set (stored := imap _ _).
  assert (Forall2 (fun payload record : row => payload ⊆ record)
                  (image :: rest) stored) as Hstored.
  { unfold stored. eapply (Forall2_imap (fun x y : row => x = y)).
    - intros i x y ->. apply map_union_subseteq_l.
    - apply Forall_Forall2_diag, Forall_true. reflexivity. }
  destruct stored as [| record records'] eqn:Hrecords;
    [inversion Hstored |].
  intros [= <- <-]. simpl. rewrite rows_of_insert.
  split; [reflexivity | exact Hstored].
Qed.

Lemma insert_rescue_post_keeps_images (payload post : row) (c c' : Client) :
  insert_rescue_post payload c = (Return post, c') ->
  rows_of (tables c') "images" = rows_of (tables c) "images".
Proof.
  unfold insert_rescue_post, execute.
  destruct (api_error c _ (tables c)); [discriminate |].
  simpl. intros [= _ <-]. simpl. apply rows_of_insert_ne. discriminate.
Qed.

(** The rows stored for the payloads built from the URLs of a post. *)
Lemma image_rows (post : row) (urls : list string)
    (payloads records : list row) :
  Forall2 (fun url payload => image_payload post url = Return payload)
          urls payloads ->
  Forall2 (fun payload record : row => payload ⊆ record) payloads records ->
  Forall2 (image_of post) urls records.
Proof.
  intros Hpayloads. revert records.
  induction Hpayloads as [| url p urls ps Hp _ IH]; intros records Hstored.
  - apply Forall2_nil_inv_l in Hstored as ->. constructor.
  - apply Forall2_cons_inv_l in Hstored as (record & rest & Hsub & Hrest & ->).
    constructor; [| apply IH, Hrest].
    unfold image_payload, getitem in Hp. unfold image_of.
    destruct (post !! "id") as [post_id |]; [| discriminate].
    injection Hp as <-. split.
    + eapply lookup_weaken; [apply lookup_insert_eq | exact Hsub].
    + eapply lookup_weaken; [| exact Hsub].
      rewrite lookup_insert_ne by discriminate. apply lookup_insert_eq.
Qed.

(** X12: a successful creation stores one image row per uploaded file, in the
    order of the files, after the rows the images table had: each row holds
    the CDN URL returned for its file and, as [post_id], the id of the post
    just stored. *)
Theorem created_images_reference_the_post (data : Payload)
    (files : list UploadFile) (w w' : World) (post : row)
    (images : list row) :
  fst (create_rescue_post_with_images s data files w)
  = Return (post, images) ->
  snd (create_rescue_post_with_images s data files w) = w' ->
  exists urls,
    fst (upload_images_to_spaces files s w) = Return urls
    /\ length urls = length files
    /\ is_Some (post !! "id")
    /\ Forall2 (image_of post) urls images
    /\ rows_of (tables (supabase_client w')) "images"
       = (rows_of (tables (supabase_client w)) "images" ++ images)%list.
Proof.
  intros Hresult Hworld.
  pose proof (pair_of_projections _ _ _ Hresult Hworld) as Hcreate.
  clear Hresult Hworld. revert Hcreate.
  unfold create_rescue_post_with_images. intros Hcreate.
  apply st_bind_returns in Hcreate as (validated & w1 & Hvalidated & Hcreate).
  apply st_lift_returns in Hvalidated as [Hvalidated ->].
  apply st_bind_returns in Hcreate as (image_urls & w2 & Hupload & Hcreate).
  apply st_bind_returns in Hcreate as (post_payload & w3 & Hpayload & Hcreate).
  apply st_lift_returns in Hpayload as [Hpayload ->].
  apply st_bind_returns in Hcreate as (post_record & w4 & Hinsert & Hcreate).
  apply on_supabase_returns in Hinsert as (c4 & Hinsert & ->).
  apply st_bind_returns in Hcreate as (images_payload & w5 & Himages & Hcreate).
  apply st_lift_returns in Himages as [Himages ->].
  apply st_bind_returns in Hcreate as (image_records & w6 & Hrecords & Hcreate).
  apply on_supabase_returns in Hrecords as (c6 & Hrecords & ->).
  unfold st_ret in Hcreate. injection Hcreate as <- <- <-.
  pose proof (upload_services s files w) as (_ & _ & Hclient & _).
  rewrite Hupload in Hclient. simpl in Hclient.
  exists image_urls. rewrite Hupload. split; [reflexivity |].
  assert (length image_urls = length files) as Hlength.
  { revert Hupload. unfold upload_images_to_spaces.
    destruct files as [| f files]; [discriminate |]. intros Hloop.
    apply upload_loop_returns in Hloop as (new & -> & Hshape).
    symmetry. apply (Forall2_length _ _ _ Hshape). }
  split; [exact Hlength |].
  apply insert_rescue_post_keeps_images in Hinsert.
  apply insert_images_returns in Hrecords as [Hrows Hstored].
  simpl in Hrows, Hinsert. rewrite Hclient in Hinsert.
  apply mapM_returns in Himages.
  assert (is_Some (post_record !! "id")) as Hid.
  { destruct image_urls as [| url urls].
    - destruct files; [discriminate | simpl in Hlength; lia].
    - apply Forall2_cons_inv_l in Himages as (p & ps & Hp & _ & _).
      unfold image_payload, getitem in Hp.
      destruct (post_record !! "id"); [eauto | discriminate]. }
  split; [exact Hid |]. split.
  - exact (image_rows _ _ _ _ Himages Hstored).
  - simpl. rewrite Hrows, Hinsert. reflexivity.
Qed.

End creation_outcomes.

Lemma rejected_submission_reaches_no_database_witness :
  snd (create_rescue_post_with_images settings0 two_short_fields_payload
         [photo0] world0) = world0.
Proof.
  destruct (validate_with_app_error two_short_fields_payload)
    as [validated | e] eqn:Hvalidated;
    [vm_compute in Hvalidated; discriminate |].
  rewrite (proj1 (rejected_submission_reaches_no_database settings0
                    two_short_fields_payload [photo0] world0 e) Hvalidated).
  reflexivity.
Defined.


Lemma created_images_reference_the_post_witness :
  exists urls,
    fst (upload_images_to_spaces [photo0; photo1] settings0 world0)
    = Return urls
    /\ Forall2 (image_of post0) urls images0.
Proof.
  assert (fst created0 = Return (post0, images0)) as Hrun.
  { unfold post0, images0.
    rewrite (returned_value (fst created0) (∅, [])) at 1
      by (vm_compute; reflexivity).
    destruct (value_or (fst created0) (∅, [])). reflexivity. }
  destruct (created_images_reference_the_post settings0 payload0
              [photo0; photo1] world0 _ post0 images0 Hrun eq_refl)
    as (urls & Hurls & _ & _ & Himages & _).
  exists urls. split; assumption.
Defined.

(** ** The scorer on any post, and the ranking built on it *)

Section scorer_bounds.
Variable iso_timestamp : string -> option Qc.

Lemma weight_bounds (b : bool) (w : Z) : 0 <= w -> 0 <= weight b w <= w.
Proof. destruct b; simpl; lia. Qed.

Lemma water_table_bounds (tag : string) : 0 <= spec_water_table tag <= 9.
Proof. unfold spec_water_table. repeat case_match; lia. Qed.

Lemma countable_spec (v : pyval) :
  if countable v then is_Some (isinstance_int (py_or v (PInt 0)))
  else isinstance_int (py_or v (PInt 0)) = None.
Proof.
  unfold countable, py_or. destruct (truthy v) eqn:Htruthy; simpl.
  - destruct v; simpl; eauto.
  - eauto.
Qed.

Lemma textual_spec (v : pyval) :
  if textual v then is_Some (isinstance_str (py_or v (PStr "")))
  else isinstance_str (py_or v (PStr "")) = None.
Proof.
  unfold textual, py_or. destruct (truthy v) eqn:Htruthy; simpl.
  - destruct v; simpl; eauto.
  - eauto.
Qed.

(** The scorer returns on the posts whose people count can stand for a
    number and whose water level can stand for a text. *)
Lemma scorable_spec (post : row) :
  scorable post = true
  <-> (exists people water,
         isinstance_int
           (py_or (get post "number_of_peoples_to_rescue") (PInt 0))
         = Some people
         /\ isinstance_str (py_or (get post "water_level") (PStr ""))
            = Some water).
Proof.
  unfold scorable.
  pose proof (countable_spec (get post "number_of_peoples_to_rescue")) as Hp.
  pose proof (textual_spec (get post "water_level")) as Hw.
  destruct (countable _), (textual _); simpl; split;
    try discriminate; try reflexivity;
    try (intros (people & water & Hp' & Hw'); congruence).
  intros _. destruct Hp as [people Hp], Hw as [water Hw]. eauto.
Qed.

(** The score of any post the scorer returns on: the people term and at
    most 42 points more. *)
Lemma priority_score_bounds (post : row) (score : Z) (tie_breaker : Qc) :
  _priority_score iso_timestamp post = Return (score, tie_breaker) ->
  scorable post = true
  /\ Z.min (people_of post) 50 * 2 <= score
     <= Z.min (people_of post) 50 * 2 + 42.
Proof.
  unfold _priority_score, people_of, needs.
  destruct (isinstance_int (py_or _ _)) as [people |] eqn:Hpeople;
    [| discriminate].
  destruct (isinstance_str _) as [water |] eqn:Hwater; [| discriminate].
  cbn [mbind result_bind foldl]. rewrite water_map_table, !add_weight.
  intros [= <- _].
  split; [apply scorable_spec; eauto |].
  change (default 0 (Some people)) with people.
  pose proof (water_table_bounds (lower water)).
  repeat match goal with
         | |- context [weight ?b ?w] =>
             let H := fresh "Hw" in
             pose proof (weight_bounds b w ltac:(lia)) as H;
             generalize dependent (weight b w); intros
         end.
  destruct (isinstance_int (get post "safe_hours")) as [hours |];
    repeat case_match; lia.
Qed.

(** The scorer by its two conversions: the people count first, the water
    level after it. *)
Lemma priority_score_cases (post : row) :
  match isinstance_int
          (py_or (get post "number_of_peoples_to_rescue") (PInt 0)),
        isinstance_str (py_or (get post "water_level") (PStr "")) with
  | None, _ => _priority_score iso_timestamp post = Raise TypeError
  | Some _, None => _priority_score iso_timestamp post = Raise AttributeError
  | Some _, Some _ => is_Return (_priority_score iso_timestamp post) = true
  end.
Proof.
  unfold _priority_score.
  destruct (isinstance_int _); [| reflexivity].
  destruct (isinstance_str _); reflexivity.
Qed.

Lemma priority_score_raises (post : row) (e : Exception) :
  _priority_score iso_timestamp post = Raise e ->
  scorable post = false /\ scorer_error e.
Proof.
  intros Hraise. pose proof (priority_score_cases post) as Hcases.
  pose proof (scorable_spec post) as Hspec. unfold scorer_error.
  destruct (isinstance_int _) as [people |].
  - destruct (isinstance_str _) as [water |].
    + rewrite Hraise in Hcases. discriminate.
    + split; [| right; congruence].
      destruct (scorable post); [| reflexivity].
      destruct (proj1 Hspec eq_refl) as (? & ? & _ & ?). discriminate.
  - split; [| left; congruence].
    destruct (scorable post); [| reflexivity].
    destruct (proj1 Hspec eq_refl) as (? & ? & ? & _). discriminate.
Qed.

Lemma priority_score_scorable (post : row) :
  scorable post = true ->
  is_Return (_priority_score iso_timestamp post) = true.
Proof.
  intros Hscorable.
  destruct (_priority_score iso_timestamp post) as [key | e] eqn:Hscore;
    [reflexivity |].
  apply priority_score_raises in Hscore as [Hscore _]. congruence.
Qed.

(** X13: the score of a post is never more than 142, and it is not negative
    unless the people count is; the scorer fails exactly on the posts whose
    people count is not a number or whose water level is not a text (a
    value that counts as false apart), with [TypeError] or
    [AttributeError]. *)
Theorem score_is_bounded (post : row) :
  match _priority_score iso_timestamp post with
  | Return (score, _) =>
      scorable post = true
      /\ score <= max_score
      /\ (0 <= people_of post -> 0 <= score)
  | Raise e => scorable post = false /\ scorer_error e
  end.
Proof.
  destruct (_priority_score iso_timestamp post) as [[score tb] | e] eqn:Hscore.
  - apply priority_score_bounds in Hscore as [Hscorable Hbounds].
    unfold max_score. split; [exact Hscorable |]. split; lia.
  - apply priority_score_raises, Hscore.
Qed.

Lemma mapM_is_Return {A B} (f : A -> result B) (l : list A) :
  Forall (fun x => is_Return (f x) = true) l -> is_Return (mapM f l) = true.
Proof.
  induction 1 as [| x l Hx _ IH]; [reflexivity |].
  change (mapM f (x :: l)) with (y ← f x; k ← mapM f l; mret (y :: k)).
  destruct (f x); [| discriminate]. simpl.
  destruct (mapM f l); [reflexivity | discriminate].
Qed.

Lemma mapM_raises {A B} (f : A -> result B) (P : Exception -> Prop)
    (l : list A) :
  (forall x e, f x = Raise e -> P e) ->
  Exists (fun x => is_Return (f x) = false) l ->
  exists e, mapM f l = Raise e /\ P e.
Proof.
  intros Hkind. induction 1 as [x l Hx | x l _ IH];
    change (mapM f (x :: l)) with (y ← f x; k ← mapM f l; mret (y :: k)).
  - destruct (f x) as [y | e] eqn:Hfx; [discriminate |].
    exists e. split; [reflexivity | eapply Hkind, Hfx].
  - destruct (f x) as [y | e] eqn:Hfx.
    + destruct IH as (e & -> & He). exists e. split; [reflexivity | exact He].
    + exists e. split; [reflexivity | eapply Hkind, Hfx].
Qed.

(** X14: the ranking needs every stored post to be scorable: when all are, the
    top-critical operation returns; one post that is not makes the whole
    operation fail with the scorer's [TypeError] or [AttributeError], which
    nothing turns into an application error. *)
Theorem ranking_needs_scorable_posts (limit : Z) (supabase supabase' : Client)
    (posts : list row) :
  fetch_rescue_posts_with_images supabase = (Return posts, supabase') ->
  (Forall (fun post => scorable post = true) posts ->
   is_Return (fst (list_top_critical_posts iso_timestamp limit supabase))
   = true)
  /\ (Exists (fun post => scorable post = false) posts ->
      exists e,
        list_top_critical_posts iso_timestamp limit supabase
        = (Raise e, supabase')
        /\ scorer_error e /\ status_of e = 500).
Proof.
  intros Hfetch.
  unfold list_top_critical_posts, st_bind, st_lift, st_ret, sorted_reverse.
  rewrite Hfetch. split.
  - intros Hall.
    assert (is_Return (mapM (_priority_score iso_timestamp) posts) = true)
      as Hkeys.
    { apply mapM_is_Return. eapply Forall_impl; [exact Hall |].
      apply priority_score_scorable. }
    destruct (mapM _ posts); [reflexivity | discriminate].
  - intros Hbad.
    destruct (mapM_raises (_priority_score iso_timestamp) scorer_error posts)
      as (e & -> & He).
    + intros x e Hx. apply priority_score_raises in Hx as [_ He]. exact He.
    + eapply Exists_impl; [exact Hbad |]. intros post Hpost. simpl in *.
      destruct (_priority_score iso_timestamp post) as [[score tb] | e']
        eqn:Hscore; [| reflexivity].
      apply priority_score_bounds in Hscore as [Hscore _]. congruence.
    + exists e. split; [reflexivity |]. split; [exact He |].
      destruct He as [-> | ->]; reflexivity.
Qed.

End scorer_bounds.

Lemma ranking_needs_scorable_posts_witness :
  exists e,
    list_top_critical_posts no_timestamp 3 client4
    = (Raise e, snd (fetch_rescue_posts_with_images client4))
    /\ scorer_error e /\ status_of e = 500.
Proof.
  apply (ranking_needs_scorable_posts no_timestamp 3 client4
           (snd (fetch_rescue_posts_with_images client4))
           (embed_images tables4
              <$> [stored_P1;
                   <["number_of_peoples_to_rescue" := PStr "many"]> late_P2])).
  - reflexivity.
  - apply Exists_cons_tl, Exists_cons_hd. reflexivity.
Defined.

(** ** The ranking: ties and the size of the answer *)

Section ranking_order.
Variable iso_timestamp : string -> option Qc.

Lemma key_lt_irrefl (a : Z * Qc) : key_lt a a = false.
Proof.
  unfold key_lt. rewrite Z.eqb_refl. simpl.
  apply bool_decide_eq_false, Qcle_not_lt, Qcle_refl.
Qed.

Lemma filter_insert_reverse {A} (k : Z * Qc) (x : (Z * Qc) * A)
    (l : list ((Z * Qc) * A)) :
  filter (fun p => fst p = k) (insert_reverse x l)
  = filter (fun p => fst p = k) (x :: l).
Proof.
  induction l as [| y l IH]; simpl; [reflexivity |].
  destruct (key_lt (fst x) (fst y)) eqn:Hlt; [| reflexivity].
  rewrite (filter_cons _ y), IH, !filter_cons.
  destruct (decide (fst x = k)) as [Hx | Hx];
    destruct (decide (fst y = k)) as [Hy | Hy]; try reflexivity.
  rewrite Hx, Hy, key_lt_irrefl in Hlt. discriminate.
Qed.

(** The sort is stable: the pairs with one key keep their order. *)
Lemma sort_reverse_stable {A} (k : Z * Qc) (l : list ((Z * Qc) * A)) :
  filter (fun p => fst p = k) (sort_reverse l)
  = filter (fun p => fst p = k) l.
Proof.
  induction l as [| x l IH]; simpl; [reflexivity |].
  rewrite filter_insert_reverse, !filter_cons, IH. reflexivity.
Qed.

Lemma filter_has_key (key : row -> result (Z * Qc)) (k : Z * Qc)
    (l : list ((Z * Qc) * row)) :
  Forall (fun p => key (snd p) = Return (fst p)) l ->
  filter (fun post => has_key key k post = true) (snd <$> l)
  = snd <$> filter (fun p => fst p = k) l.
Proof.
  induction 1 as [| p l Hp _ IH]; [reflexivity |].
  rewrite fmap_cons, !filter_cons, IH. unfold has_key. rewrite Hp.
  destruct (decide (fst p = k)) as [Hk | Hk].
  - rewrite bool_decide_eq_true_2 by exact Hk.
    destruct (decide (true = true)); [reflexivity | congruence].
  - rewrite bool_decide_eq_false_2 by exact Hk.
    destruct (decide (false = true)); [discriminate | reflexivity].
Qed.

Lemma zip_keys (key : row -> result (Z * Qc)) (posts : list row)
    (keys : list (Z * Qc)) :
  Forall2 (fun post k => key post = Return k) posts keys ->
  Forall (fun p => key (snd p) = Return (fst p)) (zip keys posts)
  /\ snd <$> zip keys posts = posts.
Proof.
  induction 1 as [| post k posts keys Hk _ [IH1 IH2]]; simpl.
  - split; [constructor | reflexivity].
  - split; [constructor; assumption | f_equal; exact IH2].
Qed.

(** X15: posts that the scorer gives the same key (the same score and the same
    tiebreak, as two posts without a readable timestamp have) stand in the
    ranking in the order in which the database listed them. *)
Theorem equal_keys_keep_the_listing_order (posts ranked : list row)
    (k : Z * Qc) :
  sorted_reverse (_priority_score iso_timestamp) posts = Return ranked ->
  filter (fun post => has_key (_priority_score iso_timestamp) k post = true)
         ranked
  = filter (fun post => has_key (_priority_score iso_timestamp) k post = true)
           posts.
Proof.
  unfold sorted_reverse.
  destruct (mapM (_priority_score iso_timestamp) posts) as [keys | e]
    eqn:Hkeys; [| discriminate].
  simpl. intros [= <-].
  apply mapM_returns, zip_keys in Hkeys as [Hall Hposts].
  rewrite filter_has_key.
  - rewrite sort_reverse_stable.
    rewrite <- (filter_has_key (_priority_score iso_timestamp)) by exact Hall.
    rewrite Hposts. reflexivity.
  - rewrite sort_reverse_perm. exact Hall.
Qed.

Lemma slice_to_length {A} (limit : Z) (l : list A) :
  Z.of_nat (length (slice_to limit l))
  = slice_length limit (Z.of_nat (length l)).
Proof.
  unfold slice_to, slice_length.
  destruct (0 <=? limit) eqn:Hlimit; rewrite length_take; lia.
Qed.

Lemma slice_to_prefix {A} (limit : Z) (l : list A) :
  slice_to limit l `prefix_of` l.
Proof. unfold slice_to. destruct (0 <=? limit); apply prefix_take. Qed.

(** X16: the answer of the top-critical operation for any limit: a prefix of the
    ranking of all stored posts, [limit] posts long, or all of them when
    there are fewer; a negative limit leaves out that many posts from the
    end of the ranking.  The route, which calls the operation with the
    default limit, answers with at most three posts. *)
Theorem top_critical_is_a_prefix (limit : Z) (supabase supabase' : Client)
    (posts : list row) :
  fetch_rescue_posts_with_images supabase = (Return posts, supabase') ->
  Forall (fun post => scorable post = true) posts ->
  exists ranked top,
    sorted_reverse (_priority_score iso_timestamp) posts = Return ranked
    /\ ranked ≡ₚ posts
    /\ list_top_critical_posts iso_timestamp limit supabase
       = (Return top, supabase')
    /\ top `prefix_of` ranked
    /\ Z.of_nat (length top) = slice_length limit (Z.of_nat (length posts))
    /\ exists top3,
         posts.list_critical_posts iso_timestamp supabase
         = (Return top3, supabase')
         /\ (length top3 <= 3)%nat.
Proof.
  intros Hfetch Hall.
  destruct (sorted_reverse_spec
              (_priority_score iso_timestamp)
              (fun post => value_or (_priority_score iso_timestamp post)
                                    (0, 0%Qc)) posts)
    as (ranked & Hsorted & Hperm & _).
  { eapply Forall_impl; [exact Hall |]. intros post Hpost. simpl.
    apply returned_value, priority_score_scorable, Hpost. }
  assert (forall n,
            list_top_critical_posts iso_timestamp n supabase
            = (Return (slice_to n ranked), supabase')) as Hrun.
  { intros n. unfold list_top_critical_posts, st_bind, st_lift, st_ret.
    rewrite Hfetch, Hsorted. reflexivity. }
  exists ranked, (slice_to limit ranked).
  split; [exact Hsorted |]. split; [exact Hperm |].
  split; [apply Hrun |]. split; [apply slice_to_prefix |].
  split.
  - rewrite slice_to_length, (Permutation_length Hperm). reflexivity.
  - exists (slice_to default_limit ranked).
    split; [apply Hrun |].
    pose proof (slice_to_length default_limit ranked) as Hlength.
    revert Hlength. unfold slice_length, default_limit. simpl. lia.
Qed.

End ranking_order.

Lemma equal_keys_keep_the_listing_order_witness :
  filter (fun post => has_key (_priority_score no_timestamp) (13, 0%Qc) post
                      = true)
         (value_or (sorted_reverse (_priority_score no_timestamp)
                                   [late_P2; stored_P1; early_P2]) [])
  = [late_P2; early_P2].
Proof.
  rewrite (equal_keys_keep_the_listing_order no_timestamp
             [late_P2; stored_P1; early_P2] _ (13, 0%Qc)).
  - reflexivity.
  - apply returned_value. reflexivity.
Defined.

Lemma top_critical_is_a_prefix_witness :
  exists top,
    fst (list_top_critical_posts iso0 (-1) client0) = Return top
    /\ Z.of_nat (length top) = 2.
Proof.
  destruct (top_critical_is_a_prefix iso0 (-1) client0
              (snd (fetch_rescue_posts_with_images client0))
              (embed_images tables0 <$> [late_P2; stored_P1; early_P2]))
    as (ranked & top & _ & _ & Htop & _ & Hlength & _).
  - reflexivity.
  - repeat constructor.
  - exists top. rewrite Htop. split; [reflexivity | exact Hlength].
Defined.

(** ** The validated model *)

Section validated_model.

Lemma int_field_valid (input : option Z) (lo hi : Z) (v : pyval) :
  int_field input (Some lo) (Some hi) = Valid v ->
  int_in_range input lo hi (Some v).
Proof.
  unfold int_field, int_constraints, int_in_range, first_error.
  destruct input as [n |]; [| intros [= <-]; reflexivity].
  destruct (hi <? n) eqn:Hhi; [discriminate |].
  destruct (n <? lo) eqn:Hlo; [discriminate |].
  intros [= <-]. split; [lia | reflexivity].
Qed.

Lemma bool_field_valid (input : option bool) (d : bool) (v : pyval) :
  bool_field input d = Valid v -> exists b, v = PBool b.
Proof. unfold bool_field. destruct input; intros [= <-]; eauto. Qed.

Lemma plain_str_field_valid (input : option string)
    (default_value : option pyval) (min_length max_length : option Z)
    (v : pyval) :
  str_field input default_value min_length max_length None = Valid v ->
  match input with
  | Some text =>
      v = PStr text
      /\ match min_length with Some n => n <= len text | None => True end
      /\ match max_length with Some n => len text <= n | None => True end
  | None => default_value = Some v
  end.
Proof.
  unfold str_field, str_constraints, first_error.
  destruct input as [text |];
    [| destruct default_value; [intros [= ->]; reflexivity | discriminate]].
  destruct min_length as [lo |], max_length as [hi |];
    repeat match goal with
           | |- context [if ?c then _ else _] => destruct c eqn:?
           end;
    try discriminate; intros [= <-]; repeat split; lia.
Qed.

Lemma priority_field_valid (input : option string) (v : pyval) :
  str_field input required (Some 3) (Some 20) (Some validate_priority_level)
  = Valid v ->
  exists text,
    input = Some text
    /\ v = PStr (lower (strip text))
    /\ lower (strip text) ∈ ["high"; "medium"; "low"].
Proof.
  unfold str_field, required.
  destruct input as [text |]; [| discriminate].
  destruct (str_constraints _ _ text); [discriminate |].
  unfold validate_priority_level, run_validator.
  case_bool_decide as Hlevel; simpl; [| discriminate].
  intros [= <-]. exists text. repeat split. exact Hlevel.
Qed.

Lemma validate_url_returns (url field_name cleaned : string) :
  _validate_url url field_name = Return cleaned ->
  cleaned = strip url /\ is_clean_url cleaned.
Proof.
  unfold _validate_url, is_clean_url.
  destruct (String.eqb (strip url) "") eqn:Hblank; [discriminate |].
  destruct (has_http_scheme (strip url)) eqn:Hscheme; simpl; [| discriminate].
  intros [= <-]. apply String.eqb_neq in Hblank. repeat split; assumption.
Qed.

Lemma location_url_field_valid (input : option string) (v : pyval) :
  str_field input required (Some 5) (Some 2048) (Some validate_location_url)
  = Valid v ->
  exists text,
    input = Some text /\ v = PStr (strip text) /\ is_clean_url (strip text).
Proof.
  unfold str_field, required.
  destruct input as [text |]; [| discriminate].
  destruct (str_constraints _ _ text); [discriminate |].
  unfold validate_location_url, run_validator.
  destruct (_validate_url text "location_url") as [cleaned | e] eqn:Hurl;
    [| destruct e; discriminate].
  apply validate_url_returns in Hurl as [-> Hclean].
  intros [= <-]. exists text. repeat split; apply Hclean.
Qed.

Lemma model_field_at (data : Payload) (i : nat) (name : string) (o : Outcome) :
  model_fields data !! i = Some (name, o) -> (name, o) ∈ model_fields data.
Proof. apply list_elem_of_lookup_2. Qed.

Ltac flag_at Hfield i :=
  let v := fresh "v" in
  let Hv := fresh "Hv" in
  let Hlookup := fresh "Hlookup" in
  let b := fresh "b" in
  destruct (Hfield i _ _ eq_refl) as (v & Hv & Hlookup);
  apply bool_field_valid in Hv as [b ->]; exists b; exact Hlookup.

(** X17: what every validated model holds: a priority level that is one of
    "high", "medium" and "low", in lower case whatever the case of the
    input; a location URL without surrounding blanks that starts with
    http:// or https://; a people count between 1 and 10000 and safe hours
    between 0 and 1000, or null when they are not given; a full name of 3
    to 150 characters; and a boolean for each of the seven flags. *)
Theorem validated_model_is_well_formed (data : Payload) (validated : row) :
  validate_with_app_error data = Return validated ->
  (exists text,
     priority_level data = Some text
     /\ validated !! "priority_level" = Some (PStr (lower (strip text)))
     /\ lower (strip text) ∈ ["high"; "medium"; "low"])
  /\ (exists text,
        location_url data = Some text
        /\ validated !! "location_url" = Some (PStr (strip text))
        /\ is_clean_url (strip text))
  /\ int_in_range (number_of_peoples_to_rescue data) 1 10000
                  (validated !! "number_of_peoples_to_rescue")
  /\ int_in_range (safe_hours data) 0 1000 (validated !! "safe_hours")
  /\ (exists name,
        full_name data = Some name
        /\ validated !! "full_name" = Some (PStr name)
        /\ 3 <= len name <= 150)
  /\ Forall (fun flag => exists b, validated !! flag = Some (PBool b))
            flag_fields.
Proof.
  intros Hvalidated.
  pose proof (fun i name o H =>
                validated_field data validated name o Hvalidated
                                (model_field_at data i name o H)) as Hfield.
  split; [| split; [| split; [| split; [| split]]]].
  - destruct (Hfield 7%nat _ _ eq_refl) as (v & Hv & Hlookup).
    apply priority_field_valid in Hv as (text & Htext & -> & Hlevel).
    eauto.
  - destruct (Hfield 19%nat _ _ eq_refl) as (v & Hv & Hlookup).
    apply location_url_field_valid in Hv as (text & Htext & -> & Hclean).
    eauto.
  - destruct (Hfield 8%nat _ _ eq_refl) as (v & Hv & Hlookup).
    apply int_field_valid in Hv. rewrite Hlookup. exact Hv.
  - destruct (Hfield 11%nat _ _ eq_refl) as (v & Hv & Hlookup).
    apply int_field_valid in Hv. rewrite Hlookup. exact Hv.
  - destruct (Hfield 0%nat _ _ eq_refl) as (v & Hv & Hlookup).
    apply plain_str_field_valid in Hv.
    destruct (full_name data) as [name |]; [| discriminate].
    destruct Hv as (-> & Hlo & Hhi). exists name. repeat split; assumption.
  - unfold flag_fields.
    repeat constructor;
      first [flag_at Hfield 9%nat | flag_at Hfield 12%nat
            | flag_at Hfield 13%nat | flag_at Hfield 14%nat
            | flag_at Hfield 15%nat | flag_at Hfield 16%nat
            | flag_at Hfield 17%nat].
Qed.

(** The payload of the insert holds the fields of the validated model,
    the two phone numbers and the image URLs apart. *)
Lemma post_payload_other (validated post_payload : row) (name : string) :
  post_payload_of validated = Return post_payload ->
  name <> "image_urls" ->
  name <> "phone_number" ->
  name <> "alt_phone_number" ->
  post_payload !! name = validated !! name.
Proof.
  intros Hpayload Himages Hphone Halt. revert Hpayload.
  unfold post_payload_of.
  destruct (py_int (get validated "phone_number")) as [phone | e];
    [| discriminate].
  cbn [mbind result_bind].
  destruct (get validated "alt_phone_number") as [| b | n | text | l | d];
    try (destruct (py_int _) as [alt | e]; [| discriminate]);
    cbn [mbind result_bind]; intros [= <-];
    rewrite ?lookup_insert_ne, lookup_delete_ne by congruence; reflexivity.
Qed.

End validated_model.

Section created_posts.
Variable iso_timestamp : string -> option Qc.

(** X18: a post created through the API can always be ranked: on the row stored
    for a validated submission, whatever columns the database fills in, the
    scorer returns, with a score between 0 and 142. *)
Theorem created_posts_can_be_ranked (data : Payload)
    (validated post_payload server_columns : row) :
  validate_with_app_error data = Return validated ->
  post_payload_of validated = Return post_payload ->
  exists score tie_breaker,
    _priority_score iso_timestamp (post_payload ∪ server_columns)
    = Return (score, tie_breaker)
    /\ 0 <= score <= max_score.
Proof.
  intros Hvalidated Hpayload.
  pose proof (fun i name o H =>
                validated_field data validated name o Hvalidated
                                (model_field_at data i name o H)) as Hfield.
  set (post := post_payload ∪ server_columns).
  assert (forall name v,
            name <> "image_urls" -> name <> "phone_number" ->
            name <> "alt_phone_number" ->
            validated !! name = Some v -> get post name = v) as Hget.
  { intros name v H1 H2 H3 Hv. unfold get, post.
    erewrite lookup_union_Some_l; [reflexivity |].
    rewrite (post_payload_other _ _ name Hpayload) by assumption. exact Hv. }
  destruct (Hfield 8%nat _ _ eq_refl) as (people & Hpeople & Hlookup).
  apply int_field_valid in Hpeople.
  apply Hget in Hlookup; try discriminate.
  destruct (Hfield 10%nat _ _ eq_refl) as (water & Hwater & Hlookup').
  apply plain_str_field_valid in Hwater.
  apply Hget in Hlookup'; try discriminate.
  assert (scorable post = true /\ 0 <= people_of post) as [Hscorable Hcount].
  { unfold scorable, people_of. rewrite Hlookup, Hlookup'.
    assert (textual water = true) as ->.
    { destruct (rescue_posts.water_level data) as [text |].
      - destruct Hwater as [-> _]. unfold textual. apply orb_true_r.
      - injection Hwater as <-. reflexivity. }
    unfold int_in_range in Hpeople.
    destruct (number_of_peoples_to_rescue data) as [n |].
    - destruct Hpeople as [Hrange [= ->]]. unfold countable, py_or. simpl.
      destruct (n =? 0) eqn:Hn; simpl; split; try reflexivity; lia.
    - injection Hpeople as ->. split; [reflexivity | simpl; lia]. }
  pose proof (priority_score_scorable iso_timestamp post Hscorable) as Hreturns.
  destruct (_priority_score iso_timestamp post) as [[score tb] | e] eqn:Hscore;
    [| discriminate].
  exists score, tb. split; [reflexivity |].
  apply priority_score_bounds in Hscore as [_ Hbounds].
  unfold max_score. lia.
Qed.

End created_posts.

(** ** The validator of image URLs *)

Section image_urls.

Lemma validate_urls_loop_returns (urls cleaned result : list string) :
  _validate_urls_loop urls cleaned = Return result
  <-> result = (cleaned ++ filter (fun url => url <> "") (strip <$> urls))%list
      /\ Forall (fun url => has_http_scheme url = true)
                (filter (fun url => url <> "") (strip <$> urls)).
Proof.
  revert cleaned. induction urls as [| url urls IH]; intros cleaned;
    cbn [_validate_urls_loop fmap list_fmap].
  - rewrite filter_nil, app_nil_r. split.
    + intros [= <-]. split; [reflexivity | constructor].
    + intros [-> _]. reflexivity.
  - rewrite filter_cons.
    destruct (String.eqb (strip url) "") eqn:Hblank.
    + apply String.eqb_eq in Hblank.
      destruct (decide (strip url <> "")) as [Hd | Hd];
        [contradiction |]. apply IH.
    + apply String.eqb_neq in Hblank.
      destruct (decide (strip url <> "")) as [Hd | Hd];
        [| contradiction].
      destruct (has_http_scheme (strip url)) eqn:Hscheme; simpl.
      * rewrite IH, <- app_assoc. simpl. rewrite Forall_cons. tauto.
      * split; [discriminate |]. intros [_ Hall].
        apply Forall_cons in Hall as [Hall _]. congruence.
Qed.

(** X19: the validator of image URLs returns the URLs given, blanks around each
    removed and the blank ones dropped, in their order; it does so exactly
    when at least one URL is left and every URL left starts with http:// or
    https://. *)
Theorem image_urls_are_cleaned (urls cleaned : list string) :
  _validate_urls urls = Return cleaned
  <-> cleaned = filter (fun url => url <> "") (strip <$> urls)
      /\ cleaned <> []
      /\ Forall (fun url => has_http_scheme url = true) cleaned.
Proof.
  unfold _validate_urls.
  pose proof (validate_urls_loop_returns urls []) as Hloop.
  destruct (_validate_urls_loop urls []) as [result | e]; simpl.
  - destruct (proj1 (Hloop result) eq_refl) as [Hresult Hall].
    simpl in Hresult. rewrite <- Hresult in *.
    destruct result as [| url rest]; split.
    + discriminate.
    + intros (-> & Hne & _). congruence.
    + intros [= <-]. repeat split; [discriminate | exact Hall].
    + intros (-> & _ & _). reflexivity.
  - split; [discriminate |]. intros (-> & _ & Hall).
    assert (Raise e = Return (filter (fun url => url <> "") (strip <$> urls)))
      as Habsurd by (apply Hloop; split; [reflexivity | exact Hall]).
    discriminate.
Qed.

End image_urls.

Lemma validated_model_is_well_formed_witness :
  validated0 !! "priority_level" = Some (PStr "high")
  /\ validated0 !! "location_url"
     = Some (PStr "https://maps.example/?q=6.9,79.8").
Proof.
  destruct (validated_model_is_well_formed payload0 validated0)
    as ((level & Hlevel & Hstored & _) & (url & Hurl & Hstored' & _) & _).
  - apply returned_value. vm_compute. reflexivity.
  - injection Hlevel as <-. injection Hurl as <-.
    split; [exact Hstored | exact Hstored'].
Defined.

Lemma created_posts_can_be_ranked_witness :
  exists score tie_breaker,
    _priority_score iso0 (post_payload0 ∪ server_columns client0
                                            "rescue_posts" 3)
    = Return (score, tie_breaker)
    /\ 0 <= score <= max_score.
Proof.
  apply (created_posts_can_be_ranked iso0 payload0 validated0 post_payload0).
  - apply returned_value. vm_compute. reflexivity.
  - apply returned_value. vm_compute. reflexivity.
Defined.

(** ** Admin routes *)

Section admin_routes.

Lemma require_admin_token_outcome (s : Settings)
    (x_api_token : option string) :
  auth.require_admin_token s x_api_token
  = if negb (truthy_str (admin_token s)) then
      Raise (AppError "Admin token not configured" 500
                      [("missing", PStr "ADMIN_TOKEN")])
    else if bool_decide (x_api_token = admin_token s) then Return tt
    else Raise (AppError "Unauthorized" 401
                         [("error", PStr "Invalid or missing x-api-token")]).
Proof.
  unfold auth.require_admin_token.
  destruct (truthy_str (admin_token s)) eqn:Hsecret; simpl; [| reflexivity].
  destruct (decide (x_api_token = admin_token s)) as [Hsame | Hne].
  - rewrite (bool_decide_eq_true_2 _ Hsame).
    rewrite bool_decide_eq_false_2 by (intros Hne; apply Hne, Hsame).
    rewrite Hsame at 1. rewrite Hsecret. reflexivity.
  - rewrite (bool_decide_eq_false_2 _ Hne).
    rewrite (bool_decide_eq_true_2 _ Hne), orb_true_r. reflexivity.
Qed.

(** X20: every route under /admin answers behind the token check: without a
    configured secret each one fails with status 500, and with a header that
    is not the secret with status 401, in both cases without a request to
    the database; with the secret in the header each route is the service
    operation, and a delete that succeeds answers with the message
    "Post deleted" and the id. *)
Theorem admin_routes_are_gated (s : Settings) (x_api_token : option string)
    (post_id : string) (c : Client) :
  (~ configured s ->
   refused_with (admin.get_unverified_posts s x_api_token c) c 500
   /\ refused_with (admin.verify_rescue_post s x_api_token post_id c) c 500
   /\ refused_with (admin.delete_rescue_post s x_api_token post_id c) c 500)
  /\ (configured s ->
      x_api_token <> admin_token s ->
      refused_with (admin.get_unverified_posts s x_api_token c) c 401
      /\ refused_with (admin.verify_rescue_post s x_api_token post_id c) c 401
      /\ refused_with (admin.delete_rescue_post s x_api_token post_id c) c 401)
  /\ (configured s ->
      x_api_token = admin_token s ->
      admin.get_unverified_posts s x_api_token c = list_unverified_posts c
      /\ admin.verify_rescue_post s x_api_token post_id c
         = verify_post post_id c
      /\ fst (admin.delete_rescue_post s x_api_token post_id c)
         = (fun _ => deleted_message post_id) <$> fst (delete_post post_id c)
      /\ snd (admin.delete_rescue_post s x_api_token post_id c)
         = snd (delete_post post_id c)).
Proof.
  unfold admin.get_unverified_posts, admin.verify_rescue_post,
    admin.delete_rescue_post, admin.guarded, refused_with.
  rewrite require_admin_token_outcome.
  pose proof (truthy_str_configured s) as Hconf.
  destruct (truthy_str (admin_token s)); simpl.
  - assert (configured s) as Hs by (apply Hconf; reflexivity).
    split; [intros Hnot; contradiction |]. split.
    + intros _ Hne. rewrite bool_decide_eq_false_2 by exact Hne.
      repeat split; eexists; split; reflexivity.
    + intros _ Hsame. rewrite bool_decide_eq_true_2 by exact Hsame.
      split; [reflexivity |]. split; [reflexivity |].
      unfold st_bind, st_ret.
      destruct (delete_post post_id c) as [[[] | e] c']; split; reflexivity.
  - assert (~ configured s) as Hs
      by (intros Hs; apply Hconf in Hs; discriminate).
    split; [| split; intros; contradiction].
    intros _. repeat split; eexists; split; reflexivity.
Qed.

End admin_routes.

Lemma admin_routes_are_gated_witness :
  refused_with (admin.delete_rescue_post settings0 (Some "guess") "c" client1)
               client1 401
  /\ admin.verify_rescue_post settings0 (Some "s3cret") "c" client1
     = verify_post "c" client1.
Proof.
  destruct (admin_routes_are_gated settings0 (Some "guess") "c" client1)
    as (_ & Hwrong & _).
  destruct (admin_routes_are_gated settings0 (Some "s3cret") "c" client1)
    as (_ & _ & Hright).
  assert (configured settings0) as Hconfigured
    by (exists "s3cret"; split; [reflexivity | discriminate]).
  split.
  - apply (Hwrong Hconfigured). discriminate.
  - apply (Hright Hconfigured). reflexivity.
Defined.

(** ** Settings from the environment *)

Section from_env_facts.
Variable int_of_str : string -> option Z.

Lemma require_loaded (value : option string) (message : string)
    (rest : string -> Startup) (s : Settings) :
  require value message rest = Loaded s ->
  exists v, value = Some v /\ v <> "" /\ rest v = Loaded s.
Proof.
  unfold require. destruct value as [v |]; [| discriminate].
  destruct (String.eqb v "") eqn:Hv; [discriminate |].
  apply String.eqb_neq in Hv. eauto.
Qed.

Lemma require_set (value : option string) (message : string)
    (rest : string -> Startup) (v : string) :
  value = Some v -> v <> "" -> require value message rest = rest v.
Proof.
  intros -> Hv. unfold require. apply String.eqb_neq in Hv. rewrite Hv.
  reflexivity.
Qed.

Lemma or_env_set (env : gmap string string) (a b v : string) :
  or_env (env !! a) (env !! b) = Some v -> v <> "" ->
  is_set env a \/ is_set env b.
Proof.
  unfold or_env, is_set. destruct (env !! a) as [x |] eqn:Ha.
  - destruct (String.eqb x "") eqn:Hx.
    + intros Hb Hv. right. eauto.
    + intros [= <-] Hv. left. eauto.
  - intros Hb Hv. right. eauto.
Qed.

Lemma or_env_is_set (env : gmap string string) (a b : string) :
  is_set env a \/ is_set env b ->
  exists v, or_env (env !! a) (env !! b) = Some v /\ v <> "".
Proof.
  unfold or_env, is_set. intros [(v & Ha & Hv) | (v & Hb & Hv)].
  - rewrite Ha. apply String.eqb_neq in Hv as Hv'. rewrite Hv'. eauto.
  - destruct (env !! a) as [x |]; [| eauto].
    destruct (String.eqb x "") eqn:Hx; [eauto |].
    apply String.eqb_neq in Hx. eauto.
Qed.

(** X21: the settings load exactly when the size ceiling reads as an integer and
    the seven required values are set to texts that are not empty, the
    database key under either of its two names and the region under either
    of its two spellings.  The size ceiling is converted before any check: a
    ceiling that does not read as an integer ends the start with the
    conversion error even when required values are missing. *)
Theorem settings_load_exactly_when (env : gmap string string) :
  ((exists s, from_env int_of_str env = Loaded s)
   <-> is_Some (int_of_str
                  (default "5" (env !! "DIGITALOCEAN_MAX_FILE_SIZE_MB")))
       /\ is_set env "SUPABASE_URL"
       /\ (is_set env "SUPABASE_SERVICE_ROLE_KEY"
           \/ is_set env "SUPABASE_ANON_KEY")
       /\ is_set env "DIGITALOCEAN_ACCESS_KEY"
       /\ is_set env "DIGITALOCEAN_SECRET_KEY"
       /\ is_set env "DIGITALOCEAN_BUCKET_NAME"
       /\ (is_set env "DIGITALOCEAN_REGION"
           \/ is_set env "DIGITALOCEAN_REIGION")
       /\ is_set env "DIGITALOCEAN_CDN")
  /\ (int_of_str (default "5" (env !! "DIGITALOCEAN_MAX_FILE_SIZE_MB")) = None
      -> from_env int_of_str env = IntValueError).
Proof.
  unfold from_env.
  destruct (int_of_str _) as [max_mb |]; [| split; [| reflexivity]].
  - split; [| discriminate]. split.
    + intros (s & Hs).
      apply require_loaded in Hs as (v1 & H1 & Hv1 & Hs).
      apply require_loaded in Hs as (v2 & H2 & Hv2 & Hs).
      apply require_loaded in Hs as (v3 & H3 & Hv3 & Hs).
      apply require_loaded in Hs as (v4 & H4 & Hv4 & Hs).
      apply require_loaded in Hs as (v5 & H5 & Hv5 & Hs).
      apply require_loaded in Hs as (v6 & H6 & Hv6 & Hs).
      apply require_loaded in Hs as (v7 & H7 & Hv7 & Hs).
      split; [exists max_mb; reflexivity |].
      split; [exists v1; split; assumption |].
      split; [eapply or_env_set; eassumption |].
      split; [exists v3; split; assumption |].
      split; [exists v4; split; assumption |].
      split; [exists v5; split; assumption |].
      split; [eapply or_env_set; eassumption |].
      exists v7. split; assumption.
    + intros (_ & (v1 & H1 & Hv1) & Hkey & (v3 & H3 & Hv3) & (v4 & H4 & Hv4)
              & (v5 & H5 & Hv5) & Hregion & (v7 & H7 & Hv7)).
      apply or_env_is_set in Hkey as (v2 & H2 & Hv2).
      apply or_env_is_set in Hregion as (v6 & H6 & Hv6).
      rewrite (require_set _ _ _ v1 H1 Hv1), (require_set _ _ _ v2 H2 Hv2),
        (require_set _ _ _ v3 H3 Hv3), (require_set _ _ _ v4 H4 Hv4),
        (require_set _ _ _ v5 H5 Hv5), (require_set _ _ _ v6 H6 Hv6),
        (require_set _ _ _ v7 H7 Hv7).
      eauto.
  - split; [intros (s & Hs); discriminate |].
    intros ([x Hx] & _). discriminate.
Qed.

Lemma rstrip_char_ends (c : ascii) (s : string) :
  ends_with c (rstrip_char c s) = false.
Proof.
  induction s as [| x s IH]; [reflexivity |]. simpl.
  destruct (rstrip_char c s) as [| y r] eqn:Hr.
  - destruct (Ascii.eqb x c) eqn:Hx; simpl; [reflexivity | exact Hx].
  - exact IH.
Qed.

Lemma lstrip_char_begins (c : ascii) (s : string) :
  begins_with c (lstrip_char c s) = false.
Proof.
  induction s as [| x s IH]; [reflexivity |]. simpl.
  destruct (Ascii.eqb x c) eqn:Hx; [exact IH |]. simpl. rewrite ?Hx. reflexivity.
Qed.

Lemma rstrip_char_begins (c : ascii) (s : string) :
  begins_with c s = false -> begins_with c (rstrip_char c s) = false.
Proof.
  destruct s as [| x s]; [reflexivity |]. simpl. intros Hx.
  destruct (rstrip_char c s); [rewrite Hx |]; simpl; exact Hx.
Qed.

(** X22: what loaded settings hold: the CDN endpoint and the origin endpoint
    without a trailing slash, and the upload prefix without a slash at
    either end, so that object keys and CDN URLs are joined by exactly one
    slash; a prefix that is not set in the environment is the empty prefix,
    which puts the objects at the root of the bucket. *)
Theorem loaded_settings_are_normalised (env : gmap string string)
    (s : Settings) :
  from_env int_of_str env = Loaded s ->
  ends_with "/" (digitalocean_cdn_endpoint s) = false
  /\ ends_with "/" (digitalocean_origin_endpoint s) = false
  /\ ends_with "/" (digitalocean_upload_prefix s) = false
  /\ begins_with "/" (digitalocean_upload_prefix s) = false
  /\ (env !! "DIGITALOCEAN_UPLOAD_PREFIX" = None ->
      forall object_name, object_key s object_name = object_name)
  /\ (forall object_name,
        begins_with "/" object_name = false ->
        begins_with "/" (object_key s object_name) = false).
Proof.
  unfold from_env.
  destruct (int_of_str _) as [max_mb |]; [| discriminate].
  intros Hs.
  apply require_loaded in Hs as (v1 & H1 & Hv1 & Hs).
  apply require_loaded in Hs as (v2 & H2 & Hv2 & Hs).
  apply require_loaded in Hs as (v3 & H3 & Hv3 & Hs).
  apply require_loaded in Hs as (v4 & H4 & Hv4 & Hs).
  apply require_loaded in Hs as (v5 & H5 & Hv5 & Hs).
  apply require_loaded in Hs as (v6 & H6 & Hv6 & Hs).
  apply require_loaded in Hs as (v7 & H7 & Hv7 & Hs).
  injection Hs as <-. unfold object_key. simpl.
  split; [apply rstrip_char_ends |]. split; [apply rstrip_char_ends |].
  split; [apply rstrip_char_ends |].
  assert (begins_with "/"
            (strip_char "/" (default "" (env !! "DIGITALOCEAN_UPLOAD_PREFIX")))
          = false) as Hprefix
    by apply rstrip_char_begins, lstrip_char_begins.
  split; [exact Hprefix |]. split.
  - intros ->. reflexivity.
  - intros object_name Hname. revert Hprefix.
    destruct (strip_char _ _) as [| x prefix]; [intros _; exact Hname |].
    simpl. intros Hx. exact Hx.
Qed.

End from_env_facts.

Lemma settings_load_exactly_when_witness :
  exists s, from_env int0 env0 = Loaded s.
Proof.
  apply (settings_load_exactly_when int0 env0).
  unfold is_set.
  split; [eexists; reflexivity |].
  split; [eexists; split; [reflexivity | discriminate] |].
  split; [right; eexists; split; [reflexivity | discriminate] |].
  split; [eexists; split; [reflexivity | discriminate] |].
  split; [eexists; split; [reflexivity | discriminate] |].
  split; [eexists; split; [reflexivity | discriminate] |].
  split; [right; eexists; split; [reflexivity | discriminate] |].
  eexists; split; [reflexivity | discriminate].
Defined.

Lemma loaded_settings_are_normalised_witness :
  digitalocean_cdn_endpoint
    (match from_env int0 env0 with Loaded s => s | _ => settings0 end)
  = "https://cdn.example"
  /\ ends_with "/" "https://cdn.example" = false.
Proof.
  split; [reflexivity |].
  apply (loaded_settings_are_normalised int0 env0
           (match from_env int0 env0 with Loaded s => s | _ => settings0 end)).
  reflexivity.
Defined.

(** ** Telegram notification *)

Section notifier.

Lemma join_nonempty (sep : string) (parts : list string) :
  parts <> [] ->
  Forall (fun part => part <> "") parts ->
  telegram.join sep parts <> "".
Proof.
  destruct parts as [| part parts]; [congruence |].
  intros _ Hparts. apply Forall_cons in Hparts as [Hpart _]. simpl.
  destruct parts; [exact Hpart |].
  destruct part; [congruence | discriminate].
Qed.

Lemma notified_images_nonempty (image_urls : option (list string)) :
  Forall (fun image_url => image_url <> "") (notified_images image_urls).
Proof.
  unfold notified_images. apply Forall_forall. intros image Hin.
  apply list_elem_of_filter in Hin as [Himage _]. exact Himage.
Qed.

(** X23: a notifier without both credentials sends nothing.  A configured one
    makes one request to the bot's API, by the number of image URLs that
    are not empty: sendMessage without images, sendPhoto with one,
    sendMediaGroup with more; it makes a second request, a sendMessage whose
    text is the caption followed by the image URLs, exactly when the first
    is answered with a status of 400 or more, and never a third. *)
Theorem notification_makes_one_or_two_requests (s : Settings)
    (text_fields : list (string * option string))
    (image_urls : option (list string)) (is_verified : option bool)
    (client : telegram.Http) :
  let client' :=
    telegram.send_telegram_notification s text_fields image_urls is_verified
                                        client in
  ((forall token chat_id, ~ notifier_configured s token chat_id) ->
   client' = client)
  /\ (forall token chat_id,
        notifier_configured s token chat_id ->
        let images := notified_images image_urls in
        let base_url := ("https://api.telegram.org/bot" ++ token)%string in
        let caption := telegram._format_html_message text_fields is_verified in
        let first := telegram.first_request base_url chat_id caption images in
        let fallback :=
          telegram.fallback_request base_url chat_id caption images in
        telegram.url first = (base_url ++ method_for (length images))%string
        /\ telegram.json first !! "chat_id" = Some (PStr chat_id)
        /\ telegram.url fallback = (base_url ++ "/sendMessage")%string
        /\ telegram.json fallback !! "text"
           = Some (PStr match images with
                        | [] => caption
                        | _ => (caption ++ telegram.newline ++ telegram.newline
                                  ++ "Images:" ++ telegram.newline
                                  ++ telegram.join telegram.newline images)
                                 %string
                        end)
        /\ (answered_with_error client first ->
            telegram.attempted client'
            = (telegram.attempted client ++ [first; fallback])%list)
        /\ (~ answered_with_error client first ->
            telegram.attempted client'
            = (telegram.attempted client ++ [first])%list)).
Proof.
  intros client'. split.
  - intros Hnot. unfold client', telegram.send_telegram_notification.
    destruct (telegram_bot_token s) as [token |] eqn:Htoken; [| reflexivity].
    destruct (telegram_channel_id s) as [chat_id |] eqn:Hchat;
      [| reflexivity].
    destruct (String.eqb token "") eqn:Ht; [reflexivity |].
    destruct (String.eqb chat_id "") eqn:Hc; [reflexivity |].
    exfalso. apply (Hnot token chat_id).
    apply String.eqb_neq in Ht, Hc. repeat split; assumption.
  - intros token chat_id (Htoken & Ht & Hchat & Hc)
           images base_url caption first fallback.
    split; [| split; [| split; [| split]]].
    + unfold first, telegram.first_request.
      destruct images as [| image [| image' rest]]; reflexivity.
    + unfold first, telegram.first_request.
      destruct images as [| image [| image' rest]]; reflexivity.
    + reflexivity.
    + unfold fallback, telegram.fallback_request.
      cbn [telegram.json]. rewrite lookup_insert_ne by discriminate.
      rewrite lookup_insert_eq.
      pose proof (notified_images_nonempty image_urls) as Himages.
      fold images in Himages.
      destruct images as [| image rest] eqn:Hlist; [reflexivity |].
      pose proof (join_nonempty telegram.newline (image :: rest)
                    ltac:(discriminate) Himages) as Hjoin.
      apply String.eqb_neq in Hjoin. rewrite Hjoin. reflexivity.
    + assert (client'
              = match telegram.post first client with
                | (telegram.Failed, client1) => client1
                | (telegram.Status status_code, client1) =>
                    if 400 <=? status_code
                    then snd (telegram.post fallback client1)
                    else client1
                end) as ->.
      { unfold client', telegram.send_telegram_notification.
        rewrite Htoken, Hchat.
        apply String.eqb_neq in Ht, Hc. rewrite Ht, Hc. reflexivity. }
      unfold answered_with_error, telegram.post. cbn [fst snd].
      destruct (telegram.reply client first (telegram.attempted client))
        as [status_code |] eqn:Hreply.
      * destruct (400 <=? status_code) eqn:Hstatus.
        -- split; [| intros Hnot; exfalso; apply Hnot; exists status_code;
                     split; [reflexivity | lia]].
           intros _. cbn [telegram.attempted].
           rewrite <- app_assoc. reflexivity.
        -- split; [| reflexivity].
           intros (code & [= <-] & Hcode). lia.
      * split; [| reflexivity].
        intros (code & Hcode & _). discriminate.
Qed.


Lemma message_parts_with_value (data : list (string * option string))
    (parts : list string) :
  foldl (fun parts item =>
           match snd item with
           | Some value =>
               if negb (String.eqb value "")
               then (parts ++ [telegram.field_line (fst item) value])%list
               else parts
           | None => parts
           end) parts (with_value data)
  = foldl (fun parts item =>
             match snd item with
             | Some value =>
                 if negb (String.eqb value "")
                 then (parts ++ [telegram.field_line (fst item) value])%list
                 else parts
             | None => parts
             end) parts data.
Proof.
  revert parts. induction data as [| [label value] data IH]; intros parts;
    [reflexivity |].
  unfold with_value in *. rewrite filter_cons. simpl.
  destruct value as [value |]; simpl.
  - destruct (String.eqb value "") eqn:Hvalue; simpl.
    + destruct (decide (false = true)); [discriminate | apply IH].
    + destruct (decide (true = true)); [| congruence].
      simpl. rewrite Hvalue. simpl. apply IH.
  - destruct (decide (false = true)); [discriminate | apply IH].
Qed.

(** X25: a field without a value, null or the empty text, leaves no trace in the
    message: the message is the one of the fields that have a value. *)
Theorem message_leaves_out_empty_fields
    (data : list (string * option string)) (is_verified : option bool) :
  telegram._format_html_message data is_verified
  = telegram._format_html_message (with_value data) is_verified.
Proof.
  unfold telegram._format_html_message.
  rewrite message_parts_with_value. reflexivity.
Qed.

End notifier.

Lemma notification_makes_one_or_two_requests_witness :
  length (telegram.attempted
            (telegram.send_telegram_notification settings_telegram fields0
               (Some ["https://cdn.example/a.jpg"; "";
                      "https://cdn.example/b.jpg"]) (Some false) http0))
  = 2%nat.
Proof.
  destruct (notification_makes_one_or_two_requests settings_telegram fields0
              (Some ["https://cdn.example/a.jpg"; "";
                     "https://cdn.example/b.jpg"]) (Some false) http0)
    as [_ Hconfigured].
  destruct (Hconfigured "123:abc" "@rescue") as (_ & _ & _ & _ & Herror & _).
  - repeat split; discriminate.
  - rewrite Herror; [reflexivity |].
    exists 400. split; [reflexivity | lia].
Defined.


(** ** The route that creates a post *)

Section create_route.
Variable s : Settings.

(** The steps a successful creation went through, up to the insert of the
    post. *)
Lemma creation_returned (data : Payload) (files : list UploadFile)
    (w : World) (post : row) (images : list row) :
  fst (create_rescue_post_with_images s data files w)
  = Return (post, images) ->
  exists validated post_payload c c',
    validate_with_app_error data = Return validated
    /\ post_payload_of validated = Return post_payload
    /\ insert_rescue_post post_payload c = (Return post, c').
Proof.
  intros Hresult.
  pose proof (pair_of_projections _ _ _ Hresult eq_refl) as Hcreate.
  clear Hresult. revert Hcreate.
  unfold create_rescue_post_with_images. intros Hcreate.
  apply st_bind_returns in Hcreate as (validated & w1 & Hvalidated & Hcreate).
  apply st_lift_returns in Hvalidated as [Hvalidated ->].
  apply st_bind_returns in Hcreate as (image_urls & w2 & Hupload & Hcreate).
  apply st_bind_returns in Hcreate as (post_payload & w3 & Hpayload & Hcreate).
  apply st_lift_returns in Hpayload as [Hpayload ->].
  apply st_bind_returns in Hcreate as (post_record & w4 & Hinsert & Hcreate).
  apply on_supabase_returns in Hinsert as (c4 & Hinsert & ->).
  apply st_bind_returns in Hcreate as (images_payload & w5 & Himages & Hcreate).
  apply st_lift_returns in Himages as [Himages ->].
  apply st_bind_returns in Hcreate as (image_records & w6 & Hrecords & Hcreate).
  unfold st_ret in Hcreate. injection Hcreate as <- <- _.
  eauto 10.
Qed.

(** The stored post holds what the validated model holds for a field, the
    phone numbers apart. *)
Lemma stored_field (data : Payload) (validated post_payload post : row)
    (c c' : Client) (i : nat) (name : string) (o : Outcome) :
  validate_with_app_error data = Return validated ->
  post_payload_of validated = Return post_payload ->
  insert_rescue_post post_payload c = (Return post, c') ->
  model_fields data !! i = Some (name, o) ->
  name <> "image_urls" ->
  name <> "phone_number" ->
  name <> "alt_phone_number" ->
  exists v, o = Valid v /\ post !! name = Some v.
Proof.
  intros Hvalidated Hpayload Hinsert Hfield H1 H2 H3.
  destruct (validated_field data validated name o Hvalidated
              (model_field_at data i name o Hfield)) as (v & Hv & Hlookup).
  exists v. split; [exact Hv |].
  apply insert_rescue_post_returns in Hinsert as [-> _].
  apply lookup_union_Some_l.
  rewrite (post_payload_other _ _ name Hpayload) by assumption.
  exact Hlookup.
Qed.

Lemma optional_str_stored (input : option string) (max_length : option Z)
    (v : pyval) :
  str_field input optional None max_length None = Valid v -> v = of_str input.
Proof.
  intros Hv. apply plain_str_field_valid in Hv.
  destruct input as [text |]; [apply Hv |].
  injection Hv as <-. reflexivity.
Qed.

Lemma required_str_stored (text : string) (min_length max_length : option Z)
    (v : pyval) :
  str_field (Some text) required min_length max_length None = Valid v ->
  v = PStr text.
Proof. intros Hv. apply plain_str_field_valid in Hv. apply Hv. Qed.

Lemma int_stored (input : option Z) (lo hi : Z) (v : pyval) :
  int_field input (Some lo) (Some hi) = Valid v -> v = of_int input.
Proof.
  intros Hv. apply int_field_valid in Hv. unfold int_in_range in Hv.
  destruct input as [n |]; [destruct Hv as [_ [= ->]] | injection Hv as ->];
    reflexivity.
Qed.

Lemma flag_stored (b d : bool) (v : pyval) :
  bool_field (Some b) d = Valid v -> v = PBool b.
Proof. intros [= <-]. reflexivity. Qed.

Ltac stored_column Hstored i lemma :=
  let v := fresh "v" in
  let Hv := fresh "Hv" in
  let Hpost := fresh "Hpost" in
  destruct (Hstored i _ _ eq_refl
              ltac:(discriminate) ltac:(discriminate) ltac:(discriminate))
    as (v & Hv & Hpost);
  apply lemma in Hv; subst v; exact Hpost.

(** X26: the post stored for a submission holds the submission: every text as it
    was given, the priority level in lower case and the location URL
    without surrounding blanks, every flag, the safe hours, and as people
    count [number_of_peoples_to_rescue], or [number_of_peoples] when the
    former is not given; what was not given is stored as null. *)
Theorem created_post_holds_the_submission (images : list UploadFile)
    (form : posts.Form) (w : World) (post : row) (image_rows : list row) :
  fst (posts.create_rescue_post s images form w)
  = Return (post, image_rows) ->
  Forall (fun column => post !! fst column = Some (snd column))
         (submitted_columns form).
Proof.
  unfold posts.create_rescue_post. intros Hcreated.
  apply creation_returned in Hcreated
    as (validated & post_payload & c & c' & Hvalidated & Hpayload & Hinsert).
  pose proof (fun i name o =>
                stored_field _ validated post_payload post c c' i name o
                             Hvalidated Hpayload Hinsert) as Hstored.
  unfold submitted_columns, submitted_people.
  repeat constructor; cbn [fst snd].
  - stored_column Hstored 0%nat required_str_stored.
  - stored_column Hstored 3%nat required_str_stored.
  - stored_column Hstored 4%nat optional_str_stored.
  - stored_column Hstored 5%nat optional_str_stored.
  - stored_column Hstored 6%nat required_str_stored.
  - destruct (Hstored 7%nat _ _ eq_refl
                ltac:(discriminate) ltac:(discriminate) ltac:(discriminate))
      as (v & Hv & Hpost).
    apply priority_field_valid in Hv as (text & [= <-] & -> & _). exact Hpost.
  - stored_column Hstored 8%nat int_stored.
  - stored_column Hstored 9%nat flag_stored.
  - stored_column Hstored 10%nat optional_str_stored.
  - stored_column Hstored 11%nat int_stored.
  - stored_column Hstored 12%nat flag_stored.
  - stored_column Hstored 13%nat flag_stored.
  - stored_column Hstored 14%nat flag_stored.
  - stored_column Hstored 15%nat flag_stored.
  - stored_column Hstored 16%nat flag_stored.
  - stored_column Hstored 17%nat flag_stored.
  - stored_column Hstored 18%nat optional_str_stored.
  - destruct (Hstored 19%nat _ _ eq_refl
                ltac:(discriminate) ltac:(discriminate) ltac:(discriminate))
      as (v & Hv & Hpost).
    apply location_url_field_valid in Hv as (text & [= <-] & -> & _).
    exact Hpost.
Qed.

End create_route.

Lemma created_post_holds_the_submission_witness :
  is_Return (fst route_created0) = true
  /\ fst (value_or (fst route_created0) (∅, []))
       !! "number_of_peoples_to_rescue" = Some (PInt 4)
  /\ fst (value_or (fst route_created0) (∅, []))
       !! "priority_level" = Some (PStr "high").
Proof.
  assert (is_Return (fst route_created0) = true) as Hreturns
    by (vm_compute; reflexivity).
  split; [exact Hreturns |].
  pose proof (created_post_holds_the_submission settings0 [photo0] form0
                world0 (fst (value_or (fst route_created0) (∅, [])))
                (snd (value_or (fst route_created0) (∅, [])))) as Hcolumns.
  rewrite Forall_forall in Hcolumns.
  split.
  - apply (Hcolumns
             ltac:(rewrite <- surjective_pairing;
                   apply returned_value, Hreturns)
             ("number_of_peoples_to_rescue", PInt 4)).
    apply (list_elem_of_lookup_2 _ 6). reflexivity.
  - apply (Hcolumns
             ltac:(rewrite <- surjective_pairing;
                   apply returned_value, Hreturns)
             ("priority_level", PStr "high")).
    apply (list_elem_of_lookup_2 _ 5). reflexivity.
Defined.

(** ** A created post in the listing *)

Section created_and_listed.
Variable s : Settings.

Lemma execute_keeps_service (q : Query) (c : Client) :
  api_error (snd (execute q c)) = api_error c
  /\ order_rows (snd (execute q c)) = order_rows c.
Proof.
  unfold execute. destruct (api_error c q (tables c)); [split; reflexivity |].
  destruct (perform c q). split; reflexivity.
Qed.

Lemma insert_rescue_post_keeps_service (payload : row) (c : Client) :
  api_error (snd (insert_rescue_post payload c)) = api_error c
  /\ order_rows (snd (insert_rescue_post payload c)) = order_rows c.
Proof.
  unfold insert_rescue_post.
  pose proof (execute_keeps_service
                (from_table "rescue_posts" (Insert [payload])) c) as Hkeeps.
  destruct (execute _ c) as [[text | [| first data]] c']; exact Hkeeps.
Qed.

Lemma insert_images_keeps_service (images_payload : list row) (c : Client) :
  api_error (snd (insert_images images_payload c)) = api_error c
  /\ order_rows (snd (insert_images images_payload c)) = order_rows c.
Proof.
  unfold insert_images. destruct images_payload as [| image rest];
    [split; reflexivity |].
  pose proof (execute_keeps_service
                (from_table "images" (Insert (image :: rest))) c) as Hkeeps.
  destruct (execute _ c) as [[text | [| first data]] c']; exact Hkeeps.
Qed.

(** X27: a post that has just been created is in the listing of all posts, with
    the image rows stored for it embedded, when the database answers and
    has given the post a text id. *)
Theorem created_post_is_listed_with_its_images (data : Payload)
    (files : list UploadFile) (w w' : World) (post : row)
    (images : list row) (id : string) :
  fst (create_rescue_post_with_images s data files w)
  = Return (post, images) ->
  snd (create_rescue_post_with_images s data files w) = w' ->
  always_answers (supabase_client w) ->
  orders_by_permuting (supabase_client w) ->
  post !! "id" = Some (PStr id) ->
  exists posts listed,
    fst (list_rescue_posts_with_images (supabase_client w')) = Return posts
    /\ listed ∈ posts
    /\ listed = embed_images (tables (supabase_client w')) post
    /\ Forall (fun image => PDict image ∈ images_of listed) images.
Proof.
  intros Hresult Hworld Hanswers Horder Hid.
  pose proof (pair_of_projections _ _ _ Hresult Hworld) as Hcreate.
  clear Hresult Hworld. revert Hcreate.
  unfold create_rescue_post_with_images. intros Hcreate.
  apply st_bind_returns in Hcreate as (validated & w1 & Hvalidated & Hcreate).
  apply st_lift_returns in Hvalidated as [Hvalidated ->].
  apply st_bind_returns in Hcreate as (image_urls & w2 & Hupload & Hcreate).
  apply st_bind_returns in Hcreate as (post_payload & w3 & Hpayload & Hcreate).
  apply st_lift_returns in Hpayload as [Hpayload ->].
  apply st_bind_returns in Hcreate as (post_record & w4 & Hinsert & Hcreate).
  apply on_supabase_returns in Hinsert as (c4 & Hinsert & ->).
  apply st_bind_returns in Hcreate as (images_payload & w5 & Himages & Hcreate).
  apply st_lift_returns in Himages as [Himages ->].
  apply st_bind_returns in Hcreate as (image_records & w6 & Hrecords & Hcreate).
  apply on_supabase_returns in Hrecords as (c6 & Hrecords & ->).
  unfold st_ret in Hcreate. injection Hcreate as <- <- <-.
  pose proof (upload_services s files w) as (_ & _ & Hclient & _).
  rewrite Hupload in Hclient. simpl in Hclient, Hinsert, Hrecords.
  rewrite Hclient in Hinsert. simpl.
  set (c := supabase_client w) in *.
  (* the service behind the client is the one the creation started with *)
  pose proof (insert_rescue_post_keeps_service post_payload c) as [Herr4 Hord4].
  pose proof (insert_images_keeps_service images_payload c4) as [Herr6 Hord6].
  rewrite Hinsert in Herr4, Hord4. rewrite Hrecords in Herr6, Hord6.
  simpl in Herr4, Hord4, Herr6, Hord6.
  assert (healthy c6) as Hhealthy.
  { intros q. rewrite Herr6, Herr4. apply Hanswers. }
  (* the tables the creation leaves *)
  pose proof (insert_images_keeps_posts _ _ _ _ Hrecords) as Hposts.
  apply insert_rescue_post_returns in Hinsert as [_ Hrows].
  rewrite Hrows in Hposts.
  apply mapM_returns in Himages.
  apply insert_images_returns in Hrecords as [Hrows6 Hstored].
  pose proof (image_rows _ _ _ _ Himages Hstored) as Hreference.
  assert (image_records ⊆ rows_of (tables c6) "images") as Hkept.
  { intros image Hin. rewrite Hrows6. apply elem_of_app. right. exact Hin. }
  unfold list_rescue_posts_with_images, fetch_rescue_posts_with_images.
  rewrite execute_healthy by exact Hhealthy.
  unfold perform.
  cbn [order from_table table verb filters ordering fst].
  unfold project. rewrite String.eqb_refl.
  eexists _, (embed_images (tables c6) post_record).
  split; [reflexivity |]. split; [| split; [reflexivity |]].
  - apply list_elem_of_fmap_2. rewrite Hord6, Hord4, (Horder _ _ _).
    apply list_elem_of_filter. split; [reflexivity |].
    rewrite Hposts. apply elem_of_app. right. left.
  - unfold images_of, embed_images. rewrite lookup_insert_eq.
    apply Forall_forall. intros image Hin.
    apply list_elem_of_fmap_2, list_elem_of_filter.
    split; [| apply Hkept, Hin].
    apply (Forall2_Forall_r _ (fun image => image !! "post_id"
                                             = post_record !! "id"))
      in Hreference.
    + rewrite Forall_forall in Hreference.
      unfold get. rewrite (Hreference image Hin), Hid. simpl.
      apply String.eqb_refl.
    + apply Forall_true. intros url image' [_ Hpost]. exact Hpost.
Qed.

End created_and_listed.

Lemma created_post_is_listed_with_its_images_witness :
  exists posts listed,
    fst (list_rescue_posts_with_images (supabase_client (snd created0)))
    = Return posts
    /\ listed ∈ posts
    /\ Forall (fun image => PDict image ∈ images_of listed) images0.
Proof.
  assert (fst created0 = Return (post0, images0)) as Hrun.
  { unfold post0, images0.
    rewrite (returned_value (fst created0) (∅, [])) at 1
      by (vm_compute; reflexivity).
    destruct (value_or (fst created0) (∅, [])). reflexivity. }
  destruct (created_post_is_listed_with_its_images settings0 payload0
              [photo0; photo1] world0 _ post0 images0 "row-3" Hrun eq_refl)
    as (posts & listed & Hposts & Hin & _ & Himages).
  - intros q t. reflexivity.
  - intros column desc rows. reflexivity.
  - vm_compute. reflexivity.
  - exists posts, listed. split; [exact Hposts |]. split; assumption.
Defined.

(** ** A server started without the optional secrets *)

Section optional_secrets.
Variable int_of_str : string -> option Z.

(** The three optional values are taken from the environment as they
    are. *)
Lemma loaded_optional_values (env : gmap string string) (s : Settings) :
  from_env int_of_str env = Loaded s ->
  admin_token s = env !! "ADMIN_TOKEN"
  /\ telegram_bot_token s = env !! "TELEGRAM_BOT_TOKEN"
  /\ telegram_channel_id s = env !! "TELEGRAM_CHANNEL_ID".
Proof.
  unfold from_env.
  destruct (int_of_str _) as [max_mb |]; [| discriminate].
  intros Hs.
  apply require_loaded in Hs as (v1 & H1 & Hv1 & Hs).
  apply require_loaded in Hs as (v2 & H2 & Hv2 & Hs).
  apply require_loaded in Hs as (v3 & H3 & Hv3 & Hs).
  apply require_loaded in Hs as (v4 & H4 & Hv4 & Hs).
  apply require_loaded in Hs as (v5 & H5 & Hv5 & Hs).
  apply require_loaded in Hs as (v6 & H6 & Hv6 & Hs).
  apply require_loaded in Hs as (v7 & H7 & Hv7 & Hs).
  injection Hs as <-. repeat split.
Qed.

Lemma not_set_is_falsy (env : gmap string string) (name : string) :
  ~ is_set env name -> truthy_str (env !! name) = false.
Proof.
  unfold is_set, truthy_str. intros Hnot.
  destruct (env !! name) as [value |]; [| reflexivity].
  destruct (String.eqb value "") eqn:Hvalue; [reflexivity |].
  exfalso. apply Hnot. exists value. apply String.eqb_neq in Hvalue.
  split; [reflexivity | exact Hvalue].
Qed.

(** X28: the server starts without the admin token and without the Telegram
    credentials, which no check of the start requires; it is then closed
    and silent: with no admin token in the environment every admin route
    fails with status 500 whatever the header, without a request to the
    database, and with either Telegram credential missing no notification
    is sent. *)
Theorem server_without_optional_secrets (env : gmap string string)
    (s : Settings) (x_api_token : option string) (post_id : string)
    (c : Client) (text_fields : list (string * option string))
    (image_urls : option (list string)) (is_verified : option bool)
    (client : telegram.Http) :
  from_env int_of_str env = Loaded s ->
  (~ is_set env "ADMIN_TOKEN" ->
   refused_with (admin.get_unverified_posts s x_api_token c) c 500
   /\ refused_with (admin.verify_rescue_post s x_api_token post_id c) c 500
   /\ refused_with (admin.delete_rescue_post s x_api_token post_id c) c 500)
  /\ (~ (is_set env "TELEGRAM_BOT_TOKEN" /\ is_set env "TELEGRAM_CHANNEL_ID") ->
      telegram.send_telegram_notification s text_fields image_urls
                                          is_verified client
      = client).
Proof.
  intros Hloaded.
  apply loaded_optional_values in Hloaded as (Hadmin & Htoken & Hchat).
  split.
  - intros Hnot. apply not_set_is_falsy in Hnot.
    unfold admin.get_unverified_posts, admin.verify_rescue_post,
      admin.delete_rescue_post, admin.guarded, refused_with.
    rewrite require_admin_token_outcome, Hadmin, Hnot. simpl.
    repeat split; eexists; split; reflexivity.
  - intros Hnot. unfold telegram.send_telegram_notification.
    rewrite Htoken, Hchat.
    destruct (env !! "TELEGRAM_BOT_TOKEN") as [token |] eqn:Ht;
      [| reflexivity].
    destruct (env !! "TELEGRAM_CHANNEL_ID") as [chat_id |] eqn:Hc;
      [| reflexivity].
    destruct (String.eqb token "") eqn:Htoken'; [reflexivity |].
    destruct (String.eqb chat_id "") eqn:Hchat'; [reflexivity |].
    exfalso. apply Hnot. apply String.eqb_neq in Htoken', Hchat'.
    split; eexists; (split; [eassumption | assumption]).
Qed.

End optional_secrets.

Lemma server_without_optional_secrets_witness :
  exists s,
    from_env int0 env0 = Loaded s
    /\ refused_with (admin.delete_rescue_post s (Some "guess") "c" client1)
                    client1 500
    /\ telegram.send_telegram_notification s fields0 None (Some false) http0
       = http0.
Proof.
  exists (match from_env int0 env0 with Loaded s => s | _ => settings0 end).
  split; [reflexivity |].
  destruct (server_without_optional_secrets int0 env0
              (match from_env int0 env0 with Loaded s => s | _ => settings0 end)
              (Some "guess") "c" client1 fields0 None (Some false) http0
              eq_refl) as [Hadmin Hsilent].
  split.
  - apply Hadmin. intros (value & Hvalue & _). discriminate.
  - apply Hsilent. intros [(value & Hvalue & _) _]. discriminate.
Defined.
